(** * LandText: a shallow embedding of [landtext.py]

    The editor is a single Python module built on Tk.  Its own code is
    embedded function by function; module globals, [Editor] objects, the
    file system and the toolkit's widgets are explicit state.  A handler
    is a computation in a state-and-exception monad: Python exceptions
    leave whatever was mutated before the raise in place, so the state
    is returned on both outcomes.

    What the user does is an argument of the handler it reaches: the
    answer of a file chooser, the key pressed, the text pasted, the
    button clicked.  Of the toolkit, only what the editor's code
    relies on is modelled: the text widget (characters, the ["found"]
    tag, the cursor, options), searching in it, window titles and
    visibility, the window tree (destroying a window destroys the
    windows created under it), and message boxes.  A character is a
    code below 256; what is said of searching is said of text below
    128, where the letters are A to Z. *)

From Stdlib Require Import ZArith Ascii String.
From stdpp Require Import base option list gmap strings pretty.

Local Open Scope string_scope.

(** ** Exceptions and the handler monad *)

Inductive exn : Type :=
| KeyError
| TypeError
| AttributeError
| ValueError
| RecursionError
| TclError
| OSError (msg : string)
| Unfinished.

(** [Unfinished] is no exception of Python: a handler ends with it
    when a loop of its body was cut off at the number of rounds allowed
    to it, so that a loop that does not end is never taken for a
    handler that returned.

    [str(e)] as shown in an error box; only [OSError] carries the text
    the operating system supplied. *)
Definition exn_str (e : exn) : string :=
  match e with
  | KeyError => "KeyError"
  | TypeError => "TypeError"
  | AttributeError => "AttributeError"
  | ValueError => "ValueError"
  | RecursionError => "maximum recursion depth exceeded"
  | TclError => "invalid command name"
  | OSError msg => msg
  | Unfinished => EmptyString
  end.

Definition M (S A : Type) : Type := S -> (exn + A) * S.

Definition ret {S A} (a : A) : M S A := fun s => (inr a, s).

Definition bind {S A B} (m : M S A) (k : A -> M S B) : M S B :=
  fun s => match m s with
           | (inr a, s') => k a s'
           | (inl e, s') => (inl e, s')
           end.

Definition raise {S A} (e : exn) : M S A := fun s => (inl e, s).

Definition gets {S A} (f : S -> A) : M S A := fun s => (inr (f s), s).

Definition modify {S} (f : S -> S) : M S unit := fun s => (inr tt, f s).

(** [try: body except: handler] *)
Definition try_except {S A} (body : M S A) (handler : exn -> M S A) : M S A :=
  fun s => match body s with
           | (inr a, s') => (inr a, s')
           | (inl e, s') => handler e s'
           end.

(** Lift a pure partial operation. *)
Definition lift {S A} (r : exn + A) : M S A :=
  match r with inr a => ret a | inl e => raise e end.

(** Final state of a handler, whether it returned or raised. *)
Definition exec {S A} (m : M S A) (s : S) : S := snd (m s).

(** The exception a handler ended with, if any. *)
Definition raised {S A} (m : M S A) (s : S) : option exn :=
  match fst (m s) with inl e => Some e | inr _ => None end.

Declare Scope py_scope.
Delimit Scope py_scope with py.
Notation "x <- m ;; k" := (bind m (fun x => k))
  (at level 100, m at next level, right associativity) : py_scope.
Notation "m ;; k" := (bind m (fun _ => k))
  (at level 100, right associativity) : py_scope.
Local Open Scope py_scope.

(** ** Values read from and written to the settings file *)

#[local] Set Warnings "-register-all".

(** What [json.load] can return.  The editor never computes with a
    number, so integers stand for all of them. *)
Inductive json : Type :=
| JNull
| JBool (b : bool)
| JNum (n : Z)
| JStr (s : string)
| JArr (items : list json)
| JObj (fields : list (string * json)).

Abbreviation dict := (list (string * json)).

Fixpoint dict_get (k : string) (d : dict) : option json :=
  match d with
  | [] => None
  | (k', v) :: d' => if String.eqb k k' then Some v else dict_get k d'
  end.

(** [d[k] = v]: an existing key keeps its position. *)
Fixpoint dict_set (k : string) (v : json) (d : dict) : dict :=
  match d with
  | [] => [(k, v)]
  | (k', v') :: d' =>
      if String.eqb k k' then (k, v) :: d' else (k', v') :: dict_set k v d'
  end.

Definition is_str (s : string) (j : json) : bool :=
  match j with JStr s' => String.eqb s s' | _ => false end.

(** [needle in hay] on strings. *)
Fixpoint substring_of (needle hay : string) : bool :=
  String.prefix needle hay ||
  match hay with
  | EmptyString => false
  | String _ hay' => substring_of needle hay'
  end.

(** [k in x] for a string literal [k]. *)
Definition py_contains (k : string) (x : json) : exn + bool :=
  match x with
  | JObj d => inr (bool_decide (is_Some (dict_get k d)))
  | JArr l => inr (existsb (is_str k) l)
  | JStr s => inr (substring_of k s)
  | JNull | JBool _ | JNum _ => inl TypeError
  end.

(** [x[k]] for a string literal [k]. *)
Definition py_getitem (x : json) (k : string) : exn + json :=
  match x with
  | JObj d => match dict_get k d with Some v => inr v | None => inl KeyError end
  | _ => inl TypeError
  end.

(** [x.get(k, default)] *)
Definition py_get (x : json) (k : string) (default : json) : exn + json :=
  match x with
  | JObj d => inr (match dict_get k d with Some v => v | None => default end)
  | _ => inl AttributeError
  end.

(** ** The disk *)

(** The settings file: missing, present but not loadable as JSON, or
    holding a JSON value.  [json.dump] followed by [json.load] is taken
    to return the value dumped, so the file is modelled by that value. *)
Inductive settings_file : Type :=
| SAbsent
| SGarbled
| SJson (j : json).

(** [os.name]: [os.linesep] is the newline character on the first
    kind of system and carriage return, newline on the second. *)
Inductive platform : Type := Posix | NT.

(** Document files hold decoded text.  A path in [denied] cannot be
    opened for writing. *)
Record world : Type := World {
  documents : gmap string string;
  denied : list string;
  settings : settings_file;
  settings_denied : bool;
  os : platform
}.

Definition hex_of (n : nat) : ascii :=
  nth n (list_ascii_of_string "0123456789abcdef") "0"%char.

(** One character of [repr(s)] inside the quotes [q]. *)
Definition repr_char (q c : ascii) : string :=
  let n := nat_of_ascii c in
  if Ascii.eqb c q || Ascii.eqb c "\"%char then String "\"%char (String c EmptyString)
  else if Ascii.eqb c "009"%char then "\t"
  else if Ascii.eqb c "010"%char then "\n"
  else if Ascii.eqb c "013"%char then "\r"
  else if Nat.ltb n 32 || (Nat.leb 127 n && Nat.leb n 160) || Nat.eqb n 173
  then String "\"%char (String "x"%char
         (String (hex_of (n / 16)) (String (hex_of (n mod 16)) EmptyString)))
  else String c EmptyString.

(** [repr(s)] of a string: double quotes when [s] holds a single
    quote and no double quote, single quotes otherwise. *)
Definition py_repr (s : string) : string :=
  let cs := list_ascii_of_string s in
  let q := if existsb (Ascii.eqb "'"%char) cs && negb (existsb (Ascii.eqb "034"%char) cs)
           then "034"%char else "'"%char in
  String q (foldr (fun c r => repr_char q c +:+ r) (String q EmptyString) cs).

(** [str(e)] of the [OSError] raised by [open]. *)
Definition no_such_file (p : string) : exn :=
  OSError ("[Errno 2] No such file or directory: " +:+ py_repr p).

Definition permission_denied (p : string) : exn :=
  OSError ("[Errno 13] Permission denied: " +:+ py_repr p).

(** Reading in text mode gives a newline for each carriage return,
    newline and for each other carriage return. *)
Fixpoint universal_newlines (s : string) : string :=
  match s with
  | EmptyString => EmptyString
  | String c rest =>
      if Ascii.eqb c "013"%char then
        String "010"%char
          match rest with
          | String c' rest' =>
              if Ascii.eqb c' "010"%char then universal_newlines rest'
              else universal_newlines rest
          | EmptyString => EmptyString
          end
      else String c (universal_newlines rest)
  end.

(** Writing in text mode puts [os.linesep] for each newline. *)
Fixpoint crlf (s : string) : string :=
  match s with
  | EmptyString => EmptyString
  | String c rest =>
      if Ascii.eqb c "010"%char
      then String "013"%char (String "010"%char (crlf rest))
      else String c (crlf rest)
  end.

Definition write_newlines (o : platform) (s : string) : string :=
  match o with Posix => s | NT => crlf s end.

(** [open(p, "r", encoding="utf-8").read()] *)
Definition fs_read (w : world) (p : string) : exn + string :=
  match documents w !! p with
  | Some text => inr (universal_newlines text)
  | None => inl (no_such_file p)
  end.

(** [open(p, "w", encoding="utf-8").write(text)] *)
Definition fs_write (w : world) (p text : string) : exn + world :=
  if bool_decide (p ∈ denied w)
  then inl (permission_denied p)
  else inr (World (<[p := write_newlines (os w) text]> (documents w)) (denied w)
                  (settings w) (settings_denied w) (os w)).

(** ** Toolkit widgets *)

(** A text widget holds characters, each carrying the ["found"] tag or
    not, the insertion cursor, its configured options, the options of
    the ["found"] tag, the index the view was last asked to show (where
    the view then stands depends on the size of the window), and
    whether it is the widget of its window that takes the keys.  The
    toolkit keeps one extra newline after the last character; it is
    never stored here and is added where the toolkit returns it. *)
Record Text : Type := MkText {
  cells : list (ascii * bool);
  insert_mark : nat;
  text_options : dict;
  found_options : dict;
  seen : option nat;
  focused : bool
}.

Record Label : Type := MkLabel {
  label_options : dict
}.

Inductive wstate : Type := Shown | Withdrawn | Destroyed.

(** A top-level window.  Its path name lists the windows it was
    created under, outermost first and itself last; the root window of
    the toolkit has the empty path. *)
Record Window : Type := MkWindow {
  pathname : list nat;
  title : string;
  wm : wstate
}.

(** The window at [p] is the window at [q] or one it was created
    under. *)
Fixpoint under (p q : list nat) : bool :=
  match p, q with
  | [], _ => true
  | _ :: _, [] => false
  | x :: p', y :: q' => Nat.eqb x y && under p' q'
  end.

(** [widget.config(k1=v1, ...)] *)
Definition config (kw : dict) (options : dict) : dict :=
  foldl (fun o kv => dict_set kv.1 kv.2 o) options kw.

Definition text_of (cs : list (ascii * bool)) : string :=
  string_of_list_ascii (map fst cs).

Definition plain (s : string) : list (ascii * bool) :=
  map (fun c => (c, false)) (list_ascii_of_string s).

Definition newline : string := String "010"%char EmptyString.

(** [t.get("1.0", tk.END)]: everything up to the end of the widget,
    the toolkit's final newline included. *)
Definition text_get_all (t : Text) : string :=
  text_of (cells t) +:+ newline.

(** [t.delete("1.0", tk.END)]: the final newline is never deleted. *)
Definition text_delete_all (t : Text) : Text :=
  MkText [] 0 (text_options t) (found_options t) (seen t) (focused t).

(** [t.insert("1.0", s)]: no character precedes index 1.0, so the new
    text carries no tag; a cursor at or after 1.0 moves with the text
    it sits behind. *)
Definition text_insert_start (s : string) (t : Text) : Text :=
  MkText (plain s ++ cells t) (String.length s + insert_mark t) (text_options t)
         (found_options t) (seen t) (focused t).

(** [t.tag_remove("found", "1.0", tk.END)] *)
Definition tag_remove_all (t : Text) : Text :=
  MkText (map (fun c => (c.1, false)) (cells t)) (insert_mark t) (text_options t)
         (found_options t) (seen t) (focused t).

(** [t.tag_add("found", i, j)] on character offsets. *)
Definition tag_add (i j : nat) (t : Text) : Text :=
  MkText (imap (fun k c => (c.1, c.2 || (Nat.leb i k && Nat.ltb k j))) (cells t))
         (insert_mark t) (text_options t) (found_options t) (seen t) (focused t).

(** [t.tag_config("found", k1=v1, ...)] *)
Definition tag_config (kw : dict) (t : Text) : Text :=
  MkText (cells t) (insert_mark t) (text_options t)
         (config kw (found_options t)) (seen t) (focused t).

(** [t.see(i)] *)
Definition see (i : nat) (t : Text) : Text :=
  MkText (cells t) (insert_mark t) (text_options t)
         (found_options t) (Some i) (focused t).

(** [t.focus()] *)
Definition focus (t : Text) : Text :=
  MkText (cells t) (insert_mark t) (text_options t)
         (found_options t) (seen t) true.

(** *** Searching and typing: the text widget's own behaviour *)

(** Case folding as the search does it with [nocase]: on the
    characters below 128, the letters A to Z become a to z. *)
Definition lower (c : ascii) : ascii :=
  let n := nat_of_ascii c in
  if Nat.leb 65 n && Nat.leb n 90 then ascii_of_nat (n + 32) else c.

Fixpoint prefix_nocase (q buf : list ascii) : bool :=
  match q, buf with
  | [], _ => true
  | _ :: _, [] => false
  | a :: q', b :: buf' => Ascii.eqb (lower a) (lower b) && prefix_nocase q' buf'
  end.

(** Leftmost offset at or after [p] where [q] occurs; [buf] is the text
    from offset [p] on. *)
Fixpoint search_from (q buf : list ascii) (p : nat) : option nat :=
  match buf with
  | [] => None
  | _ :: rest => if prefix_nocase q buf then Some p else search_from q rest (S p)
  end.

(** [t.search(term, idx, nocase=1, stopindex=tk.END)]: [None] is the
    empty string the toolkit returns when nothing is found.  The editor
    only searches for a non-empty term. *)
Definition text_search (term : string) (idx : nat) (t : Text) : option nat :=
  search_from (list_ascii_of_string term) (drop idx (map fst (cells t))) idx.

(** Text typed or pasted at offset [i] takes the tag only when the
    characters on both sides carry it. *)
Definition text_insert_at (i : nat) (s : string) (t : Text) : Text :=
  let before := take i (cells t) in
  let after := drop i (cells t) in
  let tagged := match last before, head after with
                | Some (_, true), Some (_, true) => true
                | _, _ => false
                end in
  MkText (before ++ map (fun c => (c, tagged)) (list_ascii_of_string s) ++ after)
         (if Nat.leb i (insert_mark t)
          then String.length s + insert_mark t else insert_mark t)
         (text_options t) (found_options t) (seen t) (focused t).

Definition text_delete_at (i : nat) (t : Text) : Text :=
  MkText (take i (cells t) ++ drop (S i) (cells t))
         (if Nat.ltb i (insert_mark t) then pred (insert_mark t) else insert_mark t)
         (text_options t) (found_options t) (seen t) (focused t).

Inductive key : Type :=
| KChar (c : ascii)
| KBackSpace
| KLeft
| KRight.

(** What the text widget itself does with a key press. *)
Definition text_key (k : key) (t : Text) : Text :=
  match k with
  | KChar c => text_insert_at (insert_mark t) (String c EmptyString) t
  | KBackSpace =>
      match insert_mark t with
      | 0 => t
      | S i => text_delete_at i t
      end
  | KLeft => MkText (cells t) (pred (insert_mark t)) (text_options t)
                    (found_options t) (seen t) (focused t)
  | KRight =>
      MkText (cells t) (Nat.min (S (insert_mark t)) (length (cells t)))
             (text_options t) (found_options t) (seen t) (focused t)
  end.

(** What the text widget itself does with a paste of [clip]. *)
Definition text_paste (clip : string) (t : Text) : Text :=
  text_insert_at (insert_mark t) clip t.

(** ** Editor objects and module globals *)

(** [self.current_file] *)
Record DocId : Type := MkDocId {
  path : option string;
  modified : bool
}.

(** The callables that reach the unsaved-changes dialog. *)
Inductive callable : Type :=
| Lambda_do_new_file   (** [lambda: self._do_new_file()] in [new_file] *)
| Nested_on_save       (** [def on_save()] in [show_unsaved_dialog] *)
| Nested_on_discard.   (** [def on_discard()] in [show_unsaved_dialog] *)

(** The unsaved-changes dialog: the local name [on_discard] of the
    [show_unsaved_dialog] call, which both nested functions read when
    they run, and the commands given to the two buttons. *)
Record Dialog : Type := MkDialog {
  on_discard_cell : option callable;
  save_command : option callable;
  dont_save_command : option callable;
  dialog_open : bool
}.

Record Editor : Type := MkEditor {
  is_root : bool;
  current_file : DocId;
  window : Window;
  text_area : Text;
  status_bar : Label;
  unsaved_dialog : option Dialog
}.

(** A message box put before the user. *)
Inductive message : Type :=
| ShowError (caption body : string).

(** Module globals, the [Editor] objects by identity, the disk, and
    what the toolkit has been asked to do. *)
Record app : Type := MkApp {
  THEMES : dict;
  current_font_size : json;
  current_theme : json;
  all_editors : list nat;
  heap : gmap nat Editor;
  disk : world;
  shown : list message;
  mainloop_quit : bool
}.

Definition set_current_file (d : DocId) (e : Editor) : Editor :=
  MkEditor (is_root e) d (window e) (text_area e) (status_bar e) (unsaved_dialog e).
Definition set_window (w : Window) (e : Editor) : Editor :=
  MkEditor (is_root e) (current_file e) w (text_area e) (status_bar e) (unsaved_dialog e).
Definition set_text_area (t : Text) (e : Editor) : Editor :=
  MkEditor (is_root e) (current_file e) (window e) t (status_bar e) (unsaved_dialog e).
Definition set_status_bar (l : Label) (e : Editor) : Editor :=
  MkEditor (is_root e) (current_file e) (window e) (text_area e) l (unsaved_dialog e).
Definition set_unsaved_dialog (d : option Dialog) (e : Editor) : Editor :=
  MkEditor (is_root e) (current_file e) (window e) (text_area e) (status_bar e) d.

Definition set_THEMES (v : dict) (a : app) : app :=
  MkApp v (current_font_size a) (current_theme a) (all_editors a) (heap a)
        (disk a) (shown a) (mainloop_quit a).
Definition set_current_font_size (v : json) (a : app) : app :=
  MkApp (THEMES a) v (current_theme a) (all_editors a) (heap a)
        (disk a) (shown a) (mainloop_quit a).
Definition set_current_theme (v : json) (a : app) : app :=
  MkApp (THEMES a) (current_font_size a) v (all_editors a) (heap a)
        (disk a) (shown a) (mainloop_quit a).
Definition set_all_editors (v : list nat) (a : app) : app :=
  MkApp (THEMES a) (current_font_size a) (current_theme a) v (heap a)
        (disk a) (shown a) (mainloop_quit a).
Definition set_heap (v : gmap nat Editor) (a : app) : app :=
  MkApp (THEMES a) (current_font_size a) (current_theme a) (all_editors a) v
        (disk a) (shown a) (mainloop_quit a).
Definition set_disk (v : world) (a : app) : app :=
  MkApp (THEMES a) (current_font_size a) (current_theme a) (all_editors a) (heap a)
        v (shown a) (mainloop_quit a).
Definition set_shown (v : list message) (a : app) : app :=
  MkApp (THEMES a) (current_font_size a) (current_theme a) (all_editors a) (heap a)
        (disk a) v (mainloop_quit a).
Definition set_mainloop_quit (v : bool) (a : app) : app :=
  MkApp (THEMES a) (current_font_size a) (current_theme a) (all_editors a) (heap a)
        (disk a) (shown a) v.

(** Read a field of [self].  Every [self] a handler is given is an
    object of the heap; the other branch is never taken. *)
Definition self_get {A} (self : nat) (field : Editor -> A) : M app A :=
  fun a => match heap a !! self with
           | Some e => (inr (field e), a)
           | None => (inl AttributeError, a)
           end.

(** Mutate [self] in place. *)
Definition self_upd (self : nat) (f : Editor -> Editor) : M app unit :=
  modify (fun a => set_heap (alter f self (heap a)) a).

(** [messagebox.showerror(caption, body)] *)
Definition showerror (caption body : string) : M app unit :=
  modify (fun a => set_shown (shown a ++ [ShowError caption body]) a).

(** ** Settings *)

Definition SETTINGS_FILE : string := "landtext_settings.json".

Definition THEMES_literal : dict :=
  [ ("Light", JObj [ ("bg", JStr "white"); ("fg", JStr "black");
                     ("insertbackground", JStr "black");
                     ("selectbackground", JStr "lightblue");
                     ("selectforeground", JStr "black");
                     ("status_bg", JStr "lightgray");
                     ("status_fg", JStr "black") ]);
    ("Dark", JObj [ ("bg", JStr "#1e1e1e"); ("fg", JStr "#d4d4d4");
                    ("insertbackground", JStr "white");
                    ("selectbackground", JStr "#264f78");
                    ("selectforeground", JStr "white");
                    ("status_bg", JStr "#2d2d2d");
                    ("status_fg", JStr "white") ]);
    ("Custom", JObj [ ("bg", JStr "white"); ("fg", JStr "black");
                      ("insertbackground", JStr "black");
                      ("selectbackground", JStr "lightblue");
                      ("selectforeground", JStr "black");
                      ("status_bg", JStr "lightgray");
                      ("status_fg", JStr "black") ]) ].

(** [os.path.exists(SETTINGS_FILE)] *)
Definition settings_exists (w : world) : bool :=
  match settings w with SAbsent => false | _ => true end.

(** [json.load(open(SETTINGS_FILE, 'r'))] *)
Definition json_load : M app json :=
  fun a => match settings (disk a) with
           | SJson j => (inr j, a)
           | SGarbled => (inl ValueError, a)
           | SAbsent => (inl (no_such_file SETTINGS_FILE), a)
           end.

(** [json.dump(j, open(SETTINGS_FILE, 'w'), indent=4)] *)
Definition json_dump (j : json) : M app unit :=
  fun a =>
    if settings_denied (disk a)
    then (inl (permission_denied SETTINGS_FILE), a)
    else (inr tt,
          set_disk (World (documents (disk a)) (denied (disk a)) (SJson j)
                          (settings_denied (disk a)) (os (disk a))) a).

Definition load_settings : M app json :=
  present <- gets (fun a => settings_exists (disk a));;
  if present then
    try_except
      (settings <- json_load;;
       has_custom <- lift (py_contains "custom_theme" settings);;
       (if has_custom
        then custom <- lift (py_getitem settings "custom_theme");;
             modify (fun a => set_THEMES (dict_set "Custom" custom (THEMES a)) a)
        else ret tt);;
       size <- lift (py_get settings "font_size" (JNum 12));;
       modify (set_current_font_size size);;
       lift (py_get settings "current_theme" (JStr "Light")))
      (fun _ => ret (JStr "Light"))
  else ret (JStr "Light").

Definition save_settings (theme_name : json) : M app unit :=
  themes <- gets THEMES;;
  custom <- lift (py_getitem (JObj themes) "Custom");;
  size <- gets current_font_size;;
  json_dump (JObj [ ("current_theme", theme_name);
                    ("custom_theme", custom);
                    ("font_size", size) ]).

(** The seven colour fields every theme is read with. *)
Definition theme_fields : list string :=
  [ "bg"; "fg"; "insertbackground"; "selectbackground"; "selectforeground";
    "status_bg"; "status_fg" ].

Definition complete_theme (theme : json) : bool :=
  match theme with
  | JObj d => forallb (fun k => bool_decide (is_Some (dict_get k d))) theme_fields
  | _ => false
  end.

(** The globals as the module body leaves them before [load_settings]
    runs: no editor yet, and [current_theme] not yet bound. *)
Definition fresh_process (w : world) : app :=
  MkApp THEMES_literal (JNum 12) JNull [] ∅ w [] false.

(** ** Editor methods *)

(** [THEMES[theme_name]]: every key of [THEMES] is a string; lists and
    dicts cannot be hashed. *)
Definition themes_lookup (themes : dict) (theme_name : json) : exn + json :=
  match theme_name with
  | JStr s => match dict_get s themes with Some v => inr v | None => inl KeyError end
  | JArr _ | JObj _ => inl TypeError
  | JNull | JBool _ | JNum _ => inl KeyError
  end.

Definition text_config (kw : dict) (t : Text) : Text :=
  MkText (cells t) (insert_mark t) (config kw (text_options t))
         (found_options t) (seen t) (focused t).

Definition label_config (kw : dict) (l : Label) : Label :=
  MkLabel (config kw (label_options l)).

(** A widget of a destroyed window no longer exists: configuring it
    raises [TclError].  Only the broadcasts can reach such a widget; the
    other handlers are run by events of a window that is on screen. *)
Definition widget (self : nat) : M app unit :=
  w <- self_get self window;;
  match wm w with
  | Destroyed => raise TclError
  | _ => ret tt
  end.

(** [config] of the text area and of the status bar with the keyword
    arguments [kw], on the object. *)
Definition restyle_text (kw : dict) (e : Editor) : Editor :=
  set_text_area (text_config kw (text_area e)) e.

Definition restyle_status (kw : dict) (e : Editor) : Editor :=
  set_status_bar (label_config kw (status_bar e)) e.

(** The keyword arguments of a [config] call are all evaluated before
    the call, so a missing colour raises before the widget changes. *)
Definition apply_theme (self : nat) (theme_name : json) : M app unit :=
  themes <- gets THEMES;;
  theme <- lift (themes_lookup themes theme_name);;
  bg <- lift (py_getitem theme "bg");;
  fg <- lift (py_getitem theme "fg");;
  insertbackground <- lift (py_getitem theme "insertbackground");;
  selectbackground <- lift (py_getitem theme "selectbackground");;
  selectforeground <- lift (py_getitem theme "selectforeground");;
  widget self;;
  self_upd self (restyle_text [ ("bg", bg); ("fg", fg);
                                ("insertbackground", insertbackground);
                                ("selectbackground", selectbackground);
                                ("selectforeground", selectforeground) ]);;
  status_bg <- lift (py_getitem theme "status_bg");;
  status_fg <- lift (py_getitem theme "status_fg");;
  widget self;;
  self_upd self (restyle_status [ ("bg", status_bg); ("fg", status_fg) ]).

Definition apply_font_size (self : nat) (size : json) : M app unit :=
  widget self;;
  self_upd self (restyle_text [ ("font", JArr [JStr "Consolas"; size]) ]).

Definition occurs (sep : ascii) (s : string) : bool :=
  existsb (Ascii.eqb sep) (list_ascii_of_string s).

(** [s.split(sep)[-1]] *)
Fixpoint last_segment (sep : ascii) (s : string) : string :=
  match s with
  | EmptyString => EmptyString
  | String c rest =>
      if occurs sep rest then last_segment sep rest
      else if Ascii.eqb c sep then rest else s
  end.

(** Truth value of [self.current_file["path"]] and of a chosen file
    name: [None] and the empty string are false. *)
Definition truthy (s : string) : bool :=
  match s with EmptyString => false | _ => true end.

(** The title [update_title] computes from [self.current_file]. *)
Definition title_of (doc : DocId) : string :=
  let title :=
    match path doc with
    | Some p =>
        if truthy p
        then "LandText - " +:+ last_segment "\"%char (last_segment "/"%char p)
        else "LandText"
    | None => "LandText"
    end in
  if modified doc then title +:+ " *" else title.

Definition update_title (self : nat) : M app unit :=
  doc <- self_get self current_file;;
  self_upd self (fun e =>
    set_window (MkWindow (pathname (window e)) (title_of doc) (wm (window e))) e).

Definition set_path (p : option string) (e : Editor) : Editor :=
  set_current_file (MkDocId p (modified (current_file e))) e.

Definition set_modified (b : bool) (e : Editor) : Editor :=
  set_current_file (MkDocId (path (current_file e)) b) e.

Definition mark_modified (self : nat) : M app unit :=
  doc <- self_get self current_file;;
  if negb (modified doc)
  then self_upd self (set_modified true);; update_title self
  else ret tt.

Definition _do_new_file (self : nat) : M app unit :=
  self_upd self (fun e => set_text_area (text_delete_all (text_area e)) e);;
  self_upd self (set_path None);;
  self_upd self (set_modified false);;
  update_title self.

(** [filename] is what the file chooser returned: the empty string
    when the user cancelled. *)
Definition open_file (self : nat) (filename : string) : M app unit :=
  if truthy filename then
    try_except
      (content <- (fun a => lift (fs_read (disk a) filename) a);;
       self_upd self (fun e => set_text_area (text_delete_all (text_area e)) e);;
       self_upd self (fun e => set_text_area (text_insert_start content (text_area e)) e);;
       self_upd self (set_path (Some filename));;
       self_upd self (set_modified false);;
       update_title self)
      (fun e => showerror "Open Error" (exn_str e))
  else ret tt.

(** [with open(p, "w", encoding="utf-8") as f: f.write(content)] *)
Definition write_file (p content : string) : M app unit :=
  fun a => match fs_write (disk a) p content with
           | inr w => (inr tt, set_disk w a)
           | inl e => (inl e, a)
           end.

Definition save_as_file (self : nat) (filename : string) : M app unit :=
  if truthy filename then
    try_except
      (t <- self_get self text_area;;
       let content := text_get_all t in
       write_file filename content;;
       self_upd self (set_path (Some filename));;
       self_upd self (set_modified false);;
       update_title self)
      (fun e => showerror "Save Error" (exn_str e))
  else ret tt.

(** [filename] is the answer to the Save-As chooser, asked for only
    when the document has no path. *)
Definition save_file (self : nat) (filename : string) : M app unit :=
  doc <- self_get self current_file;;
  match path doc with
  | Some p =>
      if truthy p then
        try_except
          (t <- self_get self text_area;;
           let content := text_get_all t in
           write_file p content;;
           self_upd self (set_modified false);;
           update_title self)
          (fun e => showerror "Save Error" (exn_str e))
      else save_as_file self filename
  | None => save_as_file self filename
  end.

(** *** The unsaved-changes dialog *)

(** [show_unsaved_dialog(self, on_discard)]: the parameter and the
    nested [def on_discard()] are one local name.  The parameter binds
    it first, the [def] rebinds it, and the "Don't Save" button is given
    whatever it holds when the button is built. *)
Definition show_unsaved_dialog (self : nat) (on_discard : option callable)
  : M app unit :=
  let cell := on_discard in
  let on_save := Some Nested_on_save in
  let cell := Some Nested_on_discard in
  self_upd self (set_unsaved_dialog (Some (MkDialog cell on_save cell true))).

(** [dialog.destroy()] *)
Definition dialog_destroy (self : nat) : M app unit :=
  self_upd self (fun e =>
    set_unsaved_dialog
      (option_map (fun d => MkDialog (on_discard_cell d) (save_command d)
                                     (dont_save_command d) false)
                  (unsaved_dialog e)) e).

(** Calling a callable.  [depth] is the number of Python frames still
    available before the interpreter raises [RecursionError]; [cell] is
    the local name [on_discard] that the nested functions close over;
    [filename] answers a Save-As chooser should [save_file] ask. *)
Fixpoint call (depth : nat) (self : nat) (cell : option callable)
    (filename : string) (f : callable) : M app unit :=
  match depth with
  | 0 => raise RecursionError
  | S depth' =>
      match f with
      | Lambda_do_new_file => _do_new_file self
      | Nested_on_save =>
          dialog_destroy self;;
          save_file self filename;;
          match cell with
          | Some on_discard => call depth' self cell filename on_discard
          | None => ret tt
          end
      | Nested_on_discard =>
          dialog_destroy self;;
          match cell with
          | Some on_discard => call depth' self cell filename on_discard
          | None => ret tt
          end
      end
  end.

(** Pressing one of the dialog's two buttons. *)
Inductive button : Type := SaveButton | DontSaveButton.

Definition press (depth : nat) (self : nat) (b : button) (filename : string)
  : M app unit :=
  dlg <- self_get self unsaved_dialog;;
  match dlg with
  | Some d =>
      let command := match b with
                     | SaveButton => save_command d
                     | DontSaveButton => dont_save_command d
                     end in
      match dialog_open d, command with
      | true, Some f => call depth self (on_discard_cell d) filename f
      | _, _ => ret tt
      end
  | None => ret tt
  end.

Definition new_file (self : nat) : M app unit :=
  doc <- self_get self current_file;;
  if modified doc
  then show_unsaved_dialog self (Some Lambda_do_new_file)
  else _do_new_file self.

(** *** Key presses and pastes *)

(** The editor's own binding runs first, then the widget's. *)
Definition on_key (self : nat) (k : key) : M app unit :=
  mark_modified self;;
  self_upd self (fun e => set_text_area (text_key k (text_area e)) e).

Definition on_paste (self : nat) (clip : string) : M app unit :=
  mark_modified self;;
  self_upd self (fun e => set_text_area (text_paste clip (text_area e)) e).

(** *** Find *)

(** The [while True] loop of [do_find].  [fuel] bounds the number of
    iterations; [None] means the bound was reached before the loop
    broke.  The result carries [first_match], the ranges given to
    [tag_add] in order, and the widget. *)
Fixpoint find_loop (fuel : nat) (search_term : string) (idx : nat)
    (first_match : option nat) (t : Text)
  : option (option nat * list (nat * nat) * Text) :=
  match fuel with
  | 0 => None
  | S fuel' =>
      match text_search search_term idx t with
      | None => Some (first_match, [], t)
      | Some idx =>
          let first_match :=
            match first_match with None => Some idx | Some _ => first_match end in
          let lastidx := idx + String.length search_term in
          let t := tag_add idx lastidx t in
          match find_loop fuel' search_term lastidx first_match t with
          | Some (fm, ranges, t') => Some (fm, (idx, lastidx) :: ranges, t')
          | None => None
          end
      end
  end.

(** [do_find] on the widget.  The Python function returns nothing; the
    ranges it tagged are returned here so that they can be spoken of.
    [None] is a loop cut off. *)
Definition find_all (search_term : string) (t : Text)
  : option (list (nat * nat) * Text) :=
  let t := tag_remove_all t in
  if truthy search_term then
    match find_loop (S (length (cells t))) search_term 0 None t with
    | Some (first_match, ranges, t) =>
        let t := tag_config [ ("background", JStr "yellow") ] t in
        Some (ranges,
              match first_match with
              | Some i => focus (see i t)
              | None => t
              end)
    | None => None
    end
  else Some ([], t).

(** [do_find] as the handler of the Find dialog. *)
Definition do_find (self : nat) (search_term : string) : M app (list (nat * nat)) :=
  t <- self_get self text_area;;
  match find_all search_term t with
  | Some (ranges, t') =>
      self_upd self (set_text_area t');;
      ret ranges
  | None => raise Unfinished
  end.

(** ** The status bar *)

(** [s.split(sep)] for a separator of one character. *)
Fixpoint py_split (sep : ascii) (s : string) : list string :=
  match s with
  | EmptyString => [EmptyString]
  | String c rest =>
      if Ascii.eqb c sep then EmptyString :: py_split sep rest
      else match py_split sep rest with
           | part :: parts => String c part :: parts
           | [] => [String c EmptyString]
           end
  end.

(** Line and column of the position that follows the characters [cs],
    starting from line [line], column [column]. *)
Fixpoint line_column (cs : list ascii) (line column : nat) : nat * nat :=
  match cs with
  | [] => (line, column)
  | c :: cs' =>
      if Ascii.eqb c "010" then line_column cs' (S line) 0
      else line_column cs' line (S column)
  end.

(** The position of the cursor: lines are counted from 1, columns
    from 0. *)
Definition cursor (t : Text) : nat * nat :=
  line_column (take (insert_mark t) (map fst (cells t))) 1 0.

(** [t.index(tk.INSERT)]: the toolkit writes the position as
    [line.column], both in decimal. *)
Definition text_index_insert (t : Text) : string :=
  pretty (cursor t).1 +:+ "." +:+ pretty (cursor t).2.

(** [line, column = ...split('.')] raises [ValueError] unless the split
    gives exactly two parts. *)
Definition update_status (self : nat) : M app unit :=
  t <- self_get self text_area;;
  match py_split "." (text_index_insert t) with
  | [line; column] =>
      self_upd self
        (restyle_status [ ("text", JStr ("Line: " +:+ line +:+ ", Column: " +:+ column)) ])
  | _ => raise ValueError
  end.

(** ** Windows: construction, broadcast, close *)

(** [for x in xs: body(x)] *)
Fixpoint for_each {S A} (xs : list A) (body : A -> M S unit) : M S unit :=
  match xs with
  | [] => ret tt
  | x :: xs' => body x;; for_each xs' body
  end.

(** The status bar and the text area as [_create_widgets] builds them.
    The scrollbars are not modelled, and so neither are the two scroll
    commands of the text area; [text_area.focus()] ends the method. *)
Definition new_status_bar : Label :=
  MkLabel [ ("text", JStr "Line: 1, Column: 0"); ("bd", JNum 1);
            ("relief", JStr "sunken"); ("anchor", JStr "w") ].

Definition new_text_area (size : json) : Text :=
  MkText [] 0
         [ ("wrap", JStr "none"); ("width", JNum 80); ("height", JNum 35);
           ("font", JArr [JStr "Consolas"; size]);
           ("undo", JBool true); ("maxundo", JNum (-1)) ]
         [] None true.

(** [Editor(parent, is_root)]: the new object's identity is any key
    the heap does not use yet.  The root editor takes the window
    [parent] for its own; any other editor gets a new top-level window
    created under [parent].  Of [_setup_bindings] the call of
    [update_status] is what changes the state. *)
Definition Editor_init (parent : list nat) (is_root : bool) : M app nat :=
  self <- gets (fun a => fresh (dom (heap a)));;
  size <- gets current_font_size;;
  let window := MkWindow (if is_root then parent else parent ++ [self])
                         "LandText" Shown in
  modify (fun a => set_heap
    (<[self := MkEditor is_root (MkDocId None false) window
                        (new_text_area size) new_status_bar None]> (heap a)) a);;
  modify (fun a => set_all_editors (all_editors a ++ [self]) a);;
  update_status self;;
  theme <- gets current_theme;;
  apply_theme self theme;;
  size <- gets current_font_size;;
  apply_font_size self size;;
  ret self.

(** [all_editors.remove(x)]: drops the first occurrence, [None] when
    there is none ([ValueError]). *)
Fixpoint list_remove (x : nat) (l : list nat) : option (list nat) :=
  match l with
  | [] => None
  | y :: l' =>
      if Nat.eqb x y then Some l'
      else match list_remove x l' with
           | Some r => Some (y :: r)
           | None => None
           end
  end.

Definition set_wm (s : wstate) (e : Editor) : Editor :=
  set_window (MkWindow (pathname (window e)) (title (window e)) s) e.

(** [w.destroy()] for the window at [p]: it goes, and so does every
    window created under it. *)
Definition destroy (p : list nat) : M app unit :=
  modify (fun a =>
    set_heap ((fun e => if under p (pathname (window e))
                        then set_wm Destroyed e else e) <$> heap a) a).

(** [quit()] on the root window or on [tk._default_root]: the main loop
    returns and the process ends. *)
Definition quit : M app unit := modify (set_mainloop_quit true).

Definition is_nil {A} (l : list A) : bool :=
  match l with [] => true | _ => false end.

Definition on_close (self : nat) : M app unit :=
  eds <- gets all_editors;;
  match list_remove self eds with
  | None => raise ValueError
  | Some eds' =>
      modify (set_all_editors eds');;
      root <- self_get self is_root;;
      if root then
        self_upd self (set_wm Withdrawn);;
        eds <- gets all_editors;;
        if is_nil eds then quit else ret tt
      else
        w <- self_get self window;;
        destroy (pathname w);;
        eds <- gets all_editors;;
        if is_nil eds then quit else ret tt
  end.

Module open_theme_settings.
(** The "Apply Theme" button; [selected] is [theme_var.get()]. *)
Definition apply_theme (selected : string) : M app unit :=
  modify (set_current_theme (JStr selected));;
  theme <- gets current_theme;;
  save_settings theme;;
  eds <- gets all_editors;;
  theme <- gets current_theme;;
  for_each eds (fun editor => apply_theme editor theme).
End open_theme_settings.

Module open_font_size_settings.
(** The "Apply" button; [size] is [size_var.get()]. *)
Definition apply_font_size (size : Z) : M app unit :=
  modify (set_current_font_size (JNum size));;
  theme <- gets current_theme;;
  save_settings theme;;
  eds <- gets all_editors;;
  size <- gets current_font_size;;
  for_each eds (fun editor => apply_font_size editor size).
End open_font_size_settings.

(** Module body and [main()]: settings are loaded, then the root
    editor is built on the toolkit's root window. *)
Definition main : M app nat :=
  theme <- load_settings;;
  modify (set_current_theme theme);;
  Editor_init [] true.

(** ** The event loop *)

(** The actions that add, remove or restyle windows: the "Apply"
    buttons of the two settings dialogs, "Open New Window" in the menu of
    a window, and the close button of a window. *)
Inductive event : Type :=
| ApplyTheme (selected : string)
| ApplyFontSize (size : Z)
| OpenNewWindow (self : nat)
| CloseWindow (self : nat).

(** A menu or a close button can be used only while its window is on
    screen. *)
Definition on_screen (self : nat) (handler : Window -> M app unit) : M app unit :=
  w <- self_get self window;;
  match wm w with
  | Shown => handler w
  | _ => ret tt
  end.

Definition handle (ev : event) : M app unit :=
  match ev with
  | ApplyTheme selected => open_theme_settings.apply_theme selected
  | ApplyFontSize size => open_font_size_settings.apply_font_size size
  | OpenNewWindow self =>
      on_screen self (fun w => _ <- Editor_init (pathname w) false;; ret tt)
  | CloseWindow self => on_screen self (fun _ => on_close self)
  end.

(** The event loop: a handler that raises is reported and the loop
    goes on with the state the handler left. *)
Definition run (evs : list event) (a : app) : app :=
  foldl (fun s ev => exec (handle ev) s) a evs.

(** * Vocabulary of the statements *)

(** ** The effect of a handler on the object it runs on *)

(** The state in which [self] is the object [e] and all else is as in
    [a]. *)
Definition put (self : nat) (e : Editor) (a : app) : app :=
  set_heap (<[self := e]> (heap a)) a.

(** [update_title] on the object. *)
Definition retitle (e : Editor) : Editor :=
  set_window (MkWindow (pathname (window e)) (title_of (current_file e))
                       (wm (window e))) e.

(** [mark_modified] on the object. *)
Definition dirtied (e : Editor) : Editor :=
  if modified (current_file e) then e else retitle (set_modified true e).

(** [_do_new_file] on the object. *)
Definition cleared (e : Editor) : Editor :=
  retitle (set_modified false (set_path None
    (set_text_area (text_delete_all (text_area e)) e))).

(** A successful [open_file] on the object. *)
Definition opened (filename content : string) (e : Editor) : Editor :=
  retitle (set_modified false (set_path (Some filename)
    (set_text_area (text_insert_start content (text_delete_all (text_area e))) e))).

(** A successful [save_as_file] to [p] on the object. *)
Definition saved (p : string) (e : Editor) : Editor :=
  retitle (set_modified false (set_path (Some p) e)).

(** A successful [save_file] to the document's own path, on the object. *)
Definition resaved (e : Editor) : Editor :=
  retitle (set_modified false e).

(** [dialog.destroy()] on the object. *)
Definition dialog_closed (e : Editor) : Editor :=
  set_unsaved_dialog
    (option_map (fun d => MkDialog (on_discard_cell d) (save_command d)
                                   (dont_save_command d) false)
                (unsaved_dialog e)) e.

(** [show_unsaved_dialog] on the object. *)
Definition asking (e : Editor) : Editor :=
  set_unsaved_dialog
    (Some (MkDialog (Some Nested_on_discard) (Some Nested_on_save)
                    (Some Nested_on_discard) true)) e.

(** [destroy] at [p] on an object. *)
Definition gone (p : list nat) (e : Editor) : Editor :=
  if under p (pathname (window e)) then set_wm Destroyed e else e.

(** [on_close] of the object [e] at [self], on the object [ey] at
    [y]. *)
Definition after_close (self : nat) (e : Editor) (y : nat) (ey : Editor) : Editor :=
  if is_root e
  then (if bool_decide (y = self) then set_wm Withdrawn e else ey)
  else gone (pathname (window e)) ey.

(** The heap after [on_close] of the object [e] at [self]: a root
    window is withdrawn; any other window is destroyed together with the
    windows created under it. *)
Definition closed_heap (self : nat) (e : Editor) (h : gmap nat Editor)
  : gmap nat Editor :=
  if is_root e then <[self := set_wm Withdrawn e]> h
  else gone (pathname (window e)) <$> h.

(** [f] leaves the identity and the window of an object alone. *)
Definition styling (f : Editor -> Editor) : Prop :=
  forall e, is_root (f e) = is_root e /\ window (f e) = window e.

(** [apply_font_size] on the object. *)
Definition resized (size : json) (e : Editor) : Editor :=
  restyle_text [ ("font", JArr [JStr "Consolas"; size]) ] e.

(** [save] is a Save of the buffer of [e] to the path [p]: Save-As
    with [p] chosen, or Save on a document whose path is [p], or Save on
    a document without a path with [p] chosen. *)
Definition saves_to (self : nat) (e : Editor) (p : string) (save : M app unit)
  : Prop :=
  save = save_as_file self p \/
  (save = save_file self p /\
   (path (current_file e) = Some p \/ path (current_file e) = None)).

(** ** Occurrences and ranges *)

(** The characters of a widget, tags forgotten. *)
Definition chars (t : Text) : list ascii := map fst (cells t).

(** The test the search makes at offset [p] of [buf]. *)
Definition occurs_at (q buf : list ascii) (p : nat) : bool :=
  prefix_nocase q (drop p buf).






(** Offset [k] lies in one of the ranges. *)
Definition covered (k : nat) (ranges : list (nat * nat)) : bool :=
  existsb (fun r => Nat.leb r.1 k && Nat.ltb k r.2) ranges.

(** Ranges in increasing order, none empty, each starting no earlier
    than [from] and no earlier than the end of the one before. *)
Fixpoint separated (from : nat) (ranges : list (nat * nat)) : Prop :=
  match ranges with
  | [] => True
  | (s, e) :: rest => from <= s /\ s < e /\ separated e rest
  end.

(** ** Invariants of the event loop *)

(** A handler keeps [P] if [P] survives it however it ends. *)
Definition keeps {A} (P : app -> Prop) (m : M app A) : Prop :=
  forall s, P s -> P (snd (m s)).

(** The registry names each window once and names objects only, and
    the root editors are those whose window is the toolkit's root
    window. *)
Definition well_formed (s : app) : Prop :=
  NoDup (all_editors s) /\
  (forall x, x ∈ all_editors s -> is_Some (heap s !! x)) /\
  (forall x e, heap s !! x = Some e ->
               (is_root e = true <-> pathname (window e) = [])).

(** [root] is out of the registry and is the object [e]. *)
Definition retired (root : nat) (e : Editor) (s : app) : Prop :=
  (root ∉ all_editors s) /\ heap s !! root = Some e.

(** The registry is well formed, and [root] is out of it and is the
    object [e]. *)
Definition settled (root : nat) (e : Editor) (s : app) : Prop :=
  well_formed s /\ retired root e s.

(** The window of [e] exists: it has not been destroyed. *)
Definition exists_window (e : Editor) : Prop := wm (window e) <> Destroyed.

(** ** Sample states *)

(** Dark theme, font size 18 and a custom theme of one's own, nothing
    saved yet. *)
Definition dark_18 : app :=
  set_current_theme (JStr "Dark")
    (set_current_font_size (JNum 18)
       (set_THEMES (dict_set "Custom" (JObj [("bg", JStr "#102030")]) THEMES_literal)
          (fresh_process (World ∅ [] SAbsent false Posix)))).

(** A settings file whose custom theme names one colour only. *)
Definition partial_settings : world :=
  World ∅ [] (SJson (JObj [ ("current_theme", JStr "Custom");
                            ("custom_theme", JObj [("bg", JStr "red")]) ])) false Posix.

(** A disk on which [/etc/motd] cannot be written and nothing else
    exists, and one on which that file can be read. *)
Definition locked_disk : world := World ∅ ["/etc/motd"] SAbsent false Posix.

Definition motd_disk : world :=
  World {[ "/etc/motd" := "hello" ]} ["/etc/motd"] SAbsent false Posix.

(** A root window holding the unsaved text [xy]. *)
Definition typing_xy : Editor :=
  MkEditor true (MkDocId None true) (MkWindow [] "LandText *" Shown)
           (MkText (plain "xy") 2 [] [] None true) (MkLabel []) None.

(** A root window just opened, and a further window at [p]: empty,
    unmodified. *)
Definition untouched : Editor :=
  MkEditor true (MkDocId None false) (MkWindow [] "LandText" Shown)
           (MkText [] 0 [] [] None true) (MkLabel []) None.

Definition child_window (p : list nat) : Editor :=
  MkEditor false (MkDocId None false) (MkWindow p "LandText" Shown)
           (MkText [] 0 [] [] None true) (MkLabel []) None.

(** The process with the root window [e] alone, and with the root
    window, a window opened from it and a window opened from that one. *)
Definition one_window (e : Editor) (w : world) : app :=
  MkApp THEMES_literal (JNum 12) (JStr "Light") [0] {[ 0 := e ]} w [] false.

Definition three_windows : app :=
  MkApp THEMES_literal (JNum 12) (JStr "Light") [0; 1; 2]
        {[ 0 := untouched; 1 := child_window [1]; 2 := child_window [1; 2] ]}
        locked_disk [] false.

(** * The rest of the editor *)

(** What the text widget itself does with a click at offset [i]: the
    cursor goes there. *)
Definition text_click (i : nat) (t : Text) : Text :=
  MkText (cells t) (Nat.min i (length (cells t))) (text_options t)
         (found_options t) (seen t) (focused t).

(** ** What reaches one window *)

(** The menu entries, keys, mouse buttons and dialog buttons of one
    window that run the editor's code, each with what the user chose:
    the answer of a file chooser, the key, the pasted text, the place
    clicked, the query. *)
Inductive doc_event : Type :=
| FileNew
| FileOpen (filename : string)
| FileSave (filename : string)
| FileSaveAs (filename : string)
| DialogButton (b : button) (filename : string)
| KeyPress (k : key)
| PasteText (clip : string)
| KeyRelease
| ButtonPress (i : nat)
| ButtonRelease
| FindAll (search_term : string).

(** A dialog of a window can be used for as long as the window has
    not been destroyed. *)
Definition while_exists (self : nat) (handler : M app unit) : M app unit :=
  w <- self_get self window;;
  match wm w with
  | Destroyed => ret tt
  | _ => handler
  end.

(** The bindings of [_create_menus] and [_setup_bindings], and the
    buttons of the two dialogs of a window.  A grab held by a dialog is
    not modelled: more sequences of events are covered than the toolkit
    lets through. *)
Definition interact (depth : nat) (self : nat) (ev : doc_event) : M app unit :=
  match ev with
  | FileNew => on_screen self (fun _ => new_file self)
  | FileOpen filename => on_screen self (fun _ => open_file self filename)
  | FileSave filename => on_screen self (fun _ => save_file self filename)
  | FileSaveAs filename => on_screen self (fun _ => save_as_file self filename)
  | DialogButton b filename => while_exists self (press depth self b filename)
  | KeyPress k => on_screen self (fun _ => on_key self k)
  | PasteText clip => on_screen self (fun _ => on_paste self clip)
  | KeyRelease => on_screen self (fun _ => update_status self)
  | ButtonPress i =>
      on_screen self (fun _ =>
        self_upd self (fun e => set_text_area (text_click i (text_area e)) e))
  | ButtonRelease => on_screen self (fun _ => update_status self)
  | FindAll search_term =>
      while_exists self (_ <- do_find self search_term;; ret tt)
  end.

(** Everything the user can do: an event of one window, or one of the
    actions on the windows themselves. *)
Inductive activity : Type :=
| InWindow (self : nat) (ev : doc_event)
| Windows (ev : event).

Definition perform (depth : nat) (act : activity) : M app unit :=
  match act with
  | InWindow self ev => interact depth self ev
  | Windows ev => handle ev
  end.

(** The event loop over all of them; [depth] is the interpreter's
    recursion limit. *)
Definition run_all (depth : nat) (acts : list activity) (a : app) : app :=
  foldl (fun s act => exec (perform depth act) s) a acts.

(** ** The settings dialogs *)

(** The rows of "Custom Theme Colors", in the order [pick_color] is
    called for them. *)
Inductive color_row : Type :=
| Background
| TextColor
| SelectionBackground
| SelectionText
| StatusBarBG
| StatusBarText.

Definition color_key (row : color_row) : string :=
  match row with
  | Background => "bg"
  | TextColor => "fg"
  | SelectionBackground => "selectbackground"
  | SelectionText => "selectforeground"
  | StatusBarBG => "status_bg"
  | StatusBarText => "status_fg"
  end.

Definition color_rows : list color_row :=
  [ Background; TextColor; SelectionBackground; SelectionText;
    StatusBarBG; StatusBarText ].

(** The radio buttons of the theme dialog. *)
Definition radio_values : list string := [ "Light"; "Dark"; "Custom" ].

(** A theme dialog: the editor whose window it was created under,
    whether [destroy] was called on it, the value of [theme_var], the
    rows whose "Choose Color" button is built, the dict [preview_labels]
    (colour key to the background of the preview label), and whether the
    three buttons at the bottom are built. *)
Record ThemeDialog : Type := MkThemeDialog {
  theme_master : nat;
  theme_destroyed : bool;
  theme_var : json;
  choose_buttons : list color_row;
  preview_labels : dict;
  theme_buttons : bool
}.

Record FontDialog : Type := MkFontDialog {
  font_master : nat;
  font_destroyed : bool
}.

Inductive notice : Type :=
| ShowInfo (caption body : string).

(** The process together with the two globals [theme_dialog_ref] and
    [font_dialog_ref], the dialog objects by identity, and the
    information boxes shown. *)
Record desk : Type := MkDesk {
  process : app;
  theme_dialog_ref : option nat;
  font_dialog_ref : option nat;
  theme_dialogs : gmap nat ThemeDialog;
  font_dialogs : gmap nat FontDialog;
  noticed : list notice
}.

Definition set_process (v : app) (d : desk) : desk :=
  MkDesk v (theme_dialog_ref d) (font_dialog_ref d) (theme_dialogs d)
         (font_dialogs d) (noticed d).
Definition set_theme_dialog_ref (v : option nat) (d : desk) : desk :=
  MkDesk (process d) v (font_dialog_ref d) (theme_dialogs d)
         (font_dialogs d) (noticed d).
Definition set_font_dialog_ref (v : option nat) (d : desk) : desk :=
  MkDesk (process d) (theme_dialog_ref d) v (theme_dialogs d)
         (font_dialogs d) (noticed d).
Definition set_theme_dialogs (v : gmap nat ThemeDialog) (d : desk) : desk :=
  MkDesk (process d) (theme_dialog_ref d) (font_dialog_ref d) v
         (font_dialogs d) (noticed d).
Definition set_font_dialogs (v : gmap nat FontDialog) (d : desk) : desk :=
  MkDesk (process d) (theme_dialog_ref d) (font_dialog_ref d) (theme_dialogs d)
         v (noticed d).
Definition set_noticed (v : list notice) (d : desk) : desk :=
  MkDesk (process d) (theme_dialog_ref d) (font_dialog_ref d) (theme_dialogs d)
         (font_dialogs d) v.

(** A handler of the process, run at the desk. *)
Definition in_process {A} (m : M app A) : M desk A :=
  fun d => let (r, a) := m (process d) in (r, set_process a d).

(** The window of the editor [x] has not been destroyed. *)
Definition window_exists (a : app) (x : nat) : bool :=
  match heap a !! x with
  | Some e => match wm (window e) with Destroyed => false | _ => true end
  | None => false
  end.

(** [dialog.winfo_exists()]: a dialog is gone once [destroy] was
    called on it or on the window it was created under. *)
Definition theme_winfo_exists (i : nat) (d : desk) : bool :=
  match theme_dialogs d !! i with
  | Some t => negb (theme_destroyed t) && window_exists (process d) (theme_master t)
  | None => false
  end.

Definition font_winfo_exists (i : nat) (d : desk) : bool :=
  match font_dialogs d !! i with
  | Some t => negb (font_destroyed t) && window_exists (process d) (font_master t)
  | None => false
  end.

Definition theme_get (i : nat) : M desk ThemeDialog :=
  fun d => match theme_dialogs d !! i with
           | Some t => (inr t, d)
           | None => (inl AttributeError, d)
           end.

Definition theme_upd (i : nat) (f : ThemeDialog -> ThemeDialog) : M desk unit :=
  modify (fun d => set_theme_dialogs (alter f i (theme_dialogs d)) d).

Definition font_upd (i : nat) (f : FontDialog -> FontDialog) : M desk unit :=
  modify (fun d => set_font_dialogs (alter f i (font_dialogs d)) d).

Definition add_choose_button (row : color_row) (t : ThemeDialog) : ThemeDialog :=
  MkThemeDialog (theme_master t) (theme_destroyed t) (theme_var t)
                (choose_buttons t ++ [row]) (preview_labels t) (theme_buttons t).
Definition set_preview (k : string) (bg : json) (t : ThemeDialog) : ThemeDialog :=
  MkThemeDialog (theme_master t) (theme_destroyed t) (theme_var t)
                (choose_buttons t) (dict_set k bg (preview_labels t))
                (theme_buttons t).
Definition set_theme_var (v : json) (t : ThemeDialog) : ThemeDialog :=
  MkThemeDialog (theme_master t) (theme_destroyed t) v
                (choose_buttons t) (preview_labels t) (theme_buttons t).
Definition set_theme_buttons (t : ThemeDialog) : ThemeDialog :=
  MkThemeDialog (theme_master t) (theme_destroyed t) (theme_var t)
                (choose_buttons t) (preview_labels t) true.
Definition theme_destroy (t : ThemeDialog) : ThemeDialog :=
  MkThemeDialog (theme_master t) true (theme_var t)
                (choose_buttons t) (preview_labels t) (theme_buttons t).
Definition font_destroy (t : FontDialog) : FontDialog :=
  MkFontDialog (font_master t) true.

(** [pick_color(color_key, label_text)] while the dialog [i] is
    built: the row gets its "Choose Color" button, then its preview
    label, whose background is looked up in the custom theme. *)
Definition pick_color (i : nat) (row : color_row) : M desk unit :=
  theme_upd i (add_choose_button row);;
  themes <- gets (fun d => THEMES (process d));;
  custom <- lift (py_getitem (JObj themes) "Custom");;
  bg <- lift (py_getitem custom (color_key row));;
  theme_upd i (set_preview (color_key row) bg).

(** [open_theme_settings(self)], the "Theme" entry of the Settings
    menu.  The radio buttons are built before the rows, the three
    buttons at the bottom after them. *)
Definition open_theme_settings (self : nat) : M desk unit :=
  ref <- gets theme_dialog_ref;;
  alive <- gets (fun d => match ref with
                          | Some i => theme_winfo_exists i d
                          | None => false
                          end);;
  if alive then ret tt
  else
    i <- gets (fun d => fresh (dom (theme_dialogs d)));;
    theme <- gets (fun d => current_theme (process d));;
    modify (fun d => set_theme_dialogs
      (<[i := MkThemeDialog self false theme [] [] false]> (theme_dialogs d)) d);;
    modify (set_theme_dialog_ref (Some i));;
    for_each color_rows (pick_color i);;
    theme_upd i set_theme_buttons.

(** [pick()] of a row; [answer] is the second component of what the
    colour chooser returned, [None] when it was cancelled.  The initial
    colour is looked up before the chooser is shown. *)
Definition pick (i : nat) (row : color_row) (answer : option string) : M desk unit :=
  themes <- gets (fun d => THEMES (process d));;
  custom <- lift (py_getitem (JObj themes) "Custom");;
  _ <- lift (py_getitem custom (color_key row));;
  match answer with
  | Some color =>
      if truthy color then
        themes <- gets (fun d => THEMES (process d));;
        custom <- lift (py_getitem (JObj themes) "Custom");;
        match custom with
        | JObj c =>
            in_process (modify (set_THEMES
              (dict_set "Custom" (JObj (dict_set (color_key row) (JStr color) c))
                        themes)))
        | _ => raise TypeError
        end;;
        t <- theme_get i;;
        match dict_get (color_key row) (preview_labels t) with
        | Some _ => theme_upd i (set_preview (color_key row) (JStr color))
        | None => raise KeyError
        end;;
        theme_upd i (set_theme_var (JStr "Custom"))
      else ret tt
  | None => ret tt
  end.

(** [messagebox.showinfo(caption, body)] *)
Definition showinfo (caption body : string) : M desk unit :=
  modify (fun d => set_noticed (noticed d ++ [ShowInfo caption body]) d).

Definition save_custom_colors : M desk unit :=
  theme <- gets (fun d => current_theme (process d));;
  in_process (save_settings theme);;
  showinfo "Saved" "Custom theme colors saved!".

(** [theme_var.get()].  The variable holds a string whenever a dialog
    exists: it is set from [current_theme], which is a string once
    [main] has returned, from a radio button, or to ["Custom"]; the
    other branch is never taken. *)
Definition StringVar_get (v : json) : string :=
  match v with JStr s => s | _ => EmptyString end.

(** The "Apply Theme" button: the nested [apply_theme], which ends
    with [theme_dialog.destroy()]. *)
Definition theme_dialog_apply (i : nat) : M desk unit :=
  t <- theme_get i;;
  in_process (open_theme_settings.apply_theme (StringVar_get (theme_var t)));;
  theme_upd i theme_destroy.

(** [open_font_size_settings(self)], the "Font Size" entry of the
    Settings menu.  The slider and its preview label are not modelled:
    the size the slider shows when "Apply" is pressed is an argument of
    that handler. *)
Definition open_font_size_settings (self : nat) : M desk unit :=
  ref <- gets font_dialog_ref;;
  alive <- gets (fun d => match ref with
                          | Some i => font_winfo_exists i d
                          | None => false
                          end);;
  if alive then ret tt
  else
    i <- gets (fun d => fresh (dom (font_dialogs d)));;
    modify (fun d => set_font_dialogs
      (<[i := MkFontDialog self false]> (font_dialogs d)) d);;
    modify (set_font_dialog_ref (Some i)).

(** The "Apply" button of the font-size dialog: the nested
    [apply_font_size], which ends with [font_dialog.destroy()]. *)
Definition font_dialog_apply (i : nat) (size : Z) : M desk unit :=
  in_process (open_font_size_settings.apply_font_size size);;
  font_upd i font_destroy.

(** *** The events of the desk *)

Inductive desk_event : Type :=
| InEditor (self : nat) (ev : doc_event)
| NewWindow (self : nat)
| Close (self : nat)
| SettingsTheme (self : nat)
| SettingsFontSize (self : nat)
| RadioButton (i : nat) (value : string)
| ChooseColor (i : nat) (row : color_row) (answer : option string)
| SaveColors (i : nat)
| ApplyThemeButton (i : nat)
| DismissTheme (i : nat)
| ApplyFontButton (i : nat) (size : Z)
| DismissFont (i : nat).

(** A menu can be used while its window is on screen. *)
Definition from_menu (self : nat) (handler : M desk unit) : M desk unit :=
  a <- gets process;;
  match heap a !! self with
  | Some e => match wm (window e) with Shown => handler | _ => ret tt end
  | None => ret tt
  end.

(** A widget of the theme dialog [i] can be used while the dialog
    exists and the widget has been built. *)
Definition in_theme_dialog (i : nat) (built : ThemeDialog -> bool)
    (handler : M desk unit) : M desk unit :=
  alive <- gets (theme_winfo_exists i);;
  if alive then
    t <- theme_get i;;
    if built t then handler else ret tt
  else ret tt.

Definition in_font_dialog (i : nat) (handler : M desk unit) : M desk unit :=
  alive <- gets (font_winfo_exists i);;
  if alive then handler else ret tt.

Definition has_choose_button (row : color_row) (t : ThemeDialog) : bool :=
  existsb (fun r => String.eqb (color_key r) (color_key row)) (choose_buttons t).

(** Dismissing a dialog is its "Cancel" button or the close button
    of its window: both are [destroy]. *)
Definition desk_handle (depth : nat) (ev : desk_event) : M desk unit :=
  match ev with
  | InEditor self e => in_process (interact depth self e)
  | NewWindow self => in_process (handle (OpenNewWindow self))
  | Close self => in_process (handle (CloseWindow self))
  | SettingsTheme self => from_menu self (open_theme_settings self)
  | SettingsFontSize self => from_menu self (open_font_size_settings self)
  | RadioButton i value =>
      in_theme_dialog i (fun _ => existsb (String.eqb value) radio_values)
        (theme_upd i (set_theme_var (JStr value)))
  | ChooseColor i row answer =>
      in_theme_dialog i (has_choose_button row) (pick i row answer)
  | SaveColors i => in_theme_dialog i theme_buttons save_custom_colors
  | ApplyThemeButton i => in_theme_dialog i theme_buttons (theme_dialog_apply i)
  | DismissTheme i => in_theme_dialog i (fun _ => true) (theme_upd i theme_destroy)
  | ApplyFontButton i size => in_font_dialog i (font_dialog_apply i size)
  | DismissFont i => in_font_dialog i (font_upd i font_destroy)
  end.

Definition desk_run (depth : nat) (evs : list desk_event) (d : desk) : desk :=
  foldl (fun s ev => exec (desk_handle depth ev) s) d evs.

(** The desk when the main loop starts on the disk [w]. *)
Definition desk_start (w : world) : desk :=
  MkDesk (exec main (fresh_process w)) None None ∅ ∅ [].

(** ** Vocabulary of the further statements *)

(** The colour [theme[k]], when there is one. *)
Definition colour (theme : json) (k : string) : json :=
  match py_getitem theme k with inr v => v | inl _ => JNull end.

(** *** What the toolkit is known to accept *)

(** A font size the slider of the font-size dialog can give
    ([from_=8, to=32]). *)
Definition slider_size (n : Z) : Prop := (8 <= n <= 32)%Z.

Definition hex_digit (c : ascii) : bool :=
  let n := nat_of_ascii c in
  (Nat.leb 48 n && Nat.leb n 57) || (Nat.leb 65 n && Nat.leb n 70)
  || (Nat.leb 97 n && Nat.leb n 102).

(** A colour as the colour chooser returns it, [#rrggbb], or one of
    the names the built-in themes use. *)
Definition tk_colour (j : json) : bool :=
  match j with
  | JStr s =>
      match list_ascii_of_string s with
      | "#"%char :: digits => Nat.eqb (length digits) 6 && forallb hex_digit digits
      | _ => existsb (String.eqb s) ["white"; "black"; "lightblue"; "lightgray"]
      end
  | _ => false
  end.

(** A theme with all seven colours, each one a colour the toolkit is
    known to accept. *)
Definition paintable (theme : json) : bool :=
  complete_theme theme && forallb (fun k => tk_colour (colour theme k)) theme_fields.

(** [apply_theme] on the object, for a theme that has every colour. *)
Definition themed (theme : json) (e : Editor) : Editor :=
  restyle_status [ ("bg", colour theme "status_bg"); ("fg", colour theme "status_fg") ]
    (restyle_text [ ("bg", colour theme "bg"); ("fg", colour theme "fg");
                    ("insertbackground", colour theme "insertbackground");
                    ("selectbackground", colour theme "selectbackground");
                    ("selectforeground", colour theme "selectforeground") ] e).

(** [THEMES[current_theme]] as [load_settings] leaves the two when the
    process starts on the disk [w]. *)
Definition startup_theme (w : world) : exn + json :=
  match load_settings (fresh_process w) with
  | (inr name, a) => themes_lookup (THEMES a) name
  | (inl err, _) => inl err
  end.

(** The object [Editor(parent, is_root)] starts from, before the theme
    and the font size are applied. *)
Definition unstyled (parent : list nat) (is_root : bool) (self : nat) (size : json)
  : Editor :=
  MkEditor is_root (MkDocId None false)
           (MkWindow (if is_root then parent else parent ++ [self]) "LandText" Shown)
           (new_text_area size) new_status_bar None.

(** The state in which [Editor(parent, is_root)] applies the theme:
    the new object is on the heap and in the registry. *)
Definition constructed (parent : list nat) (is_root : bool) (a : app) : app :=
  let self := fresh (dom (heap a)) in
  set_all_editors (all_editors a ++ [self])
    (set_heap (<[self := unstyled parent is_root self (current_font_size a)]> (heap a)) a).

(** [a'] is [a] with at most the object at [x] changed. *)
Definition only_object (x : nat) (a a' : app) : Prop :=
  a' = set_heap (heap a') a /\ forall y, y <> x -> heap a' !! y = heap a !! y.

(** The title bar of [e] tells its document's name and state. *)
Definition in_sync (e : Editor) : Prop :=
  title (window e) = title_of (current_file e).

(** [e'] is what events of its own window can make of [e]: the same
    editor on the same window in the same state, with a title that is
    in sync if that of [e] was. *)
Definition edited (e e' : Editor) : Prop :=
  is_root e' = is_root e /\
  pathname (window e') = pathname (window e) /\
  wm (window e') = wm (window e) /\
  (in_sync e -> in_sync e').

(** [a'] is [a] but for the object at [self], which was edited, the
    documents on disk, and message boxes shown since. *)
Definition document_step (self : nat) (a a' : app) : Prop :=
  match heap a !! self with
  | Some e =>
      exists e' docs msgs,
        edited e e' /\
        a' = set_shown (shown a ++ msgs)
               (set_disk (World docs (denied (disk a)) (settings (disk a))
                                (settings_denied (disk a)) (os (disk a)))
                  (put self e' a))
  | None => a' = a
  end.

(** Every object of the heap satisfies [Q]. *)
Definition every_object (Q : Editor -> Prop) (s : app) : Prop :=
  forall x e, heap s !! x = Some e -> Q e.

(** Every window on screen is registered. *)
Definition shown_registered (s : app) : Prop :=
  forall x e, heap s !! x = Some e -> wm (window e) = Shown -> x ∈ all_editors s.

(** The editor [y] is registered although its window was destroyed. *)
Definition stranded (y : nat) (s : app) : Prop :=
  y ∈ all_editors s /\
  exists e, heap s !! y = Some e /\ wm (window e) = Destroyed.

(** A handler at the desk keeps [P] if [P] survives it however it
    ends. *)
Definition desk_keeps {A} (P : desk -> Prop) (m : M desk A) : Prop :=
  forall d, P d -> P (snd (m d)).

(** A handler of the process only ages the windows: no editor is
    lost, and no destroyed window comes back. *)
Definition ages {A} (m : M app A) : Prop :=
  forall a x, is_Some (heap a !! x) ->
    is_Some (heap (snd (m a)) !! x) /\
    (window_exists (snd (m a)) x = true -> window_exists a x = true).

(** Every dialog was created under the window of an editor, and a
    dialog that exists is the one its global refers to. *)
Definition one_dialog (d : desk) : Prop :=
  (forall i t, theme_dialogs d !! i = Some t ->
               is_Some (heap (process d) !! theme_master t)) /\
  (forall i t, font_dialogs d !! i = Some t ->
               is_Some (heap (process d) !! font_master t)) /\
  (forall i, theme_winfo_exists i d = true -> theme_dialog_ref d = Some i) /\
  (forall i, font_winfo_exists i d = true -> font_dialog_ref d = Some i).

(** The colour [THEMES["Custom"][k]], when there is one. *)
Definition custom_colour (k : string) (a : app) : option json :=
  match dict_get "Custom" (THEMES a) with
  | Some (JObj c) => dict_get k c
  | _ => None
  end.

(** The text [update_status] writes for the cursor of [t]. *)
Definition status_text (t : Text) : string :=
  "Line: " +:+ pretty (cursor t).1 +:+ ", Column: " +:+ pretty (cursor t).2.

(** ** Further sample states *)

(** One window, and a custom theme that names a background only. *)
Definition red_custom : app :=
  set_THEMES (dict_set "Custom" (JObj [("bg", JStr "red")]) THEMES_literal)
             (one_window untouched locked_disk).

(** A disk whose settings file cannot be written. *)
Definition readonly_settings : world := World ∅ [] SAbsent true Posix.

(** The root window of a process started on [locked_disk], after the
    letter [a] was typed into it. *)
Definition typed_a : Editor :=
  MkEditor true (MkDocId None true) (MkWindow [] "LandText *" Shown)
           (MkText [("a"%char, false)] 1
                   [ ("wrap", JStr "none"); ("width", JNum 80); ("height", JNum 35);
                     ("font", JArr [JStr "Consolas"; JNum 12]);
                     ("undo", JBool true); ("maxundo", JNum (-1));
                     ("bg", JStr "white"); ("fg", JStr "black");
                     ("insertbackground", JStr "black");
                     ("selectbackground", JStr "lightblue");
                     ("selectforeground", JStr "black") ] [] None true)
           (MkLabel [ ("text", JStr "Line: 1, Column: 0"); ("bd", JNum 1);
                      ("relief", JStr "sunken"); ("anchor", JStr "w");
                      ("bg", JStr "lightgray"); ("fg", JStr "black") ]) None.

(** A root window holding the unsaved text [xy] of the document
    [/tmp/a.txt]. *)
Definition editing_a_txt : Editor :=
  MkEditor true (MkDocId (Some "/tmp/a.txt") true)
           (MkWindow [] "LandText - a.txt *" Shown)
           (MkText (plain "xy") 2 [] [] None true) (MkLabel []) None.

(** A settings file that names no theme and gives the custom theme
    no colour at all. *)
Definition bare_custom_settings : world :=
  World ∅ [] (SJson (JObj [ ("custom_theme", JObj []) ])) false Posix.

(** * Properties *)

(** ** Dictionaries *)

Lemma dict_get_set_eq (k : string) (v : json) (d : dict) :
  dict_get k (dict_set k v d) = Some v.
Proof.
  induction d as [|[k' v'] d IH]; simpl.
  - by rewrite String.eqb_refl.
  - destruct (String.eqb k k') eqn:E; simpl.
    + by rewrite String.eqb_refl.
    + by rewrite E.
Qed.

(** ** Settings *)

(** What [load_settings] does with a settings file that holds a JSON
    object: the stored custom theme, if any, replaces [THEMES["Custom"]]
    as it is, and the two other fields fall back to their defaults. *)
Lemma load_settings_object (a : app) (d : dict) :
  settings (disk a) = SJson (JObj d) ->
  load_settings a =
    (inr (match dict_get "current_theme" d with Some t => t | None => JStr "Light" end),
     set_current_font_size
       (match dict_get "font_size" d with Some s => s | None => JNum 12 end)
       (match dict_get "custom_theme" d with
        | Some c => set_THEMES (dict_set "Custom" c (THEMES a)) a
        | None => a
        end)).
Proof.
  intros Hs.
  unfold load_settings, bind, gets, try_except, json_load, settings_exists.
  rewrite Hs. cbn. rewrite Hs. cbn.
  destruct (dict_get "custom_theme" d) as [c|]; reflexivity.
Qed.

(** A missing or unloadable settings file leaves the globals alone. *)
Lemma load_settings_default (a : app) :
  settings (disk a) = SAbsent \/ settings (disk a) = SGarbled ->
  load_settings a = (inr (JStr "Light"), a).
Proof.
  intros [Hs|Hs];
    unfold load_settings, bind, gets, try_except, json_load, settings_exists;
    rewrite Hs; cbn; rewrite ?Hs; reflexivity.
Qed.

Lemma save_settings_ok (a : app) (T C : json) :
  dict_get "Custom" (THEMES a) = Some C ->
  settings_denied (disk a) = false ->
  save_settings T a =
    (inr tt,
     set_disk (World (documents (disk a)) (denied (disk a))
                     (SJson (JObj [ ("current_theme", T); ("custom_theme", C);
                                    ("font_size", current_font_size a) ]))
                     (settings_denied (disk a)) (os (disk a))) a).
Proof.
  intros HC Hd. unfold save_settings, bind, gets, lift, json_dump. cbn.
  rewrite HC. cbn. by rewrite Hd.
Qed.

(** C7. Saving the settings with active theme [T] while the custom theme
    is [C] and the font size is [S], then loading them (in this process or
    in a later one that finds the same disk), yields theme [T], font size
    [S] and the custom theme [C] unchanged. *)
Theorem settings_roundtrip (a b : app) (T C S : json) :
  dict_get "Custom" (THEMES a) = Some C ->
  current_font_size a = S ->
  settings_denied (disk a) = false ->
  disk b = disk (exec (save_settings T) a) ->
  raised (save_settings T) a = None /\
  fst (load_settings b) = inr T /\
  current_font_size (exec load_settings b) = S /\
  dict_get "Custom" (THEMES (exec load_settings b)) = Some C.
Proof.
  intros HC HS Hd Hb.
  unfold raised, exec in *. rewrite (save_settings_ok a T C HC Hd) in Hb |- *.
  cbn in Hb. split; [done|].
  erewrite load_settings_object; [|by rewrite Hb]. cbn.
  split; [done|]. split; [done|]. apply dict_get_set_eq.
Qed.

Lemma settings_roundtrip_witness :
  fst (load_settings (fresh_process (disk (exec (save_settings (JStr "Dark")) dark_18))))
    = inr (JStr "Dark") /\
  current_font_size
    (exec load_settings
       (fresh_process (disk (exec (save_settings (JStr "Dark")) dark_18)))) = JNum 18 /\
  dict_get "Custom"
    (THEMES (exec load_settings
       (fresh_process (disk (exec (save_settings (JStr "Dark")) dark_18)))))
    = Some (JObj [("bg", JStr "#102030")]).
Proof.
  exact (proj2 (settings_roundtrip dark_18
    (fresh_process (disk (exec (save_settings (JStr "Dark")) dark_18)))
    (JStr "Dark") (JObj [("bg", JStr "#102030")]) (JNum 18)
    eq_refl eq_refl eq_refl eq_refl)).
Defined.

(** C6. Loading a settings file whose [custom_theme] has a single field
    leaves [THEMES["Custom"]] with that single field (nothing is filled
    in), and building the first window under that theme raises
    [KeyError]. *)
Theorem partial_custom_theme_not_filled :
  dict_get "Custom" (THEMES (exec load_settings (fresh_process partial_settings)))
    = Some (JObj [("bg", JStr "red")]) /\
  complete_theme (JObj [("bg", JStr "red")]) = false /\
  forallb (fun name => match dict_get name THEMES_literal with
                       | Some t => complete_theme t
                       | None => false
                       end) ["Light"; "Dark"; "Custom"] = true /\
  raised main (fresh_process partial_settings) = Some KeyError.
Proof. by vm_compute. Qed.

(** ** Find *)

Section Find.

Lemma prefix_nocase_length (q buf : list ascii) :
  prefix_nocase q buf = true -> length q <= length buf.
Proof.
  revert buf. induction q as [|a q IH]; intros [|b buf] H; simpl in *;
    try lia; try discriminate.
  apply andb_prop in H as [_ H]. apply IH in H. lia.
Qed.

Lemma search_from_Some (q buf : list ascii) (p i : nat) :
  search_from q buf p = Some i ->
  p <= i /\ i - p < length buf /\ occurs_at q buf (i - p) = true /\
  forall j, j < i - p -> occurs_at q buf j = false.
Proof.
  revert p. induction buf as [|c buf IH]; intros p H; [discriminate|].
  cbn [search_from] in H.
  destruct (prefix_nocase q (c :: buf)) eqn:E.
  - injection H as <-. rewrite Nat.sub_diag. cbn [length].
    split_and!; [lia|lia|exact E|intros j Hj; lia].
  - apply IH in H as (Hle & Hlt & Hocc & Hmin).
    replace (i - p) with (S (i - S p)) by lia.
    cbn [length]. split_and!; [lia|lia|exact Hocc|].
    intros [|j] Hj; [exact E|]. apply Hmin. lia.
Qed.

Lemma search_from_None (q buf : list ascii) (p j : nat) :
  search_from q buf p = None -> j < length buf -> occurs_at q buf j = false.
Proof.
  revert p j. induction buf as [|c buf IH]; intros p j H Hj; [simpl in Hj; lia|].
  cbn [search_from] in H.
  destruct (prefix_nocase q (c :: buf)) eqn:E; [discriminate|].
  destruct j as [|j]; [exact E|].
  apply (IH (S p)); [exact H|simpl in Hj; lia].
Qed.

Lemma occurs_at_bound (q buf : list ascii) (p : nat) :
  q <> [] -> occurs_at q buf p = true -> p + length q <= length buf.
Proof.
  intros Hq H. unfold occurs_at in H.
  apply prefix_nocase_length in H. rewrite length_drop in H.
  destruct q; [done|]. simpl in *. lia.
Qed.

(** The toolkit's search, specified. *)
Lemma text_search_Some (term : string) (idx i : nat) (t : Text) :
  text_search term idx t = Some i ->
  idx <= i /\
  occurs_at (list_ascii_of_string term) (chars t) i = true /\
  forall j, idx <= j < i ->
            occurs_at (list_ascii_of_string term) (chars t) j = false.
Proof.
  unfold text_search. intros H.
  apply search_from_Some in H as (Hle & _ & Hocc & Hmin).
  unfold occurs_at in *. rewrite drop_drop in Hocc.
  replace (idx + (i - idx)) with i in Hocc by lia.
  split_and!; [lia|exact Hocc|].
  intros j Hj. specialize (Hmin (j - idx)). rewrite drop_drop in Hmin.
  replace (idx + (j - idx)) with j in Hmin by lia. apply Hmin. lia.
Qed.

Lemma text_search_None (term : string) (idx j : nat) (t : Text) :
  term <> EmptyString ->
  text_search term idx t = None -> idx <= j ->
  occurs_at (list_ascii_of_string term) (chars t) j = false.
Proof.
  unfold text_search. intros Hne H Hj.
  destruct (decide (j < length (chars t))) as [Hlt|Hge].
  - pose proof (search_from_None _ _ _ (j - idx) H) as Hn.
    unfold occurs_at in *. rewrite drop_drop in Hn.
    replace (idx + (j - idx)) with j in Hn by lia.
    apply Hn. rewrite length_drop. unfold chars in Hlt. lia.
  - unfold occurs_at. rewrite drop_ge; [|lia].
    destruct term; [done|reflexivity].
Qed.

Lemma chars_tag_add (i j : nat) (t : Text) : chars (tag_add i j t) = chars t.
Proof.
  unfold chars, tag_add. cbn [cells]. apply list_eq. intros k.
  rewrite !list_lookup_fmap, list_lookup_imap.
  by destruct (cells t !! k).
Qed.

Lemma length_list_ascii_of_string (s : string) :
  length (list_ascii_of_string s) = String.length s.
Proof. induction s; simpl; congruence. Qed.

Lemma list_ascii_of_string_nil (s : string) :
  s <> EmptyString -> list_ascii_of_string s <> [].
Proof. by destruct s. Qed.

(** Enough iterations are allowed: the loop breaks, and what it
    tagged is exactly the leftmost occurrences, each taken up where
    the one before ended. *)
Lemma find_loop_spec (term : string) (fuel : nat) :
  term <> EmptyString ->
  forall (idx : nat) (fm : option nat) (t : Text),
  length (chars t) - idx < fuel ->
  exists fm' ranges t',
    find_loop fuel term idx fm t = Some (fm', ranges, t') /\
    Forall (fun r => r.2 = r.1 + String.length term /\
                     r.2 <= length (chars t) /\
                     occurs_at (list_ascii_of_string term) (chars t) r.1 = true)
           ranges /\
    separated idx ranges /\
    (forall p, idx <= p ->
               occurs_at (list_ascii_of_string term) (chars t) p = true ->
               covered p ranges = true) /\
    (forall k, cells t' !! k
               = (fun c => (c.1, c.2 || covered k ranges)) <$> cells t !! k).
Proof.
  intros Hne. induction fuel as [|fuel IH]; intros idx fm t Hfuel; [lia|].
  cbn [find_loop].
  destruct (text_search term idx t) as [i|] eqn:Hs.
  - apply text_search_Some in Hs as (Hle & Hocc & Hmin).
    pose proof (occurs_at_bound _ _ _ (list_ascii_of_string_nil _ Hne) Hocc) as Hb.
    rewrite length_list_ascii_of_string in Hb.
    assert (0 < String.length term) as Hpos by (destruct term; [done|simpl; lia]).
    set (lastidx := i + String.length term) in *.
    set (fm1 := match fm with Some _ => fm | None => Some i end).
    destruct (IH lastidx fm1 (tag_add i lastidx t))
      as (fm' & ranges & t' & Hrun & Hall & Hsep & Hcov & Hcells).
    { rewrite chars_tag_add. lia. }
    rewrite chars_tag_add in Hall, Hcov.
    exists fm', ((i, lastidx) :: ranges), t'.
    rewrite Hrun. split_and!.
    + reflexivity.
    + constructor; [|exact Hall]. cbn. split_and!; [reflexivity|exact Hb|exact Hocc].
    + cbn. split_and!; [exact Hle|lia|exact Hsep].
    + intros p Hp Hoccp. unfold covered. cbn [existsb fst snd].
      fold (covered p ranges).
      destruct (decide (p < i)) as [Hlt|Hge].
      { rewrite Hmin in Hoccp; [discriminate|lia]. }
      destruct (decide (p < lastidx)) as [Hin|Hout].
      * rewrite (proj2 (Nat.leb_le i p)) by lia.
        rewrite (proj2 (Nat.ltb_lt p lastidx)) by lia.
        reflexivity.
      * rewrite (Hcov p); [apply orb_true_r|lia|exact Hoccp].
    + intros k. rewrite Hcells. cbn [tag_add cells].
      rewrite list_lookup_imap.
      destruct (cells t !! k) as [[c b]|]; cbn [fmap option_fmap option_map]; [|done].
      unfold covered. cbn [existsb fst snd]. by rewrite orb_assoc.
  - exists fm, [], t. split_and!.
    + reflexivity.
    + constructor.
    + exact I.
    + intros p Hp Hoccp.
      rewrite (text_search_None term idx p t Hne Hs Hp) in Hoccp. discriminate.
    + intros k. destruct (cells t !! k) as [[c b]|]; cbn; [|done].
      by rewrite orb_false_r.
Qed.

Lemma chars_tag_remove_all (t : Text) : chars (tag_remove_all t) = chars t.
Proof.
  unfold chars, tag_remove_all. cbn [cells].
  rewrite map_map. reflexivity.
Qed.

End Find.

Section Nocase.





End Nocase.



(** ** One editor at a time *)

Section OneEditor.

Lemma heap_put (self : nat) (e : Editor) (a : app) :
  heap (put self e a) !! self = Some e.
Proof. unfold put. cbn. apply lookup_insert_eq. Qed.

Lemma heap_put_ne (self other : nat) (e : Editor) (a : app) :
  self <> other -> heap (put self e a) !! other = heap a !! other.
Proof. intros Hne. unfold put. cbn. by apply lookup_insert_ne. Qed.

Lemma put_put (self : nat) (e1 e2 : Editor) (a : app) :
  put self e2 (put self e1 a) = put self e2 a.
Proof. unfold put, set_heap. cbn. by rewrite insert_insert_eq. Qed.

Lemma put_same (self : nat) (e : Editor) (a : app) :
  heap a !! self = Some e -> put self e a = a.
Proof.
  intros H. unfold put, set_heap. rewrite insert_id by done. by destruct a.
Qed.

Lemma self_get_ok {A} (a : app) (self : nat) (e : Editor) (f : Editor -> A) :
  heap a !! self = Some e -> self_get self f a = (inr (f e), a).
Proof. intros H. unfold self_get. by rewrite H. Qed.

Lemma self_upd_ok (a : app) (self : nat) (e : Editor) (f : Editor -> Editor) :
  heap a !! self = Some e -> self_upd self f a = (inr tt, put self (f e) a).
Proof.
  intros H. unfold self_upd, modify, put. do 2 f_equal.
  apply map_eq. intros i. rewrite lookup_alter, lookup_insert.
  destruct (decide (self = i)) as [<-|]; [by rewrite H|done].
Qed.

Lemma update_title_ok (a : app) (self : nat) (e : Editor) :
  heap a !! self = Some e -> update_title self a = (inr tt, put self (retitle e) a).
Proof.
  intros H. unfold update_title, bind.
  rewrite (self_get_ok a self e) by done.
  by rewrite (self_upd_ok a self e) by done.
Qed.

End OneEditor.

(** Run the next step of a handler on the object [self]. *)
Ltac heap_known := first [ eassumption | apply heap_put ].
Ltac mstep :=
  first [ erewrite self_get_ok by heap_known
        | erewrite self_upd_ok by heap_known
        | erewrite update_title_ok by heap_known ];
  cbn beta iota; rewrite ?put_put.

Section Handlers.

Context (a : app) (self : nat) (e : Editor).
Hypothesis Hself : heap a !! self = Some e.

Lemma mark_modified_ok : mark_modified self a = (inr tt, put self (dirtied e) a).
Proof.
  unfold mark_modified, bind, dirtied. mstep.
  destruct (modified (current_file e)) eqn:Hm; cbn [negb].
  - unfold ret. by rewrite put_same.
  - repeat mstep. reflexivity.
Qed.

Lemma _do_new_file_ok : _do_new_file self a = (inr tt, put self (cleared e) a).
Proof. unfold _do_new_file, bind. repeat mstep. reflexivity. Qed.

Lemma open_file_ok (filename content : string) :
  truthy filename = true ->
  fs_read (disk a) filename = inr content ->
  open_file self filename a = (inr tt, put self (opened filename content e) a).
Proof.
  intros Ht Hr. unfold open_file, try_except, bind, lift. rewrite Ht, Hr.
  unfold ret. repeat mstep. reflexivity.
Qed.

Lemma open_file_failed (filename : string) (err : exn) :
  truthy filename = true ->
  fs_read (disk a) filename = inl err ->
  open_file self filename a =
    (inr tt, set_shown (shown a ++ [ShowError "Open Error" (exn_str err)]) a).
Proof.
  intros Ht Hr. unfold open_file, try_except, bind, lift. by rewrite Ht, Hr.
Qed.

Lemma save_as_file_ok (filename : string) (w : world) :
  truthy filename = true ->
  fs_write (disk a) filename (text_get_all (text_area e)) = inr w ->
  save_as_file self filename a
  = (inr tt, put self (saved filename e) (set_disk w a)).
Proof.
  intros Ht Hw. unfold save_as_file, try_except, bind, write_file. rewrite Ht.
  mstep. rewrite Hw.
  assert (heap (set_disk w a) !! self = Some e) as Hself' by exact Hself.
  repeat mstep. reflexivity.
Qed.

Lemma save_as_file_failed (filename : string) (err : exn) :
  truthy filename = true ->
  fs_write (disk a) filename (text_get_all (text_area e)) = inl err ->
  save_as_file self filename a =
    (inr tt, set_shown (shown a ++ [ShowError "Save Error" (exn_str err)]) a).
Proof.
  intros Ht Hw. unfold save_as_file, try_except, bind, write_file. rewrite Ht.
  mstep. by rewrite Hw.
Qed.

Lemma save_file_no_path (filename : string) :
  (path (current_file e) = None \/
   exists p, path (current_file e) = Some p /\ truthy p = false) ->
  save_file self filename a = save_as_file self filename a.
Proof.
  intros Hp. unfold save_file, bind. mstep.
  destruct Hp as [->|(p & -> & ->)]; reflexivity.
Qed.

Lemma save_file_ok (filename p : string) (w : world) :
  path (current_file e) = Some p -> truthy p = true ->
  fs_write (disk a) p (text_get_all (text_area e)) = inr w ->
  save_file self filename a = (inr tt, put self (resaved e) (set_disk w a)).
Proof.
  intros Hp Ht Hw. unfold save_file, bind. mstep. rewrite Hp, Ht.
  unfold try_except, bind, write_file. mstep. rewrite Hw.
  assert (heap (set_disk w a) !! self = Some e) as Hself' by exact Hself.
  repeat mstep. reflexivity.
Qed.

Lemma save_file_failed (filename p : string) (err : exn) :
  path (current_file e) = Some p -> truthy p = true ->
  fs_write (disk a) p (text_get_all (text_area e)) = inl err ->
  save_file self filename a =
    (inr tt, set_shown (shown a ++ [ShowError "Save Error" (exn_str err)]) a).
Proof.
  intros Hp Ht Hw. unfold save_file, bind. mstep. rewrite Hp, Ht.
  unfold try_except, bind, write_file. mstep. by rewrite Hw.
Qed.

End Handlers.

(** ** Document input and output *)

(** C4. When the read of [open_file] raises, or the write of
    [save_as_file] or of [save_file] (to the document's own path, or
    through Save-As when it has none) raises, the handler returns after
    showing one error box with the exception's text, and the state is
    otherwise the state before the call: every window keeps its buffer,
    its path and its modified flag. *)
Theorem io_failure_preserves_state
    (a : app) (self : nat) (e : Editor) (filename : string) (err : exn) :
  heap a !! self = Some e ->
  truthy filename = true ->
  let failed caption :=
    (inr tt, set_shown (shown a ++ [ShowError caption (exn_str err)]) a) in
  (fs_read (disk a) filename = inl err ->
   open_file self filename a = failed "Open Error") /\
  (fs_write (disk a) filename (text_get_all (text_area e)) = inl err ->
   save_as_file self filename a = failed "Save Error") /\
  (fs_write (disk a) filename (text_get_all (text_area e)) = inl err ->
   path (current_file e) = None ->
   save_file self filename a = failed "Save Error") /\
  (forall p, path (current_file e) = Some p -> truthy p = true ->
   fs_write (disk a) p (text_get_all (text_area e)) = inl err ->
   save_file self filename a = failed "Save Error") /\
  heap (snd (failed "Open Error")) = heap a /\
  heap (snd (failed "Save Error")) = heap a.
Proof.
  intros Hself Ht failed. split_and!.
  - intros Hr. by apply open_file_failed.
  - intros Hw. by eapply save_as_file_failed.
  - intros Hw Hp. erewrite save_file_no_path by (done || by left).
    by eapply save_as_file_failed.
  - intros p Hp Htp Hw. by eapply save_file_failed.
  - reflexivity.
  - reflexivity.
Qed.

Lemma io_failure_preserves_state_witness :
  open_file 0 "/nowhere.txt" (one_window typing_xy locked_disk)
  = (inr tt,
     set_shown [ShowError "Open Error" "[Errno 2] No such file or directory: '/nowhere.txt'"]
               (one_window typing_xy locked_disk)) /\
  save_file 0 "/etc/motd" (one_window typing_xy locked_disk)
  = (inr tt,
     set_shown [ShowError "Save Error" "[Errno 13] Permission denied: '/etc/motd'"]
               (one_window typing_xy locked_disk)).
Proof.
  split.
  - apply (io_failure_preserves_state (one_window typing_xy locked_disk) 0 typing_xy
             "/nowhere.txt" (OSError "[Errno 2] No such file or directory: '/nowhere.txt'")
             eq_refl eq_refl).
    reflexivity.
  - apply (io_failure_preserves_state (one_window typing_xy locked_disk) 0 typing_xy
             "/etc/motd" (OSError "[Errno 13] Permission denied: '/etc/motd'")
             eq_refl eq_refl); reflexivity.
Defined.

(** ** Save, then open *)

Lemma text_of_plain (s : string) : text_of (plain s) = s.
Proof.
  unfold text_of, plain. rewrite map_map. cbn [fst]. rewrite map_id.
  apply string_of_list_ascii_of_string.
Qed.

Lemma length_append (s t : string) :
  String.length (s +:+ t) = String.length s + String.length t.
Proof.
  induction s as [|c s IH]; [reflexivity|].
  change (String.length (String c (s +:+ t)) = S (String.length s) + String.length t).
  cbn [String.length]. by rewrite IH.
Qed.

Lemma append_newline_ne (s : string) : s +:+ newline <> s.
Proof.
  intros H. apply (f_equal String.length) in H.
  rewrite length_append in H. simpl in H. lia.
Qed.

Lemma occurs_app (sep : ascii) (s t : string) :
  occurs sep (s +:+ t) = occurs sep s || occurs sep t.
Proof.
  unfold occurs. induction s as [|c s IH]; [done|].
  change (String c s +:+ t) with (String c (s +:+ t)).
  cbn [list_ascii_of_string existsb]. by rewrite IH, orb_assoc.
Qed.

Lemma list_ascii_of_string_app (s t : string) :
  list_ascii_of_string (s +:+ t) = (list_ascii_of_string s ++ list_ascii_of_string t)%list.
Proof.
  induction s as [|c s IH]; [done|].
  change (String c s +:+ t) with (String c (s +:+ t)).
  cbn [list_ascii_of_string]. by rewrite IH.
Qed.

Lemma append_inj_r (s t x : string) : s +:+ x = t +:+ x -> s = t.
Proof.
  intros H. apply (f_equal list_ascii_of_string) in H.
  rewrite !list_ascii_of_string_app in H. apply app_inv_tail in H.
  apply (f_equal string_of_list_ascii) in H.
  by rewrite !string_of_list_ascii_of_string in H.
Qed.

(** Text without a carriage return is read back as it was written,
    on either kind of system. *)
Lemma universal_newlines_id (s : string) :
  occurs "013" s = false -> universal_newlines s = s.
Proof.
  unfold occurs. induction s as [|c s IH]; [done|].
  cbn [list_ascii_of_string existsb universal_newlines]. intros H.
  apply orb_false_elim in H as [Hc Hs]. rewrite Ascii.eqb_sym in Hc.
  by rewrite Hc, IH.
Qed.

Lemma universal_newlines_crlf (s : string) :
  occurs "013" s = false -> universal_newlines (crlf s) = s.
Proof.
  unfold occurs. induction s as [|c s IH]; [done|].
  cbn [list_ascii_of_string existsb crlf]. intros H.
  apply orb_false_elim in H as [Hc Hs]. rewrite Ascii.eqb_sym in Hc.
  destruct (Ascii.eqb c "010") eqn:Hn.
  - apply Ascii.eqb_eq in Hn as ->. cbn. by rewrite IH.
  - cbn [universal_newlines]. by rewrite Hc, IH.
Qed.

Lemma read_back (o : platform) (s : string) :
  occurs "013" s = false -> universal_newlines (write_newlines o s) = s.
Proof.
  destruct o; [apply universal_newlines_id|apply universal_newlines_crlf].
Qed.

(** What is read holds no carriage return. *)
Lemma universal_newlines_no_cr (s : string) :
  occurs "013" (universal_newlines s) = false.
Proof.
  assert (forall n s, String.length s <= n ->
            occurs "013" (universal_newlines s) = false) as H.
  { clear s. induction n as [|n IH]; intros [|c s] Hn;
      try done; cbn [String.length] in Hn; [lia|].
    cbn [universal_newlines]. destruct (Ascii.eqb c "013") eqn:Hc.
    - destruct s as [|c' s]; [done|]. cbn [String.length] in Hn.
      destruct (Ascii.eqb c' "010").
      + unfold occurs. cbn [list_ascii_of_string existsb]. cbn [Ascii.eqb orb].
        apply (IH s). lia.
      + unfold occurs. cbn [list_ascii_of_string existsb]. cbn [Ascii.eqb orb].
        apply (IH (String c' s)). cbn [String.length]. lia.
    - unfold occurs. cbn [list_ascii_of_string existsb].
      rewrite Ascii.eqb_sym, Hc. apply (IH s). lia. }
  by apply (H (String.length s)).
Qed.

(** C3. Saving a buffer to [p] and opening [p] again does not give the
    buffer back: the file receives the text followed by the newline the
    toolkit appends to [get("1.0", END)], each newline written as
    [os.linesep], and the buffer after Open is that text as text mode
    reads it.  For a buffer without a carriage return this is the buffer
    with the extra newline at its end; for every buffer it differs from
    the buffer saved.  This holds for Save on a document whose path is [p]
    and for Save-As to [p] alike. *)
Theorem save_then_open_grows (a : app) (self : nat) (e : Editor) (p : string) :
  heap a !! self = Some e ->
  truthy p = true ->
  p ∉ denied (disk a) ->
  forall save : M app unit,
  saves_to self e p save ->
  let C := text_of (cells (text_area e)) in
  let a1 := exec save a in
  let a2 := exec (open_file self p) a1 in
  documents (disk a1) !! p = Some (write_newlines (os (disk a)) (C +:+ newline)) /\
  exists e2, heap a2 !! self = Some e2 /\
             text_of (cells (text_area e2))
             = universal_newlines (write_newlines (os (disk a)) (C +:+ newline)) /\
             (occurs "013" C = false ->
              text_of (cells (text_area e2)) = C +:+ newline) /\
             text_of (cells (text_area e2)) <> C /\
             text_get_all (text_area e2) <> text_get_all (text_area e).
Proof.
  intros Hself Ht Hd save Hsave C a1 a2.
  set (D := write_newlines (os (disk a)) (C +:+ newline)).
  assert (fs_write (disk a) p (text_get_all (text_area e))
          = inr (World (<[p := D]> (documents (disk a))) (denied (disk a))
                       (settings (disk a)) (settings_denied (disk a))
                       (os (disk a)))) as Hw.
  { unfold fs_write. by rewrite bool_decide_eq_false_2. }
  assert (exists e1, a1 = put self e1 (set_disk
            (World (<[p := D]> (documents (disk a))) (denied (disk a))
                   (settings (disk a)) (settings_denied (disk a))
                   (os (disk a))) a) /\
          text_area e1 = text_area e) as (e1 & Ha1 & Htext).
  { subst a1. unfold exec.
    destruct Hsave as [->|[-> [Hp|Hp]]].
    - erewrite save_as_file_ok by eassumption. by eexists.
    - erewrite save_file_ok by eassumption. by eexists.
    - erewrite save_file_no_path by (done || by left).
      erewrite save_as_file_ok by eassumption. by eexists. }
  clearbody a1. subst a1.
  set (w := World _ _ _ _ _) in *.
  assert (documents (disk (put self e1 (set_disk w a))) !! p = Some D)
    as Hdoc by apply lookup_insert_eq.
  split; [exact Hdoc|].
  subst a2. unfold exec.
  rewrite (open_file_ok _ self e1 (heap_put self e1 _) p (universal_newlines D));
    [|exact Ht|unfold fs_read; by rewrite Hdoc].
  eexists. split; [apply heap_put|].
  assert (text_of (cells (text_area (opened p (universal_newlines D) e1)))
          = universal_newlines D) as Hbuf.
  { cbn. rewrite app_nil_r. apply text_of_plain. }
  assert (occurs "013" C = false -> universal_newlines D = C +:+ newline) as Hplain.
  { intros Hcr. apply read_back. by rewrite occurs_app, Hcr. }
  assert (universal_newlines D <> C) as Hne.
  { intros Heq. destruct (occurs "013" C) eqn:Hcr.
    - by rewrite <- Heq, universal_newlines_no_cr in Hcr.
    - rewrite (Hplain eq_refl) in Heq. by apply append_newline_ne in Heq. }
  split_and!.
  - exact Hbuf.
  - intros Hcr. rewrite Hbuf. by apply Hplain.
  - by rewrite Hbuf.
  - unfold text_get_all. rewrite Hbuf. fold C. intros Heq.
    by apply append_inj_r in Heq.
Qed.

Lemma save_then_open_grows_witness :
  documents (disk (exec (save_as_file 0 "/tmp/a.txt")
                        (one_window typing_xy locked_disk))) !! "/tmp/a.txt"
  = Some ("xy" +:+ newline) /\
  exists e2,
    heap (exec (open_file 0 "/tmp/a.txt")
               (exec (save_as_file 0 "/tmp/a.txt")
                     (one_window typing_xy locked_disk))) !! 0 = Some e2 /\
    text_of (cells (text_area e2)) = "xy" +:+ newline /\
    (occurs "013" "xy" = false -> text_of (cells (text_area e2)) = "xy" +:+ newline) /\
    text_of (cells (text_area e2)) <> "xy" /\
    text_get_all (text_area e2) <> text_get_all (text_area typing_xy).
Proof.
  assert ("/tmp/a.txt" ∉ denied (disk (one_window typing_xy locked_disk))) as Hd.
  { cbn. intros H. apply list_elem_of_singleton in H. discriminate. }
  exact (save_then_open_grows (one_window typing_xy locked_disk) 0 typing_xy
           "/tmp/a.txt" eq_refl eq_refl Hd
           (save_as_file 0 "/tmp/a.txt") (or_introl eq_refl)).
Defined.

(** ** The unsaved-changes dialog *)

Section Dialog.

Lemma dialog_destroy_ok (a : app) (self : nat) (e : Editor) :
  heap a !! self = Some e ->
  dialog_destroy self a = (inr tt, put self (dialog_closed e) a).
Proof. intros H. unfold dialog_destroy. by mstep. Qed.

Lemma new_file_dirty (a : app) (self : nat) (e : Editor) :
  heap a !! self = Some e -> modified (current_file e) = true ->
  new_file self a = (inr tt, put self (asking e) a).
Proof.
  intros H Hm. unfold new_file, bind. mstep. rewrite Hm.
  unfold show_unsaved_dialog. by mstep.
Qed.

Lemma new_file_clean (a : app) (self : nat) (e : Editor) :
  heap a !! self = Some e -> modified (current_file e) = false ->
  new_file self a = (inr tt, put self (cleared e) a).
Proof.
  intros H Hm. unfold new_file, bind. mstep. rewrite Hm.
  by apply _do_new_file_ok.
Qed.

(** Whatever the disk and the chooser answer, [save_file] returns,
    and it leaves the buffer and the dialog of [self] alone. *)
Lemma save_file_returns (a : app) (self : nat) (e : Editor) (filename : string) :
  heap a !! self = Some e ->
  exists a1 e1,
    save_file self filename a = (inr tt, a1) /\
    heap a1 !! self = Some e1 /\
    text_area e1 = text_area e /\
    unsaved_dialog e1 = unsaved_dialog e.
Proof.
  intros H.
  assert (exists a1 e1, save_as_file self filename a = (inr tt, a1) /\
            heap a1 !! self = Some e1 /\ text_area e1 = text_area e /\
            unsaved_dialog e1 = unsaved_dialog e) as Has.
  { destruct (truthy filename) eqn:Ht.
    - destruct (fs_write (disk a) filename (text_get_all (text_area e)))
        as [err|w] eqn:Hw.
      + erewrite save_as_file_failed by eassumption. by eexists _, e.
      + erewrite save_as_file_ok by eassumption.
        eexists _, _. split; [done|]. split; [apply heap_put|done].
    - unfold save_as_file. rewrite Ht. by eexists a, e. }
  destruct (path (current_file e)) as [p|] eqn:Hp.
  - destruct (truthy p) eqn:Ht.
    + destruct (fs_write (disk a) p (text_get_all (text_area e)))
        as [err|w] eqn:Hw.
      * erewrite save_file_failed by eassumption. by eexists _, e.
      * erewrite save_file_ok by eassumption.
        eexists _, _. split; [done|]. split; [apply heap_put|done].
    + erewrite save_file_no_path by (done || (right; by exists p)). exact Has.
  - erewrite save_file_no_path by (done || by left). exact Has.
Qed.

(** Once the name [on_discard] holds the nested function, calling it
    can only end in [RecursionError]: it closes the dialog and calls
    what the name holds, which is itself. *)
Lemma on_discard_never_returns (depth : nat) (self : nat) (filename : string) :
  forall (a : app) (e : Editor),
    heap a !! self = Some e ->
    exists e',
      call depth self (Some Nested_on_discard) filename Nested_on_discard a
      = (inl RecursionError, put self e' a) /\
      text_area e' = text_area e /\
      current_file e' = current_file e /\
      window e' = window e.
Proof.
  induction depth as [|depth IH]; intros a e H.
  - exists e. cbn. unfold raise. by rewrite put_same.
  - cbn [call]. unfold bind. rewrite (dialog_destroy_ok a self e H).
    destruct (IH (put self (dialog_closed e) a) (dialog_closed e) (heap_put _ _ _))
      as (e' & Hcall & Ht & Hc & Hw).
    exists e'. rewrite Hcall, put_put. by split_and!.
Qed.

End Dialog.

(** C1. After [new_file] on a modified buffer the dialog is up with
    both buttons wired to the nested functions.  Pressing either button
    then never reaches the requested action: the handler ends in
    [RecursionError] at any recursion limit, and the buffer is what it
    was.  After "Don't Save" the path and the modified flag are unchanged
    as well, where the requested [_do_new_file] would have cleared the
    flag. *)
Theorem unsaved_dialog_never_proceeds
    (depth : nat) (a : app) (self : nat) (e : Editor) (b : button)
    (filename : string) :
  heap a !! self = Some e ->
  modified (current_file e) = true ->
  let a1 := exec (new_file self) a in
  let a2 := exec (press depth self b filename) a1 in
  heap a1 !! self = Some (asking e) /\
  raised (press depth self b filename) a1 = Some RecursionError /\
  exists e2,
    heap a2 !! self = Some e2 /\
    text_area e2 = text_area e /\
    (b = DontSaveButton ->
     current_file e2 = current_file e /\
     current_file e2 <> current_file (cleared e)).
Proof.
  intros H Hm a1 a2. subst a2 a1. unfold exec, raised.
  rewrite (new_file_dirty a self e H Hm). cbn [snd].
  split; [apply heap_put|].
  unfold press, bind. rewrite (self_get_ok _ self (asking e)) by apply heap_put.
  cbn [asking set_unsaved_dialog unsaved_dialog dialog_open save_command
       dont_save_command on_discard_cell].
  destruct b.
  - destruct depth as [|depth].
    + cbn. split; [done|]. exists (asking e). split; [apply heap_put|]. by split.
    + cbn [call]. unfold bind.
      rewrite (dialog_destroy_ok _ self (asking e)) by apply heap_put.
      rewrite put_put.
      destruct (save_file_returns (put self (dialog_closed (asking e)) a) self
                  (dialog_closed (asking e)) filename (heap_put _ _ _))
        as (a1 & e1 & Hsave & Hheap & Htext & _).
      rewrite Hsave.
      destruct (on_discard_never_returns depth self filename a1 e1 Hheap)
        as (e' & Hcall & Ht & _ & _).
      rewrite Hcall. cbn [fst snd]. split; [done|].
      exists e'. split; [apply heap_put|]. split; [|done].
      by rewrite Ht, Htext.
  - destruct (on_discard_never_returns depth self filename (put self (asking e) a)
                (asking e) (heap_put _ _ _)) as (e' & Hcall & Ht & Hc & _).
    rewrite Hcall, put_put. cbn [fst snd]. split; [done|].
    exists e'. split; [apply heap_put|]. split; [by rewrite Ht|].
    intros _. split; [by rewrite Hc|].
    rewrite Hc. cbn. intros Heq. apply (f_equal modified) in Heq.
    cbn in Heq. congruence.
Qed.

Lemma unsaved_dialog_never_proceeds_witness :
  raised (press 1000 0 DontSaveButton "")
         (exec (new_file 0) (one_window typing_xy locked_disk))
  = Some RecursionError.
Proof.
  exact (proj1 (proj2 (unsaved_dialog_never_proceeds 1000
           (one_window typing_xy locked_disk) 0 typing_xy DontSaveButton ""
           eq_refl eq_refl))).
Defined.

(** ** Closing a window *)

Section Close.

Lemma list_remove_Some (x : nat) (l l' : list nat) :
  list_remove x l = Some l' -> l ≡ₚ x :: l'.
Proof.
  revert l'. induction l as [|y l IH]; intros l' H; [discriminate|].
  cbn in H. destruct (Nat.eqb_spec x y) as [->|Hne].
  - by injection H as <-.
  - destruct (list_remove x l) as [r|]; [|discriminate].
    injection H as <-. rewrite (IH r eq_refl). apply perm_swap.
Qed.

Lemma list_remove_None (x : nat) (l : list nat) :
  list_remove x l = None <-> x ∉ l.
Proof.
  induction l as [|y l IH]; cbn.
  - split; [intros _; apply not_elem_of_nil|done].
  - rewrite not_elem_of_cons.
    destruct (Nat.eqb_spec x y) as [->|Hne].
    + split; [discriminate|by intros [? _]].
    + destruct (list_remove x l) as [r|].
      * split; [discriminate|]. intros [_ Hn]. by apply IH in Hn.
      * split; [|done]. intros _. split; [done|]. by apply IH.
Qed.

Lemma list_remove_elem (x : nat) (l : list nat) :
  x ∈ l -> exists l', list_remove x l = Some l'.
Proof.
  intros Hin. destruct (list_remove x l) as [l'|] eqn:E; [by eexists|].
  by apply list_remove_None in E.
Qed.

Lemma under_refl (p : list nat) : under p p = true.
Proof. induction p as [|x p IH]; cbn; [done|]. by rewrite Nat.eqb_refl. Qed.

(** The toolkit's root window is under no other window. *)
Lemma gone_root (p : list nat) (e : Editor) :
  p <> [] -> pathname (window e) = [] -> gone p e = e.
Proof. intros Hp He. unfold gone. rewrite He. by destruct p. Qed.

Lemma gone_self (e : Editor) :
  gone (pathname (window e)) e = set_wm Destroyed e.
Proof. unfold gone. by rewrite under_refl. Qed.

Lemma gone_same (p : list nat) (e : Editor) :
  is_root (gone p e) = is_root e /\
  pathname (window (gone p e)) = pathname (window e) /\
  unsaved_dialog (gone p e) = unsaved_dialog e.
Proof. unfold gone. by destruct (under p (pathname (window e))). Qed.

Lemma lookup_closed_heap (self y : nat) (e : Editor) (h : gmap nat Editor) :
  h !! self = Some e ->
  closed_heap self e h !! y = after_close self e y <$> h !! y.
Proof.
  intros He. unfold closed_heap, after_close. destruct (is_root e).
  - destruct (decide (y = self)) as [->|Hne].
    + rewrite lookup_insert_eq, He. cbn. by rewrite bool_decide_eq_true_2.
    + rewrite lookup_insert_ne by done. rewrite bool_decide_eq_false_2 by done.
      by destruct (h !! y).
  - by rewrite lookup_fmap.
Qed.

(** What [on_close] leaves of an object: its identity and its place
    among the windows. *)
Lemma after_close_same (self y : nat) (e ey : Editor) :
  (y = self -> ey = e) ->
  is_root (after_close self e y ey) = is_root ey /\
  pathname (window (after_close self e y ey)) = pathname (window ey) /\
  unsaved_dialog (after_close self e y ey) = unsaved_dialog ey.
Proof.
  intros Hy. unfold after_close. destruct (is_root e) eqn:Hr.
  - destruct (bool_decide_reflect (y = self)) as [Heq|_]; [|done].
    by rewrite (Hy Heq).
  - apply gone_same.
Qed.

Lemma after_close_self (self : nat) (e : Editor) :
  after_close self e self e = set_wm (if is_root e then Withdrawn else Destroyed) e.
Proof.
  unfold after_close. destruct (is_root e).
  - by rewrite bool_decide_eq_true_2.
  - apply gone_self.
Qed.

Lemma on_close_ok (a : app) (self : nat) (e : Editor) (eds' : list nat) :
  heap a !! self = Some e ->
  list_remove self (all_editors a) = Some eds' ->
  on_close self a =
    (inr tt,
     let a' := set_heap (closed_heap self e (heap a)) (set_all_editors eds' a) in
     if is_nil eds' then set_mainloop_quit true a' else a').
Proof.
  intros H Hrem. unfold on_close, bind, gets. rewrite Hrem.
  cbn [modify]. cbn beta iota.
  assert (heap (set_all_editors eds' a) !! self = Some e) as H' by exact H.
  mstep. unfold closed_heap.
  destruct (is_root e); mstep; destruct eds'; reflexivity.
Qed.

Lemma on_close_unregistered (a : app) (self : nat) :
  self ∉ all_editors a -> on_close self a = (inl ValueError, a).
Proof.
  intros H. apply list_remove_None in H.
  unfold on_close, bind, gets. by rewrite H.
Qed.

End Close.

(** C2. On a modified buffer with no dialog up, [new_file] puts up the
    unsaved-changes dialog and leaves the buffer alone, but [open_file]
    replaces the buffer by the file read and [on_close] takes the window
    off the screen and out of the registry, neither putting up the
    dialog. *)
Theorem open_and_close_skip_confirmation
    (a : app) (self : nat) (e : Editor) (filename content : string) :
  heap a !! self = Some e ->
  modified (current_file e) = true ->
  unsaved_dialog e = None ->
  truthy filename = true ->
  fs_read (disk a) filename = inr content ->
  self ∈ all_editors a ->
  (exists e1, heap (exec (new_file self) a) !! self = Some e1 /\
              is_Some (unsaved_dialog e1) /\
              text_area e1 = text_area e /\
              current_file e1 = current_file e) /\
  (exists e2, heap (exec (open_file self filename) a) !! self = Some e2 /\
              unsaved_dialog e2 = None /\
              text_of (cells (text_area e2)) = content /\
              current_file e2 = MkDocId (Some filename) false) /\
  (exists e3, raised (on_close self) a = None /\
              heap (exec (on_close self) a) !! self = Some e3 /\
              unsaved_dialog e3 = None /\
              wm (window e3) <> Shown /\
              length (all_editors (exec (on_close self) a)) < length (all_editors a)).
Proof.
  intros H Hm Hd Ht Hr Hin. unfold exec, raised. split_and!.
  - rewrite (new_file_dirty a self e H Hm). exists (asking e).
    split; [apply heap_put|]. split; [by eexists|]. by split.
  - rewrite (open_file_ok a self e H filename content Ht Hr).
    exists (opened filename content e). split; [apply heap_put|].
    split; [exact Hd|]. split; [|reflexivity].
    cbn. rewrite app_nil_r. apply text_of_plain.
  - destruct (list_remove_elem self (all_editors a) Hin) as [eds' Hrem].
    rewrite (on_close_ok a self e eds' H Hrem).
    exists (set_wm (if is_root e then Withdrawn else Destroyed) e).
    apply list_remove_Some in Hrem.
    assert (length (all_editors a) = S (length eds')) as Hlen
      by (by rewrite Hrem).
    split; [done|]. split.
    { cbn zeta. rewrite <- (after_close_self self e).
      destruct (is_nil eds'); cbn; by rewrite (lookup_closed_heap _ _ _ _ H), H. }
    split; [exact Hd|]. split.
    + by destruct (is_root e).
    + rewrite Hlen. destruct (is_nil eds'); cbn; lia.
Qed.

Lemma open_and_close_skip_confirmation_witness :
  (exists e2, heap (exec (open_file 0 "/etc/motd") (one_window typing_xy motd_disk)) !! 0
              = Some e2 /\
              unsaved_dialog e2 = None /\
              text_of (cells (text_area e2)) = "hello" /\
              current_file e2 = MkDocId (Some "/etc/motd") false) /\
  (exists e3, raised (on_close 0) (one_window typing_xy motd_disk) = None /\
              heap (exec (on_close 0) (one_window typing_xy motd_disk)) !! 0 = Some e3 /\
              unsaved_dialog e3 = None /\
              wm (window e3) <> Shown /\
              length (all_editors (exec (on_close 0) (one_window typing_xy motd_disk)))
              < length (all_editors (one_window typing_xy motd_disk))).
Proof.
  assert (0 ∈ all_editors (one_window typing_xy motd_disk)) as Hin
    by apply list_elem_of_here.
  exact (proj2 (open_and_close_skip_confirmation (one_window typing_xy motd_disk) 0
                  typing_xy "/etc/motd" "hello"
                  eq_refl eq_refl eq_refl eq_refl eq_refl Hin)).
Defined.

(** ** The modified flag *)

Lemma on_key_ok (a : app) (self : nat) (e : Editor) (k : key) :
  heap a !! self = Some e ->
  on_key self k a
  = (inr tt, put self (set_text_area (text_key k (text_area (dirtied e))) (dirtied e)) a).
Proof.
  intros H. unfold on_key, bind. rewrite (mark_modified_ok a self e H).
  by mstep.
Qed.

Lemma on_paste_ok (a : app) (self : nat) (e : Editor) (clip : string) :
  heap a !! self = Some e ->
  on_paste self clip a
  = (inr tt, put self (set_text_area (text_paste clip (text_area (dirtied e))) (dirtied e)) a).
Proof.
  intros H. unfold on_paste, bind. rewrite (mark_modified_ok a self e H).
  by mstep.
Qed.

(** Every key press and every paste leaves the flag set, so a change
    made by typing or pasting is never missed. *)
Lemma key_or_paste_marks_modified (a : app) (self : nat) (e : Editor)
    (k : key) (clip : string) :
  heap a !! self = Some e ->
  (exists e', heap (exec (on_key self k) a) !! self = Some e' /\
              text_area e' = text_key k (text_area e) /\
              modified (current_file e') = true) /\
  (exists e', heap (exec (on_paste self clip) a) !! self = Some e' /\
              text_area e' = text_paste clip (text_area e) /\
              modified (current_file e') = true).
Proof.
  intros H. unfold exec.
  rewrite (on_key_ok a self e k H), (on_paste_ok a self e clip H).
  split; (eexists; split; [apply heap_put|]);
    unfold dirtied; by destruct (modified (current_file e)) eqn:Hm.
Qed.

(** C5. A press of the left-arrow key on an unmodified buffer leaves
    every character and tag of the buffer as it was and sets the
    modified flag. *)
Theorem arrow_key_marks_modified (a : app) (self : nat) (e : Editor) :
  heap a !! self = Some e ->
  modified (current_file e) = false ->
  exists e',
    heap (exec (on_key self KLeft) a) !! self = Some e' /\
    cells (text_area e') = cells (text_area e) /\
    modified (current_file e') = true.
Proof.
  intros H Hm. unfold exec. rewrite (on_key_ok a self e KLeft H).
  eexists. split; [apply heap_put|]. unfold dirtied. rewrite Hm. by split.
Qed.

Lemma arrow_key_marks_modified_witness :
  exists e',
    heap (exec (on_key 0 KLeft) (one_window untouched locked_disk)) !! 0 = Some e' /\
    cells (text_area e') = [] /\
    modified (current_file e') = true.
Proof.
  exact (arrow_key_marks_modified (one_window untouched locked_disk) 0 untouched
           eq_refl eq_refl).
Defined.

(** ** Invariants of the event loop *)

Section Keeps.

Context (P : app -> Prop).

Lemma keeps_ret {A} (x : A) : keeps P (ret x).
Proof. by intros s Hs. Qed.

Lemma keeps_raise {A} (err : exn) : keeps P (raise (A := A) err).
Proof. by intros s Hs. Qed.

Lemma keeps_lift {A} (r : exn + A) : keeps P (lift r).
Proof. destruct r; [apply keeps_raise|apply keeps_ret]. Qed.

Lemma keeps_gets {A} (f : app -> A) : keeps P (gets f).
Proof. by intros s Hs. Qed.

Lemma keeps_self_get {A} (x : nat) (f : Editor -> A) : keeps P (self_get x f).
Proof. intros s Hs. unfold self_get. by destruct (heap s !! x). Qed.

Lemma keeps_bind {A B} (m : M app A) (k : A -> M app B) :
  keeps P m -> (forall x, keeps P (k x)) -> keeps P (bind m k).
Proof.
  intros Hm Hk s Hs. unfold bind. specialize (Hm s Hs).
  destruct (m s) as [[err|x] s']; [exact Hm|]. by apply Hk.
Qed.

Lemma keeps_try_except {A} (body : M app A) (handler : exn -> M app A) :
  keeps P body -> (forall err, keeps P (handler err)) ->
  keeps P (try_except body handler).
Proof.
  intros Hb Hh s Hs. unfold try_except. specialize (Hb s Hs).
  destruct (body s) as [[err|x] s']; [by apply Hh|exact Hb].
Qed.

Lemma keeps_for_each {A} (xs : list A) (body : A -> M app unit) :
  (forall x, x ∈ xs -> keeps P (body x)) -> keeps P (for_each xs body).
Proof.
  induction xs as [|x xs IH]; intros Hbody; [apply keeps_ret|].
  cbn [for_each]. apply keeps_bind.
  - apply Hbody, list_elem_of_here.
  - intros _. apply IH. intros y Hy. by apply Hbody, list_elem_of_further.
Qed.

Lemma keeps_widget (x : nat) : keeps P (widget x).
Proof.
  unfold widget. apply keeps_bind; [apply keeps_self_get|intros w].
  destruct (wm w); first [apply keeps_ret|apply keeps_raise].
Qed.

Lemma keeps_on_screen (x : nat) (handler : Window -> M app unit) :
  (forall w, keeps P (handler w)) -> keeps P (on_screen x handler).
Proof.
  intros Hh. unfold on_screen. apply keeps_bind; [apply keeps_self_get|intros w].
  destruct (wm w); first [apply Hh|apply keeps_ret].
Qed.

(** From here on [P] speaks of the registry and the heap only. *)
Hypothesis P_frame :
  forall s s', all_editors s' = all_editors s -> heap s' = heap s -> P s -> P s'.

Lemma keeps_modify (f : app -> app) :
  (forall s, all_editors (f s) = all_editors s /\ heap (f s) = heap s) ->
  keeps P (modify f).
Proof. intros Hf s Hs. destruct (Hf s) as [Hr Hh]. by apply (P_frame s). Qed.

Lemma keeps_save_settings (theme_name : json) : keeps P (save_settings theme_name).
Proof.
  unfold save_settings.
  repeat first [ apply keeps_gets | apply keeps_lift
               | apply keeps_bind; [|intros ?] ].
  intros s Hs. unfold json_dump. destruct (settings_denied (disk s)); [exact Hs|].
  by apply (P_frame s).
Qed.

Lemma keeps_load_settings : keeps P load_settings.
Proof.
  unfold load_settings.
  apply keeps_bind; [apply keeps_gets|intros [|]]; [|apply keeps_ret].
  apply keeps_try_except; [|intros _; apply keeps_ret].
  apply keeps_bind; [|intros j].
  { intros s Hs. unfold json_load. by destruct (settings (disk s)). }
  apply keeps_bind; [apply keeps_lift|intros has_custom].
  apply keeps_bind.
  - destruct has_custom; [|apply keeps_ret].
    apply keeps_bind; [apply keeps_lift|intros custom]. by apply keeps_modify.
  - intros _. apply keeps_bind; [apply keeps_lift|intros size].
    apply keeps_bind; [by apply keeps_modify|intros _; apply keeps_lift].
Qed.

Lemma styling_restyle_text (kw : dict) : styling (restyle_text kw).
Proof. by intros e. Qed.

Lemma styling_restyle_status (kw : dict) : styling (restyle_status kw).
Proof. by intros e. Qed.

(** Restyling one window, given that changing the widgets of that
    window keeps [P]. *)
Lemma keeps_restyle (x : nat) (theme_name size : json) :
  (forall f, styling f -> keeps P (self_upd x f)) ->
  keeps P (apply_theme x theme_name) /\ keeps P (apply_font_size x size).
Proof.
  intros Hupd. split; unfold apply_theme, apply_font_size;
    repeat first [ apply keeps_gets | apply keeps_lift | apply keeps_widget
                 | apply Hupd, styling_restyle_text
                 | apply Hupd, styling_restyle_status
                 | apply keeps_bind; [|intros ?] ].
Qed.

Lemma keeps_update_status (x : nat) :
  (forall f, styling f -> keeps P (self_upd x f)) ->
  keeps P (update_status x).
Proof.
  intros Hupd. unfold update_status.
  apply keeps_bind; [apply keeps_self_get|intros t].
  destruct (py_split "." (text_index_insert t)) as [|line [|column [|]]];
    first [apply keeps_raise|apply Hupd, styling_restyle_status].
Qed.

(** Both broadcasts, given that changing the widgets of a registered
    window keeps [P]. *)
Lemma keeps_broadcasts (selected : string) (size : Z) :
  (forall s, P s -> forall x f, x ∈ all_editors s -> styling f ->
             keeps P (self_upd x f)) ->
  keeps P (open_theme_settings.apply_theme selected) /\
  keeps P (open_font_size_settings.apply_font_size size).
Proof.
  intros Hupd. split.
  - unfold open_theme_settings.apply_theme.
    apply keeps_bind; [by apply keeps_modify|intros _].
    apply keeps_bind; [apply keeps_gets|intros theme].
    apply keeps_bind; [apply keeps_save_settings|intros _].
    intros s Hs. unfold bind, gets.
    apply keeps_for_each; [|exact Hs]. intros x Hx.
    apply (keeps_restyle x _ JNull). intros f Hf. by apply (Hupd s).
  - unfold open_font_size_settings.apply_font_size.
    apply keeps_bind; [by apply keeps_modify|intros _].
    apply keeps_bind; [apply keeps_gets|intros theme].
    apply keeps_bind; [apply keeps_save_settings|intros _].
    intros s Hs. unfold bind, gets.
    apply keeps_for_each; [|exact Hs]. intros x Hx.
    apply (keeps_restyle x JNull). intros f Hf. by apply (Hupd s).
Qed.

End Keeps.

(** *** The registry stays well formed *)

Section WellFormed.

Lemma well_formed_frame (s s' : app) :
  all_editors s' = all_editors s -> heap s' = heap s ->
  well_formed s -> well_formed s'.
Proof. intros Hr Hh (Hnd & Hobj & Hshape). split_and!; by rewrite ?Hr, ?Hh. Qed.

Lemma well_formed_self_upd (x : nat) (f : Editor -> Editor) :
  styling f -> keeps well_formed (self_upd x f).
Proof.
  intros Hf s (Hnd & Hobj & Hshape). split_and!; [exact Hnd| |]; cbn.
  - intros y Hy. apply lookup_alter_is_Some. by apply Hobj.
  - intros y e' Hy. apply lookup_alter_Some in Hy as [(_ & e & He & ->)|[_ He]].
    + destruct (Hf e) as [-> ->]. by apply (Hshape y).
    + by apply (Hshape y).
Qed.

Lemma well_formed_Editor_init (parent : list nat) (is_root : bool) :
  (is_root = true -> parent = []) ->
  keeps well_formed (Editor_init parent is_root).
Proof.
  intros Hparent s (Hnd & Hobj & Hshape). unfold Editor_init.
  set (self := fresh (dom (heap s))).
  assert (self ∉ all_editors s) as Hnew.
  { intros Hin. apply (is_fresh (dom (heap s))). fold self.
    by apply elem_of_dom, Hobj. }
  unfold bind at 1. unfold gets at 1. unfold bind at 1. unfold gets at 1.
  cbn zeta.
  unfold bind at 1. unfold modify at 1. unfold bind at 1. unfold modify at 1.
  cbn beta iota. fold self.
  match goal with
  | |- well_formed (snd (?m ?s')) => assert (keeps well_formed m) as Hrest
  end.
  { apply keeps_bind;
      [apply (keeps_update_status well_formed self), well_formed_self_upd|intros _].
    apply keeps_bind; [apply keeps_gets|intros theme].
    apply keeps_bind;
      [apply (keeps_restyle well_formed self theme JNull), well_formed_self_upd|].
    intros _. apply keeps_bind; [apply keeps_gets|intros size].
    apply keeps_bind; [|intros _; apply keeps_ret].
    apply (keeps_restyle well_formed self JNull size), well_formed_self_upd. }
  apply Hrest. split_and!; cbn.
  - apply NoDup_app. split; [exact Hnd|]. split.
    + intros x Hx Hs. apply list_elem_of_singleton in Hs as ->. by apply Hnew.
    + apply NoDup_singleton.
  - intros x Hx. apply elem_of_app in Hx as [Hx|Hx].
    + apply lookup_insert_is_Some'. right. by apply Hobj.
    + apply list_elem_of_singleton in Hx as ->.
      apply lookup_insert_is_Some'. by left.
  - intros x e Hx. apply lookup_insert_Some in Hx as [[_ <-]|[_ Hx]].
    + cbn. destruct is_root.
      * by rewrite Hparent.
      * split; [done|]. intros Happ. by apply app_nil in Happ as [_ ?].
    + by apply (Hshape x).
Qed.

Lemma well_formed_on_close (x : nat) : keeps well_formed (on_close x).
Proof.
  intros s Hs. destruct (decide (x ∈ all_editors s)) as [Hin|Hout].
  - destruct (list_remove_elem x _ Hin) as [eds' Hrem].
    destruct Hs as (Hnd & Hobj & Hshape). destruct (Hobj x Hin) as [e He].
    rewrite (on_close_ok s x e eds' He Hrem). cbn [snd]. cbn zeta.
    apply list_remove_Some in Hrem.
    assert (well_formed (set_heap (closed_heap x e (heap s)) (set_all_editors eds' s)))
      as Hwf.
    { split_and!; cbn.
      - rewrite Hrem in Hnd. by apply NoDup_cons in Hnd as [_ ?].
      - intros y Hy. rewrite (lookup_closed_heap _ _ _ _ He).
        apply fmap_is_Some, Hobj. rewrite Hrem. by apply list_elem_of_further.
      - intros y ey' Hy. rewrite (lookup_closed_heap _ _ _ _ He) in Hy.
        destruct (heap s !! y) as [ey|] eqn:Hey; [|discriminate].
        injection Hy as <-.
        destruct (after_close_same x y e ey) as (-> & -> & _).
        { intros ->. congruence. }
        by apply (Hshape y). }
    destruct (is_nil eds'); [|exact Hwf].
    by apply (well_formed_frame
                (set_heap (closed_heap x e (heap s)) (set_all_editors eds' s))).
  - by rewrite on_close_unregistered.
Qed.

Lemma well_formed_handle (ev : event) : keeps well_formed (handle ev).
Proof.
  destruct ev as [selected|size|x|x]; cbn [handle].
  - apply (keeps_broadcasts well_formed well_formed_frame selected 0).
    intros s _ y f _. apply well_formed_self_upd.
  - apply (keeps_broadcasts well_formed well_formed_frame EmptyString size).
    intros s _ y f _. apply well_formed_self_upd.
  - apply keeps_on_screen. intros w.
    apply keeps_bind; [by apply well_formed_Editor_init|intros _]. apply keeps_ret.
  - apply keeps_on_screen. intros _. apply well_formed_on_close.
Qed.

(** Whatever the disk holds at start-up and whatever happens
    afterwards, the registry is well formed. *)
Lemma well_formed_always (w : world) (evs : list event) :
  well_formed (run evs (exec main (fresh_process w))).
Proof.
  assert (keeps well_formed main) as Hmain.
  { unfold main.
    apply keeps_bind; [by apply keeps_load_settings, well_formed_frame|intros theme].
    apply keeps_bind; [|intros _; by apply well_formed_Editor_init].
    by apply (keeps_modify well_formed well_formed_frame). }
  assert (well_formed (exec main (fresh_process w))) as Hstart.
  { apply Hmain. split_and!; cbn; [apply NoDup_nil_2| |].
    - intros x Hx. by apply elem_of_nil in Hx.
    - intros x e Hx. by rewrite lookup_empty in Hx. }
  revert Hstart. generalize (exec main (fresh_process w)).
  induction evs as [|ev evs IH]; intros s Hs; [exact Hs|].
  cbn. apply IH. by apply well_formed_handle.
Qed.

End WellFormed.

(** ** Closing the windows one by one *)

Section CloseOrder.

Lemma is_nil_perm {A} (l1 l2 : list A) : l1 ≡ₚ l2 -> is_nil l1 = is_nil l2.
Proof.
  intros Hp. destruct l1, l2; try reflexivity.
  - by apply Permutation_nil_cons in Hp.
  - symmetry in Hp. by apply Permutation_nil_cons in Hp.
Qed.

Lemma set_wm_twice (w : wstate) (e : Editor) : set_wm w (set_wm w e) = set_wm w e.
Proof. reflexivity. Qed.

(** One [on_close] among well-formed windows, seen from a root
    object: only its own closing changes it. *)
Lemma after_close_root (s : app) (x y : nat) (ex ey : Editor) :
  well_formed s ->
  heap s !! x = Some ex -> heap s !! y = Some ey -> is_root ey = true ->
  after_close x ex y ey = if bool_decide (y = x) then set_wm Withdrawn ey else ey.
Proof.
  intros (_ & _ & Hshape) Hx Hy Hroot. unfold after_close.
  destruct (bool_decide_reflect (y = x)) as [->|Hne].
  - rewrite Hx in Hy. injection Hy as ->. by rewrite Hroot.
  - destruct (is_root ex) eqn:Hrx; [done|].
    apply gone_root.
    + intros Hp. apply (Hshape x ex Hx) in Hp. congruence.
    + by apply (Hshape y ey Hy).
Qed.

(** Closing the windows of [closing], in that order, out of a
    registry that holds them and those of [rest]. *)
Lemma close_many (closing : list nat) :
  forall (a : app) (rest : list nat),
    well_formed a ->
    closing ++ rest ≡ₚ all_editors a ->
    exists a',
      for_each closing on_close a = (inr tt, a') /\
      all_editors a' ≡ₚ rest /\
      mainloop_quit a' = mainloop_quit a || (is_nil rest && negb (is_nil closing)) /\
      (forall x e, heap a !! x = Some e ->
         exists e', heap a' !! x = Some e' /\ is_root e' = is_root e /\
                    (is_root e = true ->
                     e' = if bool_decide (x ∈ closing)
                          then set_wm Withdrawn e else e)).
Proof.
  induction closing as [|x closing IH]; intros a rest Hwf Hperm.
  - exists a. cbn. split_and!; [done|by symmetry| |].
    + by rewrite andb_false_r, orb_false_r.
    + intros x e Hx. exists e. split_and!; [done|done|].
      intros _. by rewrite bool_decide_eq_false_2 by apply not_elem_of_nil.
  - pose proof Hwf as (Hnd & Hheap & Hshape).
    assert (x ∈ all_editors a) as Hin.
    { rewrite <- Hperm. apply list_elem_of_here. }
    destruct (list_remove_elem x _ Hin) as [eds' Hrem].
    destruct (Hheap x Hin) as [ex Hx].
    pose proof (list_remove_Some _ _ _ Hrem) as Hperm'.
    assert (closing ++ rest ≡ₚ eds') as Hrest.
    { apply (Permutation_cons_inv (a := x)). by rewrite <- Hperm'. }
    pose proof (well_formed_on_close x a Hwf) as Hwf1.
    rewrite (on_close_ok a x ex eds' Hx Hrem) in Hwf1. cbn [snd] in Hwf1.
    cbn zeta in Hwf1.
    set (a0 := set_heap (closed_heap x ex (heap a)) (set_all_editors eds' a)) in *.
    set (a1 := if is_nil eds' then set_mainloop_quit true a0 else a0) in *.
    assert (all_editors a1 = eds') as Heds by (subst a1; by destruct (is_nil eds')).
    assert (heap a1 = closed_heap x ex (heap a)) as Hh
      by (subst a1; by destruct (is_nil eds')).
    assert (mainloop_quit a1 = mainloop_quit a || is_nil eds') as Hq.
    { subst a1. destruct (is_nil eds'); cbn;
        [by rewrite orb_true_r|by rewrite orb_false_r]. }
    destruct (IH a1 rest Hwf1) as (a' & Hrun & Hreg & Hquit & Hobj).
    { by rewrite Heds. }
    exists a'. cbn [for_each]. unfold bind.
    rewrite (on_close_ok a x ex eds' Hx Hrem). cbn zeta.
    fold a0. fold a1. split_and!.
    + exact Hrun.
    + exact Hreg.
    + rewrite Hquit, Hq. cbn [is_nil negb]. rewrite andb_true_r.
      rewrite <- (is_nil_perm _ _ Hrest).
      destruct closing, rest; cbn; by rewrite ?orb_true_r, ?orb_false_r.
    + intros y e Hy.
      assert (heap a1 !! y = Some (after_close x ex y e)) as Hy1.
      { by rewrite Hh, (lookup_closed_heap _ _ _ _ Hx), Hy. }
      destruct (Hobj y _ Hy1) as (e' & He' & Hroot & Hwhen).
      destruct (after_close_same x y ex e) as (Hr1 & _ & _).
      { intros ->. congruence. }
      exists e'. split_and!; [exact He'|by rewrite Hroot|].
      intros Hre. rewrite Hr1 in Hwhen. rewrite (Hwhen Hre).
      rewrite (after_close_root a x y ex e Hwf Hx Hy Hre).
      destruct (bool_decide_reflect (y = x)) as [->|Hne].
      * rewrite (bool_decide_eq_true_2 (x ∈ x :: closing))
          by apply list_elem_of_here.
        by destruct (bool_decide (x ∈ closing)).
      * destruct (decide (y ∈ closing)) as [Hc|Hc].
        -- rewrite !bool_decide_eq_true_2;
             [done|by apply list_elem_of_further|done].
        -- rewrite !bool_decide_eq_false_2; [done| |done].
           intros Hc'. apply elem_of_cons in Hc' as [?|?]; congruence.
Qed.

End CloseOrder.

(** C9. In a state with a well-formed registry and the main loop
    running, let the registered windows be closed in any order.  After
    any number of them the remaining registry is what is left of the
    order; the main loop has been told to quit exactly if a window was
    closed and the registry is now empty; and every root window that was
    closed is withdrawn, not destroyed, whatever was closed after it. *)
Theorem close_order_terminates (a : app) (order : list nat) :
  well_formed a ->
  order ≡ₚ all_editors a ->
  mainloop_quit a = false ->
  forall closing rest : list nat,
    order = (closing ++ rest)%list ->
    exists a',
      for_each closing on_close a = (inr tt, a') /\
      all_editors a' ≡ₚ rest /\
      (mainloop_quit a' = true <-> closing <> [] /\ all_editors a' = []) /\
      (forall x e', x ∈ closing -> heap a' !! x = Some e' -> is_root e' = true ->
                    wm (window e') = Withdrawn).
Proof.
  intros Hwf Hperm Hq closing rest ->.
  destruct (close_many closing a rest Hwf Hperm) as (a' & Hrun & Hreg & Hquit & Hobj).
  exists a'. split_and!; [exact Hrun|exact Hreg| |].
  - rewrite Hquit, Hq. cbn [orb]. rewrite <- (is_nil_perm _ _ Hreg).
    destruct closing, (all_editors a'); cbn; split; try done.
    all: by intros [? ?].
  - intros x e' Hin He' Hroot.
    destruct Hwf as (_ & Hheap & _).
    assert (x ∈ all_editors a) as Hx.
    { rewrite <- Hperm. apply elem_of_app. by left. }
    destruct (Hheap x Hx) as [e He].
    destruct (Hobj x e He) as (e'' & He'' & Hr & Hc).
    rewrite He' in He''. injection He'' as <-.
    rewrite Hc by (by rewrite <- Hr).
    by rewrite bool_decide_eq_true_2.
Qed.

Lemma three_windows_well_formed : well_formed three_windows.
Proof.
  split_and!; cbn.
  - repeat (apply NoDup_cons; split;
            [rewrite ?elem_of_cons, elem_of_nil; intros H; decompose [or] H;
             congruence|]).
    apply NoDup_nil_2.
  - intros x Hx.
    repeat (apply elem_of_cons in Hx as [->|Hx]; [by eexists|]).
    by apply elem_of_nil in Hx.
  - intros x e Hx.
    repeat (apply lookup_insert_Some in Hx as [[_ <-]|[_ Hx]]; [by split|]).
    apply lookup_singleton_Some in Hx as [_ <-]. by split.
Defined.

Lemma close_order_terminates_witness :
  (exists a',
     for_each [1; 0] on_close three_windows = (inr tt, a') /\
     all_editors a' ≡ₚ [2] /\
     (mainloop_quit a' = true <-> [1; 0] <> [] /\ all_editors a' = []) /\
     (forall x e', x ∈ [1; 0] -> heap a' !! x = Some e' -> is_root e' = true ->
                   wm (window e') = Withdrawn)) /\
  (exists a',
     for_each [2; 1; 0] on_close three_windows = (inr tt, a') /\
     all_editors a' ≡ₚ [] /\
     (mainloop_quit a' = true <-> [2; 1; 0] <> [] /\ all_editors a' = []) /\
     (forall x e', x ∈ [2; 1; 0] -> heap a' !! x = Some e' -> is_root e' = true ->
                   wm (window e') = Withdrawn)).
Proof.
  split.
  - refine (close_order_terminates three_windows [1; 0; 2] three_windows_well_formed
              _ eq_refl [1; 0] [2] eq_refl).
    apply perm_swap.
  - refine (close_order_terminates three_windows [2; 1; 0] three_windows_well_formed
              _ eq_refl [2; 1; 0] [] eq_refl).
    symmetry. apply (Permutation_rev [0; 1; 2]).
Defined.

(** ** After the root window was closed *)

Section AfterRootClosed.

Context (root : nat) (e : Editor).
Hypothesis e_root : is_root e = true.

Lemma retired_frame (s s' : app) :
  all_editors s' = all_editors s -> heap s' = heap s ->
  retired root e s -> retired root e s'.
Proof. intros Hr Hh [Hreg Hobj]. split; by rewrite ?Hr, ?Hh. Qed.

Lemma settled_frame (s s' : app) :
  all_editors s' = all_editors s -> heap s' = heap s ->
  settled root e s -> settled root e s'.
Proof.
  intros Hr Hh [Hwf Hret].
  split; [by apply (well_formed_frame s)|by apply (retired_frame s)].
Qed.

Lemma retired_self_upd (x : nat) (f : Editor -> Editor) :
  x <> root -> keeps (retired root e) (self_upd x f).
Proof.
  intros Hne s [Hreg Hobj]. split; [exact Hreg|].
  cbn. by rewrite lookup_alter_ne.
Qed.

Lemma settled_self_upd (s : app) (x : nat) (f : Editor -> Editor) :
  settled root e s -> x ∈ all_editors s -> styling f ->
  keeps (settled root e) (self_upd x f).
Proof.
  intros [_ [Hreg _]] Hx Hf s' [Hwf Hret]. split.
  - by apply well_formed_self_upd.
  - apply retired_self_upd; [|exact Hret]. by intros ->.
Qed.

(** A new object never takes the place of [root]. *)
Lemma settled_Editor_init (parent : list nat) :
  keeps (settled root e) (Editor_init parent false).
Proof.
  intros s [Hwf [Hreg Hobj]]. split; [by apply well_formed_Editor_init|].
  unfold Editor_init.
  set (self := fresh (dom (heap s))).
  assert (self <> root) as Hne.
  { intros Heq. apply (is_fresh (dom (heap s))). fold self. rewrite Heq.
    apply elem_of_dom. by eexists. }
  unfold bind at 1. unfold gets at 1. unfold bind at 1. unfold gets at 1.
  cbn zeta.
  unfold bind at 1. unfold modify at 1. unfold bind at 1. unfold modify at 1.
  cbn beta iota. fold self.
  match goal with
  | |- retired _ _ (snd (?m ?s')) => assert (keeps (retired root e) m) as Hrest
  end.
  { apply keeps_bind.
    { apply (keeps_update_status (retired root e) self).
      intros f _. by apply retired_self_upd. }
    intros _. apply keeps_bind; [apply keeps_gets|intros theme].
    apply keeps_bind.
    { apply (keeps_restyle (retired root e) self theme JNull).
      intros f _. by apply retired_self_upd. }
    intros _. apply keeps_bind; [apply keeps_gets|intros size].
    apply keeps_bind; [|intros _; apply keeps_ret].
    apply (keeps_restyle (retired root e) self JNull size).
    intros f _. by apply retired_self_upd. }
  apply Hrest. split; cbn.
  - rewrite elem_of_app, list_elem_of_singleton. intros [?|?]; congruence.
  - by rewrite lookup_insert_ne.
Qed.

(** Closing another window leaves [root] as it is: a root window is
    under no window that [destroy] is called on. *)
Lemma settled_on_close (x : nat) : keeps (settled root e) (on_close x).
Proof.
  intros s [Hwf [Hreg Hobj]]. split; [by apply well_formed_on_close|].
  destruct (decide (x ∈ all_editors s)) as [Hin|Hout].
  - destruct (list_remove_elem x _ Hin) as [eds' Hrem].
    assert (x <> root) as Hne by (by intros ->).
    pose proof Hwf as (_ & Hheap & _). destruct (Hheap x Hin) as [ex Hx].
    rewrite (on_close_ok s x ex eds' Hx Hrem). cbn [snd]. cbn zeta.
    apply list_remove_Some in Hrem.
    assert (retired root e
              (set_heap (closed_heap x ex (heap s)) (set_all_editors eds' s)))
      as Hret.
    { split; cbn.
      - intros Hr. apply Hreg. rewrite Hrem. by apply list_elem_of_further.
      - rewrite (lookup_closed_heap _ _ _ _ Hx), Hobj. cbn. f_equal.
        rewrite (after_close_root s x root ex e Hwf Hx Hobj e_root).
        by rewrite bool_decide_eq_false_2 by congruence. }
    destruct (is_nil eds'); [|exact Hret].
    by apply (retired_frame
                (set_heap (closed_heap x ex (heap s)) (set_all_editors eds' s))).
  - rewrite on_close_unregistered by done. by split.
Qed.

(** A loop over the registry never meets [root]. *)
Lemma settled_handle (ev : event) : keeps (settled root e) (handle ev).
Proof.
  destruct ev as [selected|size|x|x]; cbn [handle].
  - apply (keeps_broadcasts (settled root e) settled_frame selected 0).
    intros s Hs y f Hy Hf. by apply (settled_self_upd s).
  - apply (keeps_broadcasts (settled root e) settled_frame EmptyString size).
    intros s Hs y f Hy Hf. by apply (settled_self_upd s).
  - apply keeps_on_screen. intros w.
    apply keeps_bind; [apply settled_Editor_init|intros _]. apply keeps_ret.
  - apply keeps_on_screen. intros _. apply settled_on_close.
Qed.

Lemma settled_run (evs : list event) (s : app) :
  settled root e s -> settled root e (run evs s).
Proof.
  revert s. induction evs as [|ev evs IH]; intros s Hs; [exact Hs|].
  cbn. apply IH. by apply settled_handle.
Qed.

End AfterRootClosed.

(** ** Broadcasts *)

Lemma dict_set_twice (k : string) (v : json) (d : dict) :
  dict_set k v (dict_set k v d) = dict_set k v d.
Proof.
  induction d as [|[k' v'] d IH]; cbn.
  - by rewrite String.eqb_refl.
  - destruct (String.eqb k k') eqn:E; cbn.
    + by rewrite String.eqb_refl.
    + by rewrite E, IH.
Qed.

Lemma resized_twice (size : json) (e : Editor) :
  resized size (resized size e) = resized size e.
Proof.
  unfold resized, restyle_text, text_config, config. cbn. by rewrite dict_set_twice.
Qed.

Lemma widget_ok (a : app) (x : nat) (e : Editor) :
  heap a !! x = Some e -> exists_window e -> widget x a = (inr tt, a).
Proof.
  intros H Hw. unfold widget, bind. rewrite (self_get_ok a x e _ H).
  unfold exists_window in Hw. by destruct (wm (window e)).
Qed.

Lemma widget_gone (a : app) (x : nat) (e : Editor) :
  heap a !! x = Some e -> wm (window e) = Destroyed ->
  widget x a = (inl TclError, a).
Proof.
  intros H Hw. unfold widget, bind. rewrite (self_get_ok a x e _ H). by rewrite Hw.
Qed.

Lemma apply_font_size_ok (a : app) (x : nat) (e : Editor) (size : json) :
  heap a !! x = Some e -> exists_window e ->
  apply_font_size x size a = (inr tt, put x (resized size e) a).
Proof.
  intros H Hw. unfold apply_font_size, bind. rewrite (widget_ok a x e H Hw).
  by rewrite (self_upd_ok a x e _ H).
Qed.

(** The widgets of a destroyed window cannot be configured. *)
Lemma apply_font_size_gone (a : app) (x : nat) (e : Editor) (size : json) :
  heap a !! x = Some e -> wm (window e) = Destroyed ->
  apply_font_size x size a = (inl TclError, a).
Proof.
  intros H Hw. unfold apply_font_size, bind. by rewrite (widget_gone a x e H Hw).
Qed.

Lemma for_each_apply_font_size (size : json) (l : list nat) :
  forall a : app,
    (forall x, x ∈ l -> exists ex, heap a !! x = Some ex /\ exists_window ex) ->
    exists a',
      for_each l (fun x => apply_font_size x size) a = (inr tt, a') /\
      all_editors a' = all_editors a /\
      forall x ex, heap a !! x = Some ex ->
                   heap a' !! x = Some (if bool_decide (x ∈ l)
                                        then resized size ex else ex).
Proof.
  induction l as [|y l IH]; intros a Hheap.
  - exists a. split_and!; [done|done|]. intros x ex Hx.
    by rewrite bool_decide_eq_false_2 by apply not_elem_of_nil.
  - destruct (Hheap y (list_elem_of_here _ _)) as (ey & Hy & Hwy).
    destruct (IH (put y (resized size ey) a)) as (a' & Hrun & Hreg & Hobj).
    { intros x Hx. destruct (decide (y = x)) as [<-|Hne].
      - rewrite heap_put. by eexists.
      - rewrite heap_put_ne by done. by apply Hheap, list_elem_of_further. }
    exists a'. cbn [for_each]. unfold bind.
    rewrite (apply_font_size_ok a y ey size Hy Hwy). split_and!; [done|done|].
    intros x ex Hx. destruct (decide (y = x)) as [<-|Hne].
    + rewrite (Hobj y (resized size ey) (heap_put _ _ _)).
      rewrite Hy in Hx. injection Hx as <-.
      rewrite (bool_decide_eq_true_2 (y ∈ y :: l)) by apply list_elem_of_here.
      destruct (bool_decide (y ∈ l)); by rewrite ?resized_twice.
    + rewrite (Hobj x ex) by (by rewrite heap_put_ne).
      f_equal. destruct (decide (x ∈ l)) as [Hin|Hout].
      * rewrite !bool_decide_eq_true_2; [done|by apply list_elem_of_further|done].
      * rewrite !bool_decide_eq_false_2; [done| |done].
        intros Hc. apply elem_of_cons in Hc as [?|?]; congruence.
Qed.

(** X5. When the settings file can be written and every registered
    window exists, the "Apply" button of the font-size dialog, with a
    size the slider can give, does not raise, gives each registered
    window the new font size, and changes no other object: a window that
    was closed keeps the font it had. *)
Lemma font_broadcast_reaches_registry (a : app) (size : Z) :
  slider_size size ->
  settings_denied (disk a) = false ->
  is_Some (dict_get "Custom" (THEMES a)) ->
  (forall x, x ∈ all_editors a ->
             exists ex, heap a !! x = Some ex /\ exists_window ex) ->
  raised (open_font_size_settings.apply_font_size size) a = None /\
  forall x ex, heap a !! x = Some ex ->
    heap (exec (open_font_size_settings.apply_font_size size) a) !! x
    = Some (if bool_decide (x ∈ all_editors a)
            then resized (JNum size) ex else ex).
Proof.
  intros _ Hd [C HC] Hheap.
  assert (exists a', open_font_size_settings.apply_font_size size a = (inr tt, a') /\
            forall x ex, heap a !! x = Some ex ->
              heap a' !! x = Some (if bool_decide (x ∈ all_editors a)
                                   then resized (JNum size) ex else ex))
    as (a' & Hrun & Hobj).
  { unfold open_font_size_settings.apply_font_size.
    unfold bind at 1. unfold modify at 1. unfold bind at 1. unfold gets at 1.
    unfold bind at 1.
    rewrite (save_settings_ok (set_current_font_size (JNum size) a) _ C HC Hd).
    unfold bind at 1. unfold gets at 1. unfold bind at 1. unfold gets at 1.
    cbn [all_editors set_disk set_current_font_size current_font_size].
    match goal with
    | |- context [for_each _ _ ?s] =>
        destruct (for_each_apply_font_size (JNum size) (all_editors a) s)
          as (a' & Hrun & _ & Hobj); [exact Hheap|]
    end.
    exists a'. split; [exact Hrun|]. intros x ex Hx. by apply Hobj. }
  unfold raised, exec. rewrite Hrun. split; [done|exact Hobj].
Qed.

(** A window destroyed along with the window it was opened from is
    still registered: the next broadcast stops at it with [TclError], and
    its own close button is gone with it. *)
Lemma destroyed_with_parent_stays_registered :
  let a := exec (handle (CloseWindow 1)) three_windows in
  all_editors a = [0; 2] /\
  wm <$> (window <$> heap a !! 2) = Some Destroyed /\
  raised (handle (ApplyFontSize 20)) a = Some TclError /\
  exec (handle (CloseWindow 2)) a = a.
Proof. vm_compute. by split_and!. Qed.

(** C10. In a state with a well-formed registry, closing the root
    window takes it out of the registry and leaves the object withdrawn,
    whether or not other windows remain, and the other windows stay
    registered.  From then on, through any sequence of theme and
    font-size broadcasts, windows opened and windows closed, the root
    stays out of the registry and its widgets keep exactly the options
    they had: no broadcast reaches it. *)
Theorem closed_root_not_restyled
    (a : app) (root : nat) (e : Editor) (evs : list event) :
  well_formed a ->
  heap a !! root = Some e ->
  is_root e = true ->
  root ∈ all_editors a ->
  let a1 := exec (on_close root) a in
  let a2 := run evs a1 in
  raised (on_close root) a = None /\
  (root ∉ all_editors a1) /\
  heap a1 !! root = Some (set_wm Withdrawn e) /\
  (forall x, x <> root -> x ∈ all_editors a -> x ∈ all_editors a1) /\
  (root ∉ all_editors a2) /\
  heap a2 !! root = Some (set_wm Withdrawn e).
Proof.
  intros Hwf Hobj Hroot Hin a1 a2.
  pose proof Hwf as (Hnd & _ & _).
  destruct (list_remove_elem root _ Hin) as [eds' Hrem].
  pose proof (list_remove_Some _ _ _ Hrem) as Hperm.
  assert (root ∉ eds') as Hout.
  { rewrite Hperm in Hnd. by apply NoDup_cons in Hnd as [? _]. }
  pose proof (well_formed_on_close root a Hwf) as Hwf1.
  fold (exec (on_close root) a) in Hwf1. fold a1 in Hwf1.
  assert (a1 = let a' := set_heap (closed_heap root e (heap a))
                                  (set_all_editors eds' a) in
               if is_nil eds' then set_mainloop_quit true a' else a') as Ha1.
  { subst a1. unfold exec. by rewrite (on_close_ok a root e eds' Hobj Hrem). }
  assert (all_editors a1 = eds') as Hreg.
  { rewrite Ha1. cbn zeta. by destruct (is_nil eds'). }
  assert (heap a1 !! root = Some (set_wm Withdrawn e)) as Hobj1.
  { rewrite Ha1. cbn zeta.
    assert (closed_heap root e (heap a) !! root = Some (set_wm Withdrawn e)) as H.
    { rewrite (lookup_closed_heap _ _ _ _ Hobj), Hobj.
      change (Some (after_close root e root e) = Some (set_wm Withdrawn e)).
      by rewrite (after_close_self root e), Hroot. }
    by destruct (is_nil eds'). }
  assert (settled root (set_wm Withdrawn e) a1) as Hset.
  { split; [exact Hwf1|]. split; [by rewrite Hreg|exact Hobj1]. }
  destruct (settled_run root (set_wm Withdrawn e) Hroot evs a1 Hset)
    as [_ [Hreg2 Hobj2]].
  split_and!.
  - unfold raised. by rewrite (on_close_ok a root e eds' Hobj Hrem).
  - by rewrite Hreg.
  - exact Hobj1.
  - intros x Hne Hx. rewrite Hreg. rewrite Hperm in Hx.
    apply elem_of_cons in Hx as [?|?]; [congruence|done].
  - exact Hreg2.
  - exact Hobj2.
Qed.

Lemma closed_root_not_restyled_witness :
  (2 ∈ all_editors (exec (on_close 0) three_windows)) /\
  (0 ∉ all_editors
         (run [ApplyTheme "Dark"; OpenNewWindow 1; CloseWindow 1; ApplyFontSize 20]
              (exec (on_close 0) three_windows))) /\
  heap (run [ApplyTheme "Dark"; OpenNewWindow 1; CloseWindow 1; ApplyFontSize 20]
            (exec (on_close 0) three_windows)) !! 0
  = Some (set_wm Withdrawn untouched).
Proof.
  pose proof (closed_root_not_restyled three_windows 0 untouched
                [ApplyTheme "Dark"; OpenNewWindow 1; CloseWindow 1; ApplyFontSize 20]
                three_windows_well_formed eq_refl eq_refl (list_elem_of_here _ _))
    as (_ & _ & _ & Hkept & Hout & Hsame).
  split; [|split; [exact Hout|exact Hsame]].
  apply Hkept; [discriminate|]. cbn. rewrite !elem_of_cons. tauto.
Defined.

(** * Further properties *)

(** ** Start-up *)

Ltac load_settings_cases a Hs :=
  destruct (settings (disk a)) as [| |[| | | | |d]] eqn:Hs;
  unfold load_settings, bind, gets, try_except, json_load, settings_exists;
  rewrite Hs; cbn; rewrite ?Hs; cbn.

Lemma load_settings_returns (a : app) :
  exists theme a',
    load_settings a = (inr theme, a') /\
    all_editors a' = all_editors a /\ heap a' = heap a /\ disk a' = disk a /\
    mainloop_quit a' = mainloop_quit a.
Proof.
  load_settings_cases a Hs; try (by eexists _, _).
  - destruct (substring_of "custom_theme" s); cbn; by eexists _, _.
  - destruct (existsb (is_str "custom_theme") items); cbn; by eexists _, _.
  - destruct (dict_get "custom_theme" d); cbn; by eexists _, _.
Qed.

(** X1. [load_settings] never raises, whatever the settings file
    holds, and it touches neither the windows nor the disk.  A file that
    is missing, unreadable as JSON, or holds anything but a JSON object
    (a list, a string, a number) gives theme ["Light"] and leaves every
    global as it was.  A JSON object gives its [current_theme] (default
    ["Light"]) and [font_size] (default 12), whatever their type, and its
    [custom_theme], if any, replaces [THEMES["Custom"]] as it is. *)
Theorem load_settings_never_raises (a : app) :
  exists theme a',
    load_settings a = (inr theme, a') /\
    all_editors a' = all_editors a /\ heap a' = heap a /\ disk a' = disk a /\
    match settings (disk a) with
    | SJson (JObj d) =>
        theme = default (JStr "Light") (dict_get "current_theme" d) /\
        current_font_size a' = default (JNum 12) (dict_get "font_size" d) /\
        THEMES a' = match dict_get "custom_theme" d with
                    | Some c => dict_set "Custom" c (THEMES a)
                    | None => THEMES a
                    end
    | _ => theme = JStr "Light" /\ a' = a
    end.
Proof.
  load_settings_cases a Hs; try (by eexists _, _).
  - destruct (substring_of "custom_theme" s); cbn; by eexists _, _.
  - destruct (existsb (is_str "custom_theme") items); cbn; by eexists _, _.
  - destruct (dict_get "custom_theme" d) as [c|]; cbn;
      eexists _, _; split_and!; try reflexivity;
      by destruct (dict_get "current_theme" d), (dict_get "font_size" d).
Qed.

(** ** Restyling one window *)

Lemma complete_theme_fields (theme : json) :
  complete_theme theme = true ->
  exists d, theme = JObj d /\
    Forall (fun k => is_Some (dict_get k d)) theme_fields.
Proof.
  destruct theme as [| | | | |d]; try discriminate. intros H.
  exists d. split; [done|]. apply Forall_forall. intros k Hk.
  unfold complete_theme in H. rewrite forallb_forall in H.
  specialize (H k). rewrite <- list_elem_of_In in H.
  by apply bool_decide_eq_true in H; [|exact Hk].
Qed.

Lemma exists_window_put_styled (e : Editor) (f : Editor -> Editor) :
  styling f -> exists_window e -> exists_window (f e).
Proof. intros Hf He. unfold exists_window. by destruct (Hf e) as [_ ->]. Qed.

Lemma apply_theme_ok (a : app) (x : nat) (e : Editor) (name theme : json) :
  themes_lookup (THEMES a) name = inr theme ->
  complete_theme theme = true ->
  heap a !! x = Some e ->
  exists_window e ->
  apply_theme x name a = (inr tt, put x (themed theme e) a).
Proof.
  intros Hl Hc Hx Hw.
  destruct (complete_theme_fields theme Hc) as (d & -> & Hd).
  unfold theme_fields in Hd.
  repeat (apply Forall_cons in Hd as [[? ?] Hd]).
  unfold apply_theme, bind, gets. rewrite Hl. cbn [lift ret].
  unfold themed, colour, py_getitem.
  repeat match goal with H : dict_get _ d = Some _ |- _ => rewrite H; clear H end.
  cbn [lift ret].
  rewrite (widget_ok a x e Hx Hw), (self_upd_ok a x e _ Hx).
  erewrite widget_ok;
    [|apply heap_put|by apply exists_window_put_styled, Hw; apply styling_restyle_text].
  erewrite self_upd_ok by apply heap_put.
  by rewrite put_put.
Qed.

(** A theme that is missing, or lacks a colour, makes [apply_theme]
    raise on any window. *)
Lemma apply_theme_raises (a : app) (x : nat) (name : json) :
  (forall theme, themes_lookup (THEMES a) name = inr theme ->
                 complete_theme theme = false) ->
  exists err, fst (apply_theme x name a) = inl err.
Proof.
  intros Hbad. unfold apply_theme, bind, gets.
  destruct (themes_lookup (THEMES a) name) as [err|theme] eqn:Hl;
    [by eexists|].
  specialize (Hbad theme eq_refl).
  destruct theme as [| | | | |d]; try by eexists.
  unfold complete_theme, theme_fields in Hbad. cbn [forallb] in Hbad.
  cbn [lift ret]. unfold py_getitem.
  destruct (dict_get "bg" d); [|by eexists].
  destruct (dict_get "fg" d); [|by eexists].
  destruct (dict_get "insertbackground" d); [|by eexists].
  destruct (dict_get "selectbackground" d); [|by eexists].
  destruct (dict_get "selectforeground" d); [|by eexists].
  cbn [lift ret].
  destruct (widget x a) as [[err|[]] a1]; [by eexists|].
  unfold self_upd at 1, modify at 1.
  destruct (dict_get "status_bg" d); [|by eexists].
  destruct (dict_get "status_fg" d); [|by eexists].
  exfalso. revert Hbad. rewrite !bool_decide_eq_true_2 by (by eexists). done.
Qed.

(** ** Building a window *)

Lemma heap_constructed (parent : list nat) (is_root : bool) (a : app) :
  heap (constructed parent is_root a) !! fresh (dom (heap a))
  = Some (unstyled parent is_root (fresh (dom (heap a))) (current_font_size a)).
Proof. cbn. apply lookup_insert_eq. Qed.

(** The call of [update_status] that ends [_setup_bindings] writes the
    text the status bar was built with. *)
Lemma update_status_constructed (parent : list nat) (is_root : bool) (a : app) :
  update_status (fresh (dom (heap a))) (constructed parent is_root a)
  = (inr tt, constructed parent is_root a).
Proof.
  unfold update_status, bind, self_get. rewrite heap_constructed.
  cbn [ret unstyled text_area].
  change (py_split "." (text_index_insert (new_text_area (current_font_size a))))
    with ["1"; "0"].
  unfold self_upd, modify. f_equal.
  unfold constructed. cbn. f_equal.
  rewrite alter_insert_eq. reflexivity.
Qed.

Lemma Editor_init_constructed (parent : list nat) (is_root : bool) (a : app) :
  Editor_init parent is_root a =
  (let self := fresh (dom (heap a)) in
   theme <- gets current_theme;;
   apply_theme self theme;;
   size <- gets current_font_size;;
   apply_font_size self size;;
   ret self) (constructed parent is_root a).
Proof.
  unfold Editor_init.
  unfold bind at 1, gets at 1. unfold bind at 1, gets at 1. cbn zeta.
  unfold bind at 1, modify at 1. unfold bind at 1, modify at 1. cbn beta iota.
  unfold bind at 1.
  change (update_status (fresh (dom (heap a))) _)
    with (update_status (fresh (dom (heap a))) (constructed parent is_root a)).
  by rewrite update_status_constructed.
Qed.

(** The window that [Editor(parent, is_root)] leaves when the current
    theme has every colour. *)
Lemma Editor_init_ok (parent : list nat) (is_root : bool) (a : app) (theme : json) :
  themes_lookup (THEMES a) (current_theme a) = inr theme ->
  complete_theme theme = true ->
  let self := fresh (dom (heap a)) in
  Editor_init parent is_root a =
    (inr self,
     put self (resized (current_font_size a)
                 (themed theme (unstyled parent is_root self (current_font_size a))))
         (constructed parent is_root a)).
Proof.
  intros Hl Hc self. rewrite Editor_init_constructed. fold self.
  unfold bind, gets.
  erewrite apply_theme_ok; [|exact Hl|exact Hc|apply heap_constructed|done].
  erewrite apply_font_size_ok; [|apply heap_put|done].
  by rewrite put_put.
Qed.

(** [main] up to the construction of the root editor. *)
Lemma main_constructed (w : world) :
  exists a2,
    startup_theme w = themes_lookup (THEMES a2) (current_theme a2) /\
    main (fresh_process w) = Editor_init [] true a2.
Proof.
  destruct (load_settings_returns (fresh_process w))
    as (name & a1 & Hload & _ & _ & _ & _).
  exists (set_current_theme name a1). split.
  - unfold startup_theme. by rewrite Hload.
  - unfold main, bind. by rewrite Hload.
Qed.

(** A missing or incomplete start-up theme stops [main]. *)
Lemma main_raises (w : world) :
  (forall theme, startup_theme w = inr theme -> complete_theme theme = false) ->
  exists err, raised main (fresh_process w) = Some err.
Proof.
  intros Hbad. unfold raised.
  destruct (main_constructed w) as (a2 & Hst & ->).
  rewrite Hst in Hbad.
  rewrite Editor_init_constructed. unfold bind at 1, gets at 1. unfold bind at 1.
  destruct (apply_theme_raises (constructed [] true a2)
              (fresh (dom (heap a2))) (current_theme a2) Hbad) as [err Herr].
  change (current_theme (constructed [] true a2)) with (current_theme a2).
  destruct (apply_theme _ _ _) as [[?|?] ?]; [by eexists|discriminate].
Qed.

(** X2. Whether the editor starts is decided by the theme the
    settings file names.  When [THEMES[current_theme]], as
    [load_settings] leaves the two, does not exist or lacks one of the
    seven colours, [main] raises while it builds the root window.  When
    it has all seven, each a colour the toolkit is known to accept, and
    the font size is one the slider can give, [main] returns. *)
Theorem startup_needs_complete_theme (w : world) :
  ((forall theme, startup_theme w = inr theme -> complete_theme theme = false) ->
   exists err, raised main (fresh_process w) = Some err) /\
  (forall theme n,
     startup_theme w = inr theme -> paintable theme = true ->
     current_font_size (exec load_settings (fresh_process w)) = JNum n ->
     slider_size n ->
     raised main (fresh_process w) = None).
Proof.
  split; [apply main_raises|].
  intros theme n Hst Hp _ _. apply andb_true_iff in Hp as [Hc _]. unfold raised.
  destruct (main_constructed w) as (a2 & Hst' & ->).
  rewrite Hst' in Hst.
  by rewrite (Editor_init_ok [] true a2 theme Hst Hc).
Qed.

Lemma startup_needs_complete_theme_witness :
  (exists err, raised main (fresh_process partial_settings) = Some err) /\
  raised main (fresh_process locked_disk) = None.
Proof.
  split.
  - apply (proj1 (startup_needs_complete_theme partial_settings)).
    intros theme. vm_compute. by intros [= <-].
  - apply (proj2 (startup_needs_complete_theme locked_disk)
             (JObj [ ("bg", JStr "white"); ("fg", JStr "black");
                     ("insertbackground", JStr "black");
                     ("selectbackground", JStr "lightblue");
                     ("selectforeground", JStr "black");
                     ("status_bg", JStr "lightgray");
                     ("status_fg", JStr "black") ]) 12%Z
             eq_refl eq_refl eq_refl).
    unfold slider_size. lia.
Defined.

(** ** What restyling leaves alone *)

Lemma only_object_refl (x : nat) (a : app) : only_object x a a.
Proof. split; [by destruct a|done]. Qed.

Lemma only_object_self_upd (x : nat) (a : app) (f : Editor -> Editor) :
  keeps (only_object x a) (self_upd x f).
Proof.
  intros s [Hs Hy]. split; cbn.
  - rewrite Hs at 2. by destruct a.
  - intros y Hne. rewrite lookup_alter_ne by done. by apply Hy.
Qed.

(** Whether they return or raise, [apply_theme] and [apply_font_size]
    on [x] change nothing but the object at [x]. *)
Lemma restyle_only_object (x : nat) (name size : json) (a : app) :
  only_object x a (snd (apply_theme x name a)) /\
  only_object x a (snd (apply_font_size x size a)).
Proof.
  destruct (keeps_restyle (only_object x a) x name size) as [Ht Hf].
  { intros f _. apply only_object_self_upd. }
  split; [apply Ht|apply Hf]; apply only_object_refl.
Qed.

(** X3. Choosing the Custom theme while [THEMES["Custom"]] lacks a
    colour (or is no dict at all) fails, but only after the choice was
    made the current theme and written to the settings file; the windows
    after the first are not touched.  The file then names a theme the
    next process cannot build its first window with: [main] raises at
    every later start. *)
Theorem broken_custom_theme_persists
    (a : app) (C : json) (x : nat) (rest : list nat) :
  dict_get "Custom" (THEMES a) = Some C ->
  complete_theme C = false ->
  settings_denied (disk a) = false ->
  all_editors a = x :: rest ->
  let a' := exec (handle (ApplyTheme "Custom")) a in
  (exists err, raised (handle (ApplyTheme "Custom")) a = Some err) /\
  current_theme a' = JStr "Custom" /\
  settings (disk a')
    = SJson (JObj [ ("current_theme", JStr "Custom"); ("custom_theme", C);
                    ("font_size", current_font_size a) ]) /\
  (forall y, y <> x -> heap a' !! y = heap a !! y) /\
  (exists err, raised main (fresh_process (disk a')) = Some err).
Proof.
  intros HC Hbad Hd Hreg a'.
  set (s1 := set_current_theme (JStr "Custom") a).
  pose proof (save_settings_ok s1 (JStr "Custom") C HC Hd) as Hsave.
  set (s2 := set_disk _ s1) in Hsave.
  destruct (apply_theme_raises s2 x (JStr "Custom")) as [err Herr].
  { intros theme. cbn. rewrite HC. by intros [= <-]. }
  destruct (restyle_only_object x (JStr "Custom") JNull s2) as [[Hs3 Hy] _].
  assert (handle (ApplyTheme "Custom") a
          = (inl err, snd (apply_theme x (JStr "Custom") s2))) as Hrun.
  { cbn [handle]. unfold open_theme_settings.apply_theme.
    unfold bind at 1. unfold modify at 1. unfold bind at 1. unfold gets at 1.
    change (current_theme (set_current_theme (JStr "Custom") a))
      with (JStr "Custom").
    fold s1. unfold bind at 1. rewrite Hsave.
    unfold bind at 1. unfold gets at 1. unfold bind at 1. unfold gets at 1.
    change (all_editors s2) with (all_editors a). rewrite Hreg.
    cbn [for_each]. unfold bind at 1.
    change (current_theme s2) with (JStr "Custom").
    destruct (apply_theme x (JStr "Custom") s2) as [[e|[]] s3]; cbn in Herr |- *;
      congruence. }
  subst a'. unfold exec, raised. rewrite Hrun. cbn [fst snd].
  split; [by exists err|]. rewrite Hs3. split_and!; try done.
  apply main_raises. intros theme. unfold startup_theme.
  erewrite load_settings_object by reflexivity. cbn.
  intros [= <-]. exact Hbad.
Qed.

Lemma broken_custom_theme_persists_witness :
  (exists err, raised (handle (ApplyTheme "Custom")) red_custom = Some err) /\
  (exists err,
     raised main (fresh_process (disk (exec (handle (ApplyTheme "Custom")) red_custom)))
     = Some err).
Proof.
  pose proof (broken_custom_theme_persists red_custom (JObj [("bg", JStr "red")]) 0 []
                eq_refl eq_refl eq_refl eq_refl) as (H1 & _ & _ & _ & H5).
  split; assumption.
Defined.

(** ** Broadcasts, once more *)

Lemma slider_size_20 : slider_size 20.
Proof. unfold slider_size. lia. Qed.

Lemma on_screen_shown (a : app) (x : nat) (e : Editor)
    (handler : Window -> M app unit) :
  heap a !! x = Some e -> wm (window e) = Shown ->
  on_screen x handler a = handler (window e) a.
Proof.
  intros Hx Hw. unfold on_screen, bind. rewrite (self_get_ok a x e _ Hx).
  by rewrite Hw.
Qed.

Lemma on_screen_hidden (a : app) (x : nat) (e : Editor)
    (handler : Window -> M app unit) :
  heap a !! x = Some e -> wm (window e) <> Shown ->
  on_screen x handler a = (inr tt, a).
Proof.
  intros Hx Hw. unfold on_screen, bind. rewrite (self_get_ok a x e _ Hx).
  by destruct (wm (window e)).
Qed.

Lemma fresh_not_in_heap (a : app) : heap a !! fresh (dom (heap a)) = None.
Proof. apply not_elem_of_dom, is_fresh. Qed.

(** X4. When the settings file cannot be written, the "Apply" button
    of the font-size dialog raises [OSError] after it has changed the
    global [current_font_size] and before it restyles any window: the
    state differs from the one before in that global alone.  A window
    opened afterwards (under a theme whose colours the toolkit accepts)
    is built with the new size, while every older window keeps the font
    it had. *)
Theorem unwritable_settings_font_size
    (a : app) (size : Z) (x : nat) (e : Editor) (theme : json) :
  slider_size size ->
  settings_denied (disk a) = true ->
  is_Some (dict_get "Custom" (THEMES a)) ->
  themes_lookup (THEMES a) (current_theme a) = inr theme ->
  paintable theme = true ->
  heap a !! x = Some e ->
  wm (window e) = Shown ->
  let a1 := exec (handle (ApplyFontSize size)) a in
  let a2 := exec (handle (OpenNewWindow x)) a1 in
  raised (handle (ApplyFontSize size)) a
    = Some (permission_denied SETTINGS_FILE) /\
  a1 = set_current_font_size (JNum size) a /\
  raised (handle (OpenNewWindow x)) a1 = None /\
  (exists ec, heap a2 !! fresh (dom (heap a)) = Some ec /\
     dict_get "font" (text_options (text_area ec))
     = Some (JArr [JStr "Consolas"; JNum size])) /\
  (forall y ey, heap a !! y = Some ey -> heap a2 !! y = Some ey).
Proof.
  intros _ Hd [C HC] Hl Hc Hx Hw a1 a2.
  apply andb_true_iff in Hc as [Hc _].
  assert (handle (ApplyFontSize size) a
          = (inl (permission_denied SETTINGS_FILE),
             set_current_font_size (JNum size) a)) as Hrun.
  { cbn [handle]. unfold open_font_size_settings.apply_font_size.
    unfold bind at 1. unfold modify at 1. unfold bind at 1. unfold gets at 1.
    unfold bind at 1. unfold save_settings, bind, gets, json_dump. cbn.
    rewrite HC. cbn. by rewrite Hd. }
  assert (a1 = set_current_font_size (JNum size) a) as Ha1.
  { subst a1. unfold exec. by rewrite Hrun. }
  clearbody a1. subst a1. set (a1 := set_current_font_size (JNum size) a) in *.
  assert (handle (OpenNewWindow x) a1
          = (inr tt,
             put (fresh (dom (heap a)))
                 (resized (JNum size)
                    (themed theme (unstyled (pathname (window e)) false
                                            (fresh (dom (heap a))) (JNum size))))
                 (constructed (pathname (window e)) false a1))) as Hopen.
  { cbn [handle]. rewrite (on_screen_shown a1 x e) by done.
    unfold bind. by rewrite (Editor_init_ok (pathname (window e)) false a1 theme). }
  subst a2. unfold exec, raised. rewrite Hrun, Hopen. cbn [fst snd].
  split_and!; try done.
  - eexists. split; [apply heap_put|]. apply dict_get_set_eq.
  - intros y ey Hy.
    assert (y <> fresh (dom (heap a))) as Hne.
    { intros ->. by rewrite fresh_not_in_heap in Hy. }
    rewrite heap_put_ne by done. cbn. by rewrite lookup_insert_ne.
Qed.

Lemma unwritable_settings_font_size_witness :
  raised (handle (ApplyFontSize 20)) (one_window untouched readonly_settings)
    = Some (permission_denied SETTINGS_FILE) /\
  exec (handle (ApplyFontSize 20)) (one_window untouched readonly_settings)
    = set_current_font_size (JNum 20) (one_window untouched readonly_settings).
Proof.
  pose proof (unwritable_settings_font_size
                (one_window untouched readonly_settings) 20 0 untouched
                (JObj [ ("bg", JStr "white"); ("fg", JStr "black");
                        ("insertbackground", JStr "black");
                        ("selectbackground", JStr "lightblue");
                        ("selectforeground", JStr "black");
                        ("status_bg", JStr "lightgray");
                        ("status_fg", JStr "black") ])
                slider_size_20
                eq_refl (ex_intro _ _ eq_refl) eq_refl eq_refl eq_refl eq_refl)
    as (H1 & H2 & _).
  split; assumption.
Defined.

Lemma three_windows_exist (x : nat) :
  x ∈ all_editors three_windows ->
  exists ex, heap three_windows !! x = Some ex /\ exists_window ex.
Proof.
  intros Hx. cbn in Hx.
  repeat (apply elem_of_cons in Hx as [->|Hx]; [by eexists|]).
  by apply elem_of_nil in Hx.
Defined.

Lemma font_broadcast_reaches_registry_witness :
  raised (open_font_size_settings.apply_font_size 20) three_windows = None /\
  heap (exec (open_font_size_settings.apply_font_size 20) three_windows) !! 1
  = Some (resized (JNum 20) (child_window [1])).
Proof.
  pose proof (font_broadcast_reaches_registry three_windows 20
                slider_size_20 eq_refl
                (ex_intro _ _ eq_refl) three_windows_exist) as [H1 H2].
  split; [exact H1|]. exact (H2 1 (child_window [1]) eq_refl).
Defined.

Lemma for_each_apply_theme (name theme : json) (l : list nat) :
  forall a : app,
    NoDup l ->
    themes_lookup (THEMES a) name = inr theme ->
    complete_theme theme = true ->
    (forall x, x ∈ l -> exists ex, heap a !! x = Some ex /\ exists_window ex) ->
    exists a',
      for_each l (fun x => apply_theme x name) a = (inr tt, a') /\
      a' = set_heap (heap a') a /\
      forall x ex, heap a !! x = Some ex ->
                   heap a' !! x = Some (if bool_decide (x ∈ l)
                                        then themed theme ex else ex).
Proof.
  induction l as [|y l IH]; intros a Hnd Hl Hc Hheap.
  - exists a. split_and!; [done|by destruct a|]. intros x ex Hx.
    by rewrite bool_decide_eq_false_2 by apply not_elem_of_nil.
  - apply NoDup_cons in Hnd as [Hy Hnd].
    destruct (Hheap y (list_elem_of_here _ _)) as (ey & Hey & Hwy).
    destruct (IH (put y (themed theme ey) a) Hnd Hl Hc)
      as (a' & Hrun & Hrest & Hobj).
    { intros x Hx. rewrite heap_put_ne by (by intros ->).
      by apply Hheap, list_elem_of_further. }
    exists a'. cbn [for_each]. unfold bind.
    rewrite (apply_theme_ok a y ey name theme Hl Hc Hey Hwy).
    split_and!; [done|by rewrite Hrest at 1|].
    intros x ex Hx. destruct (decide (y = x)) as [<-|Hne].
    + rewrite (Hobj y (themed theme ey) (heap_put _ _ _)).
      rewrite Hey in Hx. injection Hx as <-.
      rewrite (bool_decide_eq_true_2 (y ∈ y :: l)) by apply list_elem_of_here.
      by rewrite bool_decide_eq_false_2.
    + rewrite (Hobj x ex) by (by rewrite heap_put_ne).
      f_equal. destruct (decide (x ∈ l)) as [Hin|Hout].
      * rewrite !bool_decide_eq_true_2; [done|by apply list_elem_of_further|done].
      * rewrite !bool_decide_eq_false_2; [done| |done].
        intros Hc'. apply elem_of_cons in Hc' as [?|?]; congruence.
Qed.

(** X6. When the chosen theme has every colour, each one a colour
    the toolkit is known to accept, the settings file can be written and
    every registered window exists, the "Apply Theme"
    button does not raise: the choice becomes the current theme and is
    written to the settings file with the custom colours and the font
    size, every registered window gets the theme's colours on its text
    area and status bar, and no other object changes. *)
Theorem theme_broadcast_reaches_registry
    (a : app) (selected : string) (theme C : json) :
  settings_denied (disk a) = false ->
  dict_get "Custom" (THEMES a) = Some C ->
  dict_get selected (THEMES a) = Some theme ->
  paintable theme = true ->
  NoDup (all_editors a) ->
  (forall x, x ∈ all_editors a ->
             exists ex, heap a !! x = Some ex /\ exists_window ex) ->
  let a' := exec (handle (ApplyTheme selected)) a in
  raised (handle (ApplyTheme selected)) a = None /\
  current_theme a' = JStr selected /\
  settings (disk a')
    = SJson (JObj [ ("current_theme", JStr selected); ("custom_theme", C);
                    ("font_size", current_font_size a) ]) /\
  all_editors a' = all_editors a /\
  forall x ex, heap a !! x = Some ex ->
    heap a' !! x = Some (if bool_decide (x ∈ all_editors a)
                         then themed theme ex else ex).
Proof.
  intros Hd HC Hsel Hc Hnd Hheap a'. apply andb_true_iff in Hc as [Hc _].
  set (s1 := set_current_theme (JStr selected) a).
  pose proof (save_settings_ok s1 (JStr selected) C HC Hd) as Hsave.
  set (s2 := set_disk _ s1) in Hsave.
  destruct (for_each_apply_theme (JStr selected) theme (all_editors a) s2 Hnd)
    as (s3 & Hrun & Hrest & Hobj); [by cbn; rewrite Hsel|done|exact Hheap|].
  assert (handle (ApplyTheme selected) a = (inr tt, s3)) as Hall.
  { cbn [handle]. unfold open_theme_settings.apply_theme.
    unfold bind at 1. unfold modify at 1. unfold bind at 1. unfold gets at 1.
    change (current_theme (set_current_theme (JStr selected) a))
      with (JStr selected).
    fold s1. unfold bind at 1. rewrite Hsave.
    unfold bind at 1. unfold gets at 1. unfold bind at 1. unfold gets at 1.
    exact Hrun. }
  subst a'. unfold exec, raised. rewrite Hall. cbn [fst snd].
  rewrite Hrest. by split_and!.
Qed.

Lemma theme_broadcast_reaches_registry_witness :
  raised (handle (ApplyTheme "Dark")) three_windows = None /\
  current_theme (exec (handle (ApplyTheme "Dark")) three_windows) = JStr "Dark".
Proof.
  pose proof (theme_broadcast_reaches_registry three_windows "Dark" _ _
                eq_refl eq_refl eq_refl eq_refl
                (proj1 three_windows_well_formed) three_windows_exist)
    as (H1 & H2 & _).
  split; assumption.
Defined.

Lemma for_each_app {S A} (l1 l2 : list A) (body : A -> M S unit) (s : S) :
  for_each (l1 ++ l2) body s
  = (for_each l1 body;; for_each l2 body) s.
Proof.
  revert s. induction l1 as [|x l1 IH]; intros s; cbn [for_each Datatypes.app].
  - reflexivity.
  - unfold bind in *. destruct (body x s) as [[err|[]] s']; [done|]. apply IH.
Qed.

(** X7. A registered window that no longer exists stops a font-size
    broadcast half way.  The new size is already the global and already
    in the settings file, the windows registered before the missing one
    have it, and the handler ends in [TclError] there: the windows
    registered after it, like every other object, keep the old font. *)
Theorem broadcast_stops_at_destroyed_window
    (a : app) (size : Z) (before after : list nat) (z : nat) (ez : Editor)
    (C : json) :
  slider_size size ->
  settings_denied (disk a) = false ->
  dict_get "Custom" (THEMES a) = Some C ->
  all_editors a = (before ++ z :: after)%list ->
  (forall x, x ∈ before -> exists ex, heap a !! x = Some ex /\ exists_window ex) ->
  heap a !! z = Some ez ->
  wm (window ez) = Destroyed ->
  let a' := exec (handle (ApplyFontSize size)) a in
  raised (handle (ApplyFontSize size)) a = Some TclError /\
  current_font_size a' = JNum size /\
  settings (disk a')
    = SJson (JObj [ ("current_theme", current_theme a); ("custom_theme", C);
                    ("font_size", JNum size) ]) /\
  forall x ex, heap a !! x = Some ex ->
    heap a' !! x = Some (if bool_decide (x ∈ before)
                         then resized (JNum size) ex else ex).
Proof.
  intros _ Hd HC Hreg Hheap Hz Hwz a'.
  set (s1 := set_current_font_size (JNum size) a).
  pose proof (save_settings_ok s1 (current_theme a) C HC Hd) as Hsave.
  set (s2 := set_disk _ s1) in Hsave.
  destruct (for_each_apply_font_size (JNum size) before s2 Hheap)
    as (s3 & Hrun & Hregs & Hobj).
  assert (z ∉ before) as Hzb.
  { intros Hin. destruct (Hheap z Hin) as (ez' & Hez' & Hw).
    rewrite Hz in Hez'. injection Hez' as <-. by apply Hw. }
  assert (heap s3 !! z = Some ez) as Hz3.
  { rewrite (Hobj z ez Hz). by rewrite bool_decide_eq_false_2. }
  assert (s3 = set_heap (heap s3) s2) as Hs3.
  { assert (keeps (fun s => s = set_heap (heap s) s2)
                  (for_each before (fun x => apply_font_size x (JNum size))))
      as Hk.
    { apply keeps_for_each. intros x _.
      apply (keeps_restyle _ x JNull (JNum size)). intros f _ s Hs.
      cbn. rewrite Hs at 2. by destruct s2. }
    specialize (Hk s2). rewrite Hrun in Hk. apply Hk. by destruct s2. }
  assert (handle (ApplyFontSize size) a = (inl TclError, s3)) as Hall.
  { cbn [handle]. unfold open_font_size_settings.apply_font_size.
    unfold bind at 1. unfold modify at 1. unfold bind at 1. unfold gets at 1.
    change (current_theme (set_current_font_size (JNum size) a))
      with (current_theme a).
    fold s1. unfold bind at 1. rewrite Hsave.
    unfold bind at 1. unfold gets at 1. unfold bind at 1. unfold gets at 1.
    change (all_editors s2) with (all_editors a). rewrite Hreg.
    change (current_font_size s2) with (JNum size).
    rewrite for_each_app. unfold bind at 1. rewrite Hrun.
    cbn [for_each]. unfold bind at 1.
    by rewrite (apply_font_size_gone s3 z ez (JNum size) Hz3 Hwz). }
  subst a'. unfold exec, raised. rewrite Hall. cbn [fst snd].
  rewrite Hs3. by split_and!.
Qed.

Lemma broadcast_stops_at_destroyed_window_witness :
  raised (handle (ApplyFontSize 20)) (exec (on_close 1) three_windows)
  = Some TclError /\
  current_font_size (exec (handle (ApplyFontSize 20)) (exec (on_close 1) three_windows))
  = JNum 20.
Proof.
  pose proof (broadcast_stops_at_destroyed_window
                (exec (on_close 1) three_windows) 20 [0] [] 2
                (set_wm Destroyed (child_window [1; 2])) _
                slider_size_20
                eq_refl eq_refl eq_refl) as H.
  destruct H as (H1 & H2 & _).
  - intros x Hx. apply list_elem_of_singleton in Hx as ->. by eexists.
  - reflexivity.
  - reflexivity.
  - split; assumption.
Defined.

(** ** The status bar *)

Lemma pretty_N_char_no_dot (y : N) : Ascii.eqb "." (pretty_N_char y) = false.
Proof. unfold pretty_N_char. repeat case_match; reflexivity. Qed.

Lemma pretty_N_go_no_dot (x : N) :
  forall s, occurs "." s = false -> occurs "." (pretty_N_go x s) = false.
Proof.
  induction (N.lt_wf_0 x) as [x _ IH]. intros s Hs.
  destruct (decide (x = 0)%N) as [->|Hne].
  - by rewrite pretty_N_go_0.
  - rewrite pretty_N_go_step by lia. apply IH.
    + apply N.div_lt; lia.
    + unfold occurs in *. cbn [list_ascii_of_string existsb].
      by rewrite pretty_N_char_no_dot.
Qed.

(** A number in decimal holds no dot. *)
Lemma pretty_nat_no_dot (n : nat) : occurs "." (pretty n) = false.
Proof.
  unfold pretty, pretty_nat, pretty, pretty_N.
  destruct (decide _); [reflexivity|]. by apply pretty_N_go_no_dot.
Qed.

Lemma py_split_no_sep (sep : ascii) (s : string) :
  occurs sep s = false -> py_split sep s = [s].
Proof.
  unfold occurs. induction s as [|c s IH]; [done|].
  cbn [list_ascii_of_string existsb py_split]. intros H.
  apply orb_false_iff in H as [Hc Hs]. rewrite Ascii.eqb_sym, Hc.
  by rewrite (IH Hs).
Qed.

Lemma py_split_app (sep : ascii) (s1 s2 : string) :
  occurs sep s1 = false ->
  py_split sep (s1 +:+ String sep s2) = s1 :: py_split sep s2.
Proof.
  unfold occurs. induction s1 as [|c s1 IH].
  - intros _. change (EmptyString +:+ String sep s2) with (String sep s2).
    cbn [py_split]. by rewrite Ascii.eqb_refl.
  - cbn [list_ascii_of_string existsb]. intros H.
    apply orb_false_iff in H as [Hc Hs].
    change (String c s1 +:+ String sep s2) with (String c (s1 +:+ String sep s2)).
    cbn [py_split]. rewrite Ascii.eqb_sym, Hc. by rewrite (IH Hs).
Qed.

Lemma dict_get_set_ne (k k' : string) (v : json) (d : dict) :
  k <> k' -> dict_get k (dict_set k' v d) = dict_get k d.
Proof.
  intros Hne. induction d as [|[k0 v0] d IH]; cbn.
  - by rewrite (proj2 (String.eqb_neq k k')).
  - destruct (String.eqb k' k0) eqn:E; cbn.
    + apply String.eqb_eq in E as <-.
      by rewrite (proj2 (String.eqb_neq k k')).
    + by rewrite IH.
Qed.

Lemma update_status_ok (a : app) (self : nat) (e : Editor) :
  heap a !! self = Some e ->
  update_status self a
  = (inr tt,
     put self (restyle_status [("text", JStr (status_text (text_area e)))] e) a).
Proof.
  intros H. unfold update_status, bind. rewrite (self_get_ok a self e _ H).
  unfold text_index_insert.
  change ("." +:+ pretty (cursor (text_area e)).2)
    with (String "."%char (pretty (cursor (text_area e)).2)).
  rewrite py_split_app by apply pretty_nat_no_dot.
  rewrite py_split_no_sep by apply pretty_nat_no_dot.
  by rewrite (self_upd_ok a self e _ H).
Qed.

(** X12. [update_status] never raises: the position the text widget
    reports always splits at its dot into exactly two parts, so the
    unpacking cannot fail.  It sets the text of the status bar to the
    line and the column of the cursor, lines counted from 1 and columns
    from 0; every other option of the status bar, its theme colours
    included, and everything else in the process stay as they were. *)
Theorem update_status_shows_cursor (a : app) (self : nat) (e : Editor) :
  heap a !! self = Some e ->
  exists e',
    update_status self a = (inr tt, put self e' a) /\
    dict_get "text" (label_options (status_bar e'))
    = Some (JStr ("Line: " +:+ pretty (cursor (text_area e)).1 +:+
                  ", Column: " +:+ pretty (cursor (text_area e)).2)) /\
    (forall k, k <> "text" ->
       dict_get k (label_options (status_bar e'))
       = dict_get k (label_options (status_bar e))) /\
    e' = set_status_bar (status_bar e') e.
Proof.
  intros H. eexists. split; [by apply update_status_ok|]. split_and!.
  - apply dict_get_set_eq.
  - intros k Hk. by apply dict_get_set_ne.
  - reflexivity.
Qed.

Lemma update_status_shows_cursor_witness :
  exists e',
    update_status 0 (one_window typing_xy locked_disk)
    = (inr tt, put 0 e' (one_window typing_xy locked_disk)) /\
    dict_get "text" (label_options (status_bar e'))
    = Some (JStr "Line: 1, Column: 2").
Proof.
  destruct (update_status_shows_cursor (one_window typing_xy locked_disk) 0
              typing_xy eq_refl) as (e' & H1 & H2 & _).
  exists e'. split; [exact H1|exact H2].
Defined.

(** ** Events of one window *)

Section DocumentSteps.

Context (self : nat).

Lemma edited_refl (e : Editor) : edited e e.
Proof. by split_and!. Qed.

Lemma edited_trans (e1 e2 e3 : Editor) :
  edited e1 e2 -> edited e2 e3 -> edited e1 e3.
Proof.
  intros (H1 & H2 & H3 & H4) (G1 & G2 & G3 & G4).
  split_and!; [congruence..|tauto].
Qed.

(** [document_step] by the fields of the two states. *)
Lemma document_step_fields (a a' : app) (e e' : Editor) (msgs : list message) :
  heap a !! self = Some e ->
  edited e e' ->
  THEMES a' = THEMES a ->
  current_font_size a' = current_font_size a ->
  current_theme a' = current_theme a ->
  all_editors a' = all_editors a ->
  heap a' = <[self := e']> (heap a) ->
  denied (disk a') = denied (disk a) ->
  settings (disk a') = settings (disk a) ->
  settings_denied (disk a') = settings_denied (disk a) ->
  os (disk a') = os (disk a) ->
  shown a' = (shown a ++ msgs)%list ->
  mainloop_quit a' = mainloop_quit a ->
  document_step self a a'.
Proof.
  intros Hs He ? ? ? ? ? ? ? ? ? ? ?. unfold document_step. rewrite Hs.
  exists e', (documents (disk a')), msgs. split; [exact He|].
  destruct a' as [? ? ? ? ? [? ? ? ? ?] ? ?], a as [? ? ? ? ? [? ? ? ? ?] ? ?].
  cbn in *. by subst.
Qed.

Lemma document_step_elim (a a' : app) (e : Editor) :
  heap a !! self = Some e ->
  document_step self a a' ->
  exists e' msgs,
    edited e e' /\ heap a' = <[self := e']> (heap a) /\
    THEMES a' = THEMES a /\
    current_font_size a' = current_font_size a /\
    current_theme a' = current_theme a /\
    all_editors a' = all_editors a /\
    denied (disk a') = denied (disk a) /\
    settings (disk a') = settings (disk a) /\
    settings_denied (disk a') = settings_denied (disk a) /\
    os (disk a') = os (disk a) /\
    shown a' = (shown a ++ msgs)%list /\
    mainloop_quit a' = mainloop_quit a.
Proof.
  intros Hs. unfold document_step. rewrite Hs.
  intros (e' & docs & msgs & He & ->). exists e', msgs. by split_and!.
Qed.

Lemma document_step_refl (a : app) : document_step self a a.
Proof.
  destruct (heap a !! self) as [e|] eqn:Hs.
  - apply (document_step_fields a a e e []); try done.
    + by rewrite insert_id.
    + by rewrite app_nil_r.
  - unfold document_step. by rewrite Hs.
Qed.

Lemma document_step_trans (a1 a2 a3 : app) :
  document_step self a1 a2 -> document_step self a2 a3 ->
  document_step self a1 a3.
Proof.
  intros H12 H23. destruct (heap a1 !! self) as [e1|] eqn:Hs.
  - destruct (document_step_elim a1 a2 e1 Hs H12)
      as (e2 & m2 & He2 & Hh2 & ? & ? & ? & ? & ? & ? & ? & ? & Hm2 & ?).
    assert (heap a2 !! self = Some e2) as Hs2.
    { rewrite Hh2. apply lookup_insert_eq. }
    destruct (document_step_elim a2 a3 e2 Hs2 H23)
      as (e3 & m3 & He3 & Hh3 & ? & ? & ? & ? & ? & ? & ? & ? & Hm3 & ?).
    apply (document_step_fields a1 a3 e1 e3 (m2 ++ m3)); try congruence.
    + by apply (edited_trans e1 e2 e3).
    + by rewrite Hh3, Hh2, insert_insert_eq.
    + by rewrite Hm3, Hm2, app_assoc.
  - unfold document_step in *. rewrite Hs in *. subst a2.
    rewrite Hs in H23. by subst.
Qed.

Lemma document_step_put (a : app) (e e' : Editor) :
  heap a !! self = Some e -> edited e e' ->
  document_step self a (put self e' a).
Proof.
  intros Hs He. apply (document_step_fields a _ e e' []); try done.
  by rewrite app_nil_r.
Qed.

Lemma document_step_save (a : app) (e e' : Editor) (p text : string) (w : world) :
  heap a !! self = Some e -> edited e e' ->
  fs_write (disk a) p text = inr w ->
  document_step self a (put self e' (set_disk w a)).
Proof.
  intros Hs He Hw. unfold fs_write in Hw.
  destruct (bool_decide _); [discriminate|]. injection Hw as <-.
  apply (document_step_fields a _ e e' []); try done.
  by rewrite app_nil_r.
Qed.

Lemma document_step_error (a : app) (e : Editor) (caption body : string) :
  heap a !! self = Some e ->
  document_step self a (set_shown (shown a ++ [ShowError caption body]) a).
Proof.
  intros Hs.
  apply (document_step_fields a _ e e [ShowError caption body]); try done.
  cbn. by rewrite insert_id.
Qed.

Lemma in_sync_retitle (e : Editor) : in_sync (retitle e).
Proof. reflexivity. Qed.

Lemma edited_dirtied (e : Editor) : edited e (dirtied e).
Proof.
  unfold dirtied. destruct (modified (current_file e)); [apply edited_refl|].
  by split_and!.
Qed.

Lemma mark_modified_step (a : app) (e : Editor) :
  heap a !! self = Some e ->
  document_step self a (snd (mark_modified self a)).
Proof.
  intros Hs. erewrite mark_modified_ok by eassumption.
  apply (document_step_put a e); [done|apply edited_dirtied].
Qed.

Lemma _do_new_file_step (a : app) (e : Editor) :
  heap a !! self = Some e ->
  document_step self a (snd (_do_new_file self a)).
Proof.
  intros Hs. erewrite _do_new_file_ok by eassumption.
  by apply (document_step_put a e).
Qed.

Lemma new_file_step (a : app) (e : Editor) :
  heap a !! self = Some e ->
  document_step self a (snd (new_file self a)).
Proof.
  intros Hs. destruct (modified (current_file e)) eqn:Hm.
  - rewrite (new_file_dirty a self e Hs Hm). by apply (document_step_put a e).
  - rewrite (new_file_clean a self e Hs Hm). by apply (document_step_put a e).
Qed.

Lemma open_file_step (a : app) (e : Editor) (filename : string) :
  heap a !! self = Some e ->
  document_step self a (snd (open_file self filename a)).
Proof.
  intros Hs. destruct (truthy filename) eqn:Ht.
  - destruct (fs_read (disk a) filename) as [err|content] eqn:Hr.
    + erewrite open_file_failed by eassumption.
      by apply (document_step_error a e).
    + erewrite open_file_ok by eassumption.
      by apply (document_step_put a e).
  - unfold open_file. rewrite Ht. apply document_step_refl.
Qed.

Lemma save_as_file_step (a : app) (e : Editor) (filename : string) :
  heap a !! self = Some e ->
  document_step self a (snd (save_as_file self filename a)).
Proof.
  intros Hs. destruct (truthy filename) eqn:Ht.
  - destruct (fs_write (disk a) filename (text_get_all (text_area e)))
      as [err|w] eqn:Hw.
    + erewrite save_as_file_failed by eassumption.
      by apply (document_step_error a e).
    + erewrite save_as_file_ok by eassumption.
      by apply (document_step_save a e _ filename (text_get_all (text_area e))).
  - unfold save_as_file. rewrite Ht. apply document_step_refl.
Qed.

Lemma save_file_step (a : app) (e : Editor) (filename : string) :
  heap a !! self = Some e ->
  document_step self a (snd (save_file self filename a)).
Proof.
  intros Hs. destruct (path (current_file e)) as [p|] eqn:Hp.
  - destruct (truthy p) eqn:Ht.
    + destruct (fs_write (disk a) p (text_get_all (text_area e)))
        as [err|w] eqn:Hw.
      * erewrite save_file_failed by eassumption.
        by apply (document_step_error a e).
      * erewrite save_file_ok by eassumption.
        by apply (document_step_save a e _ p (text_get_all (text_area e))).
    + erewrite save_file_no_path by (eassumption || (right; by exists p)).
      by apply (save_as_file_step a e).
  - erewrite save_file_no_path by (eassumption || by left).
    by apply (save_as_file_step a e).
Qed.

Lemma step_keeps_object (a a' : app) (e : Editor) :
  heap a !! self = Some e -> document_step self a a' ->
  exists e', heap a' !! self = Some e'.
Proof.
  intros Hs H. destruct (document_step_elim a a' e Hs H) as (e' & _ & _ & Hh & _).
  exists e'. rewrite Hh. apply lookup_insert_eq.
Qed.

Lemma call_step (depth : nat) (cell : option callable) (filename : string) :
  forall (f : callable) (a : app) (e : Editor),
    heap a !! self = Some e ->
    document_step self a (snd (call depth self cell filename f a)).
Proof.
  induction depth as [|depth IH]; intros f a e Hs; [apply document_step_refl|].
  assert (forall a1 e1, heap a1 !! self = Some e1 ->
            document_step self a1
              (snd (match cell with
                    | Some on_discard => call depth self cell filename on_discard
                    | None => ret tt
                    end a1))) as Hrest.
  { intros a1 e1 H1. destruct cell; [by apply (IH _ _ e1)|apply document_step_refl]. }
  destruct f; cbn [call].
  - by apply (_do_new_file_step a e).
  - unfold bind. rewrite (dialog_destroy_ok a self e Hs).
    destruct (save_file_returns (put self (dialog_closed e) a) self
                (dialog_closed e) filename (heap_put _ _ _))
      as (a1 & e1 & Hsave & Hheap & _).
    pose proof (save_file_step (put self (dialog_closed e) a) (dialog_closed e)
                  filename (heap_put _ _ _)) as Hstep.
    rewrite Hsave in Hstep |- *. cbn [snd] in Hstep.
    apply (document_step_trans a (put self (dialog_closed e) a));
      [by apply (document_step_put a e)|].
    apply (document_step_trans _ a1); [exact Hstep|].
    exact (Hrest a1 e1 Hheap).
  - unfold bind. rewrite (dialog_destroy_ok a self e Hs).
    apply (document_step_trans a (put self (dialog_closed e) a));
      [by apply (document_step_put a e)|].
    exact (Hrest _ _ (heap_put self (dialog_closed e) a)).
Qed.

Lemma press_step (depth : nat) (b : button) (filename : string)
    (a : app) (e : Editor) :
  heap a !! self = Some e ->
  document_step self a (snd (press depth self b filename a)).
Proof.
  intros Hs. unfold press, bind. rewrite (self_get_ok a self e _ Hs).
  destruct (unsaved_dialog e) as [d|]; [|apply document_step_refl].
  destruct (dialog_open d); [|apply document_step_refl].
  destruct b.
  - destruct (save_command d); [by apply (call_step _ _ _ _ a e)|].
    apply document_step_refl.
  - destruct (dont_save_command d); [by apply (call_step _ _ _ _ a e)|].
    apply document_step_refl.
Qed.

Lemma do_find_step (search_term : string) (a : app) (e : Editor) :
  heap a !! self = Some e ->
  document_step self a (snd ((_ <- do_find self search_term;; ret tt) a)).
Proof.
  intros Hs. unfold do_find, bind. rewrite (self_get_ok a self e _ Hs).
  destruct (find_all search_term (text_area e)) as [[ranges t']|];
    [|apply document_step_refl].
  rewrite (self_upd_ok a self e _ Hs). by apply (document_step_put a e).
Qed.

(** One event of the window [self] is a [document_step]. *)
Lemma interact_step (depth : nat) (ev : doc_event) (a : app) :
  document_step self a (exec (interact depth self ev) a).
Proof.
  unfold exec. destruct (heap a !! self) as [e|] eqn:Hs.
  - assert (forall handler : Window -> M app unit,
              document_step self a (snd (handler (window e) a)) ->
              document_step self a (snd (on_screen self handler a))) as Hon.
    { intros handler Hh. unfold on_screen, bind.
      rewrite (self_get_ok a self e _ Hs).
      destruct (wm (window e)); [exact Hh|apply document_step_refl..]. }
    assert (forall handler : M app unit,
              document_step self a (snd (handler a)) ->
              document_step self a (snd (while_exists self handler a))) as Hwh.
    { intros handler Hh. unfold while_exists, bind.
      rewrite (self_get_ok a self e _ Hs).
      destruct (wm (window e)); [exact Hh..|apply document_step_refl]. }
    destruct ev; cbn [interact].
    + apply Hon. by apply (new_file_step a e).
    + apply Hon. by apply (open_file_step a e).
    + apply Hon. by apply (save_file_step a e).
    + apply Hon. by apply (save_as_file_step a e).
    + apply Hwh. by apply (press_step _ _ _ a e).
    + apply Hon. rewrite (on_key_ok a self e k Hs).
      apply (document_step_put a e); [done|].
      apply (edited_trans _ (dirtied e)); [apply edited_dirtied|by split_and!].
    + apply Hon. rewrite (on_paste_ok a self e clip Hs).
      apply (document_step_put a e); [done|].
      apply (edited_trans _ (dirtied e)); [apply edited_dirtied|by split_and!].
    + apply Hon. rewrite (update_status_ok a self e Hs).
      by apply (document_step_put a e).
    + apply Hon. rewrite (self_upd_ok a self e _ Hs).
      by apply (document_step_put a e).
    + apply Hon. rewrite (update_status_ok a self e Hs).
      by apply (document_step_put a e).
    + apply Hwh. by apply (do_find_step _ a e).
  - assert (forall (A : Type) (f : Editor -> A), self_get self f a = (inl AttributeError, a))
      as Hget.
    { intros A f. unfold self_get. by rewrite Hs. }
    unfold document_step. rewrite Hs.
    destruct ev; cbn [interact]; unfold on_screen, while_exists, bind;
      by rewrite Hget.
Qed.

End DocumentSteps.


(** ** What holds of every editor *)

Section EveryObject.

Context (Q : Editor -> Prop).
Hypothesis Q_text : forall kw e, Q e -> Q (restyle_text kw e).
Hypothesis Q_status : forall kw e, Q e -> Q (restyle_status kw e).
Hypothesis Q_wm : forall w e, Q e -> Q (set_wm w e).
Hypothesis Q_new : forall parent is_root self size,
  Q (unstyled parent is_root self size).

Lemma every_frame (s s' : app) :
  all_editors s' = all_editors s -> heap s' = heap s ->
  every_object Q s -> every_object Q s'.
Proof. intros _ Hh H x e. rewrite Hh. apply H. Qed.

Lemma every_self_upd (x : nat) (f : Editor -> Editor) :
  (forall e, Q e -> Q (f e)) -> keeps (every_object Q) (self_upd x f).
Proof.
  intros Hf s Hs y e'. cbn. intros Hy.
  apply lookup_alter_Some in Hy as [(_ & e & He & ->)|[_ He]].
  - apply Hf. by apply (Hs y).
  - by apply (Hs y).
Qed.

Lemma every_restyle (x : nat) (theme_name size : json) :
  keeps (every_object Q) (apply_theme x theme_name) /\
  keeps (every_object Q) (apply_font_size x size).
Proof.
  split; unfold apply_theme, apply_font_size;
    repeat first [ apply keeps_gets | apply keeps_lift | apply keeps_widget
                 | apply every_self_upd, Q_text
                 | apply every_self_upd, Q_status
                 | apply keeps_bind; [|intros ?] ].
Qed.

Lemma every_handle (ev : event) : keeps (every_object Q) (handle ev).
Proof.
  destruct ev as [selected|size|x|x]; cbn [handle].
  - unfold open_theme_settings.apply_theme.
    apply keeps_bind; [by apply (keeps_modify _ every_frame)|intros _].
    apply keeps_bind; [apply keeps_gets|intros theme].
    apply keeps_bind; [apply (keeps_save_settings _ every_frame)|intros _].
    apply keeps_bind; [apply keeps_gets|intros eds].
    apply keeps_bind; [apply keeps_gets|intros theme'].
    apply keeps_for_each. intros y _. apply (every_restyle y theme' JNull).
  - unfold open_font_size_settings.apply_font_size.
    apply keeps_bind; [by apply (keeps_modify _ every_frame)|intros _].
    apply keeps_bind; [apply keeps_gets|intros theme].
    apply keeps_bind; [apply (keeps_save_settings _ every_frame)|intros _].
    apply keeps_bind; [apply keeps_gets|intros eds].
    apply keeps_bind; [apply keeps_gets|intros size'].
    apply keeps_for_each. intros y _. apply (every_restyle y JNull size').
  - apply keeps_on_screen. intros w.
    apply keeps_bind; [|intros _; apply keeps_ret].
    intros s Hs. rewrite Editor_init_constructed.
    assert (keeps (every_object Q)
              (theme <- gets current_theme;;
               apply_theme (fresh (dom (heap s))) theme;;
               size <- gets current_font_size;;
               apply_font_size (fresh (dom (heap s))) size;;
               ret (fresh (dom (heap s))))) as Hrest.
    { apply keeps_bind; [apply keeps_gets|intros theme].
      apply keeps_bind; [apply (every_restyle _ theme JNull)|intros _].
      apply keeps_bind; [apply keeps_gets|intros size].
      apply keeps_bind; [apply (every_restyle _ JNull size)|intros _].
      apply keeps_ret. }
    apply Hrest. intros y e. cbn. intros Hy.
    apply lookup_insert_Some in Hy as [[_ <-]|[_ Hy]]; [apply Q_new|by apply (Hs y)].
  - apply keeps_on_screen. intros _. unfold on_close.
    apply keeps_bind; [apply keeps_gets|intros eds].
    destruct (list_remove x eds); [|apply keeps_raise].
    apply keeps_bind; [intros s Hs; exact Hs|intros _].
    apply keeps_bind; [apply keeps_self_get|intros root].
    assert (keeps (every_object Q)
              (eds0 <- gets all_editors;; if is_nil eds0 then quit else ret tt))
      as Hquit.
    { apply keeps_bind; [apply keeps_gets|intros eds0].
      destruct (is_nil eds0); [by apply (keeps_modify _ every_frame)|apply keeps_ret]. }
    destruct root.
    + apply keeps_bind; [apply every_self_upd, Q_wm|intros _; exact Hquit].
    + apply keeps_bind; [apply keeps_self_get|intros w].
      apply keeps_bind; [|intros _; exact Hquit].
      intros s Hs y e'. cbn. rewrite lookup_fmap. intros Hy.
      destruct (heap s !! y) as [e|] eqn:He; [|discriminate].
      injection Hy as <-. destruct (under _ _); [apply Q_wm|]; by apply (Hs y).
Qed.

Lemma every_main : keeps (every_object Q) main.
Proof.
  unfold main.
  apply keeps_bind; [apply (keeps_load_settings _ every_frame)|intros theme].
  apply keeps_bind; [by apply (keeps_modify _ every_frame)|intros _].
  intros s Hs. rewrite Editor_init_constructed.
  assert (keeps (every_object Q)
            (theme <- gets current_theme;;
             apply_theme (fresh (dom (heap s))) theme;;
             size <- gets current_font_size;;
             apply_font_size (fresh (dom (heap s))) size;;
             ret (fresh (dom (heap s))))) as Hrest.
  { apply keeps_bind; [apply keeps_gets|intros theme'].
    apply keeps_bind; [apply (every_restyle _ theme' JNull)|intros _].
    apply keeps_bind; [apply keeps_gets|intros size].
    apply keeps_bind; [apply (every_restyle _ JNull size)|intros _].
    apply keeps_ret. }
  apply Hrest. intros y e. cbn. intros Hy.
  apply lookup_insert_Some in Hy as [[_ <-]|[_ Hy]]; [apply Q_new|by apply (Hs y)].
Qed.

End EveryObject.

Lemma in_sync_perform (depth : nat) (act : activity) :
  keeps (every_object in_sync) (perform depth act).
Proof.
  destruct act as [self ev|ev]; cbn [perform].
  - intros s Hs. pose proof (interact_step self depth ev s) as Hstep.
    unfold exec in Hstep.
    destruct (heap s !! self) as [e|] eqn:He.
    + destruct (document_step_elim self s _ e He Hstep)
        as (e' & msgs & (_ & _ & _ & Hsync) & Hh & _).
      intros y ey. rewrite Hh. intros Hy.
      apply lookup_insert_Some in Hy as [[_ <-]|[_ Hy]].
      * apply Hsync. by apply (Hs self).
      * by apply (Hs y).
    + unfold document_step in Hstep. rewrite He in Hstep. by rewrite Hstep.
  - by apply every_handle.
Qed.

(** X13. From the start of the program on, whatever the settings
    file holds and whatever the user does (events of any window, windows
    opened and closed, themes and font sizes applied, handlers that
    raise), the title bar of every editor tells the truth: it is the
    title [update_title] computes from the editor's current path and
    modified flag. *)
Theorem title_always_in_sync
    (w : world) (depth : nat) (acts : list activity) (x : nat) (e : Editor) :
  heap (run_all depth acts (exec main (fresh_process w))) !! x = Some e ->
  title (window e) = title_of (current_file e).
Proof.
  assert (every_object in_sync (exec main (fresh_process w))) as Hstart.
  { by apply every_main. }
  revert Hstart. generalize (exec main (fresh_process w)).
  induction acts as [|act acts IH]; intros s Hs; [apply Hs|].
  cbn. apply IH. by apply in_sync_perform.
Qed.

Lemma title_always_in_sync_witness :
  heap (run_all 1000 [InWindow 0 (KeyPress (KChar "a"))]
          (exec main (fresh_process locked_disk))) !! 0 = Some typed_a /\
  title (window typed_a) = title_of (current_file typed_a).
Proof.
  split; [reflexivity|].
  exact (title_always_in_sync locked_disk 1000 [InWindow 0 (KeyPress (KChar "a"))]
           0 typed_a eq_refl).
Defined.

(** ** Windows on screen and windows registered *)

(** [on_screen] runs its handler on a window that is shown, and only
    then. *)
Lemma keeps_on_screen_shown (P : app -> Prop) (x : nat)
    (handler : Window -> M app unit) :
  (forall s e, P s -> heap s !! x = Some e -> wm (window e) = Shown ->
               P (snd (handler (window e) s))) ->
  keeps P (on_screen x handler).
Proof.
  intros Hh s Hs. unfold on_screen, bind, self_get.
  destruct (heap s !! x) as [e|] eqn:He; [|exact Hs].
  destruct (wm (window e)) eqn:Hw; [by apply Hh|exact Hs..].
Qed.

Lemma list_remove_other (x y : nat) (l l' : list nat) :
  list_remove x l = Some l' -> y <> x -> y ∈ l -> y ∈ l'.
Proof.
  intros Hrem Hne Hy. apply list_remove_Some in Hrem. rewrite Hrem in Hy.
  apply elem_of_cons in Hy as [?|?]; [congruence|done].
Qed.

(** [on_close] without an object to close: the registry loses the
    name and the handler raises. *)
Lemma on_close_no_object (a : app) (x : nat) (eds' : list nat) :
  heap a !! x = None -> list_remove x (all_editors a) = Some eds' ->
  on_close x a = (inl AttributeError, set_all_editors eds' a).
Proof.
  intros Hx Hrem. unfold on_close, bind, gets. rewrite Hrem.
  unfold modify, self_get. cbn. by rewrite Hx.
Qed.

(** What [on_close] of [x] leaves of another object. *)
Lemma after_close_other (x y : nat) (ex ey : Editor) :
  y <> x ->
  after_close x ex y ey = ey \/ after_close x ex y ey = set_wm Destroyed ey.
Proof.
  intros Hne. unfold after_close, gone.
  destruct (is_root ex); [left; by rewrite bool_decide_eq_false_2|].
  destruct (under _ _); [by right|by left].
Qed.

Lemma after_close_not_shown (x : nat) (ex : Editor) :
  wm (window (after_close x ex x ex)) <> Shown.
Proof. rewrite after_close_self. by destruct (is_root ex). Qed.

Section ShownRegistered.

Lemma shown_registered_frame (s s' : app) :
  all_editors s' = all_editors s -> heap s' = heap s ->
  shown_registered s -> shown_registered s'.
Proof. intros Hr Hh H x e. rewrite Hr, Hh. apply H. Qed.

Lemma shown_registered_self_upd (x : nat) (f : Editor -> Editor) :
  styling f -> keeps shown_registered (self_upd x f).
Proof.
  intros Hf s Hs y e'. cbn. intros Hy Hw.
  apply lookup_alter_Some in Hy as [(_ & e & He & ->)|[_ He]].
  - destruct (Hf e) as [_ Hwin]. rewrite Hwin in Hw. by apply (Hs y e).
  - by apply (Hs y e').
Qed.

Lemma shown_registered_Editor_init (parent : list nat) (is_root : bool) :
  keeps shown_registered (Editor_init parent is_root).
Proof.
  intros s Hs. rewrite Editor_init_constructed.
  assert (keeps shown_registered
            (theme <- gets current_theme;;
             apply_theme (fresh (dom (heap s))) theme;;
             size <- gets current_font_size;;
             apply_font_size (fresh (dom (heap s))) size;;
             ret (fresh (dom (heap s))))) as Hrest.
  { apply keeps_bind; [apply keeps_gets|intros theme].
    apply keeps_bind;
      [apply (keeps_restyle _ _ theme JNull); intros f;
       apply shown_registered_self_upd|intros _].
    apply keeps_bind; [apply keeps_gets|intros size].
    apply keeps_bind;
      [apply (keeps_restyle _ _ JNull size); intros f;
       apply shown_registered_self_upd|intros _].
    apply keeps_ret. }
  apply Hrest. intros y e. cbn. intros Hy Hw. apply elem_of_app.
  apply lookup_insert_Some in Hy as [[<- _]|[_ Hy]].
  - right. apply list_elem_of_here.
  - left. by apply (Hs y e).
Qed.

Lemma shown_registered_on_close (x : nat) : keeps shown_registered (on_close x).
Proof.
  intros s Hs. destruct (list_remove x (all_editors s)) as [eds'|] eqn:Hrem.
  - destruct (heap s !! x) as [ex|] eqn:Hx.
    + rewrite (on_close_ok s x ex eds' Hx Hrem). cbn [snd]. cbn zeta.
      assert (shown_registered
                (set_heap (closed_heap x ex (heap s)) (set_all_editors eds' s)))
        as Hgoal.
      { intros y e'. cbn. rewrite (lookup_closed_heap _ _ _ _ Hx). intros Hy Hw.
        destruct (heap s !! y) as [ey|] eqn:Hey; [|discriminate].
        injection Hy as <-.
        destruct (decide (y = x)) as [->|Hne].
        - rewrite Hx in Hey. injection Hey as <-.
          by destruct (after_close_not_shown x ex).
        - apply (list_remove_other x y _ _ Hrem Hne), (Hs y ey Hey).
          destruct (after_close_other x y ex ey Hne) as [Heq|Heq];
            rewrite Heq in Hw; [done|discriminate]. }
      destruct (is_nil eds'); [|exact Hgoal].
      by apply (shown_registered_frame
                  (set_heap (closed_heap x ex (heap s)) (set_all_editors eds' s))).
    + rewrite (on_close_no_object s x eds' Hx Hrem). intros y e. cbn. intros Hy Hw.
      apply (list_remove_other x y _ _ Hrem); [congruence|by apply (Hs y e)].
  - rewrite on_close_unregistered; [exact Hs|].
    intros Hin. destruct (list_remove_elem x _ Hin). congruence.
Qed.

Lemma shown_registered_handle (ev : event) : keeps shown_registered (handle ev).
Proof.
  destruct ev as [selected|size|x|x]; cbn [handle].
  - apply (keeps_broadcasts _ shown_registered_frame selected 0).
    intros s _ y f _. apply shown_registered_self_upd.
  - apply (keeps_broadcasts _ shown_registered_frame EmptyString size).
    intros s _ y f _. apply shown_registered_self_upd.
  - apply keeps_on_screen. intros w.
    apply keeps_bind; [apply shown_registered_Editor_init|intros _].
    apply keeps_ret.
  - apply keeps_on_screen. intros _. apply shown_registered_on_close.
Qed.

End ShownRegistered.

Lemma well_formed_document_step (self : nat) (a a' : app) :
  document_step self a a' -> well_formed a -> well_formed a'.
Proof.
  intros Hstep (Hnd & Hobj & Hshape).
  destruct (heap a !! self) as [e|] eqn:He.
  - destruct (document_step_elim self a a' e He Hstep)
      as (e' & msgs & (Hr & Hp & _) & Hh & _ & _ & _ & Hreg & _).
    split_and!.
    + by rewrite Hreg.
    + intros y Hy. rewrite Hh. apply lookup_insert_is_Some'. right.
      apply Hobj. by rewrite <- Hreg.
    + intros y ey. rewrite Hh. intros Hy.
      apply lookup_insert_Some in Hy as [[_ <-]|[_ Hy]].
      * rewrite Hr, Hp. by apply (Hshape self).
      * by apply (Hshape y).
  - unfold document_step in Hstep. rewrite He in Hstep. by rewrite Hstep.
Qed.

Lemma shown_registered_document_step (self : nat) (a a' : app) :
  document_step self a a' -> shown_registered a -> shown_registered a'.
Proof.
  intros Hstep Hs. destruct (heap a !! self) as [e|] eqn:He.
  - destruct (document_step_elim self a a' e He Hstep)
      as (e' & msgs & (_ & _ & Hw & _) & Hh & _ & _ & _ & Hreg & _).
    intros y ey. rewrite Hh, Hreg. intros Hy Hshown.
    apply lookup_insert_Some in Hy as [[<- <-]|[_ Hy]].
    + apply (Hs self e He). by rewrite <- Hw.
    + by apply (Hs y ey).
  - unfold document_step in Hstep. rewrite He in Hstep. by rewrite Hstep.
Qed.

(** The registry as the event loop finds it, whatever the disk holds
    and whatever was done before. *)
Lemma registry_always (w : world) (depth : nat) (acts : list activity) :
  well_formed (run_all depth acts (exec main (fresh_process w))) /\
  shown_registered (run_all depth acts (exec main (fresh_process w))).
Proof.
  assert (keeps (fun s => well_formed s /\ shown_registered s) main) as Hmain.
  { unfold main.
    apply keeps_bind; [|intros theme].
    { apply keeps_load_settings. intros s s' Hr Hh [? ?].
      split; [by apply (well_formed_frame s)|by apply (shown_registered_frame s)]. }
    apply keeps_bind; [by intros s [? ?]|intros _].
    intros s [? ?].
    split; [by apply well_formed_Editor_init|by apply shown_registered_Editor_init]. }
  assert (well_formed (exec main (fresh_process w)) /\
          shown_registered (exec main (fresh_process w))) as Hstart.
  { apply Hmain. split.
    - split_and!; cbn; [apply NoDup_nil_2| |].
      + intros x Hx. by apply elem_of_nil in Hx.
      + intros x e Hx. by rewrite lookup_empty in Hx.
    - intros x e. cbn. by rewrite lookup_empty. }
  revert Hstart. generalize (exec main (fresh_process w)).
  induction acts as [|act acts IH]; intros s Hs; [exact Hs|].
  cbn. apply IH. destruct Hs as [Hwf Hsr]. destruct act as [self ev|ev]; cbn [perform].
  - pose proof (interact_step self depth ev s) as Hstep. split.
    + by apply (well_formed_document_step self s).
    + by apply (shown_registered_document_step self s).
  - split; [by apply well_formed_handle|by apply shown_registered_handle].
Qed.

(** X15. From the start of the program on, whatever the settings
    file holds and whatever the user does, the registry lists no editor
    twice and lists constructed editors only, and every window that is
    on screen is registered.  So the close button of a window never
    fails: [all_editors.remove(self)] finds the editor, and the handler
    returns. *)
Theorem close_button_never_fails
    (w : world) (depth : nat) (acts : list activity) (x : nat) (e : Editor) :
  let s := run_all depth acts (exec main (fresh_process w)) in
  heap s !! x = Some e ->
  NoDup (all_editors s) /\
  (forall y, y ∈ all_editors s -> is_Some (heap s !! y)) /\
  (wm (window e) = Shown -> x ∈ all_editors s) /\
  raised (handle (CloseWindow x)) s = None.
Proof.
  intros s Hx.
  destruct (registry_always w depth acts) as [(Hnd & Hobj & _) Hsr]. fold s in Hnd, Hobj, Hsr.
  split_and!; [exact Hnd|exact Hobj|by apply (Hsr x e)|].
  unfold raised. cbn [handle].
  destruct (wm (window e)) eqn:Hw.
  - rewrite (on_screen_shown s x e _ Hx Hw).
    destruct (list_remove_elem x (all_editors s) (Hsr x e Hx Hw)) as [eds' Hrem].
    by rewrite (on_close_ok s x e eds' Hx Hrem).
  - rewrite (on_screen_hidden s x e _ Hx); [done|by rewrite Hw].
  - rewrite (on_screen_hidden s x e _ Hx); [done|by rewrite Hw].
Qed.

Lemma close_button_never_fails_witness :
  heap (run_all 1000 [InWindow 0 (KeyPress (KChar "a"))]
          (exec main (fresh_process locked_disk))) !! 0 = Some typed_a /\
  raised (handle (CloseWindow 0))
         (run_all 1000 [InWindow 0 (KeyPress (KChar "a"))]
            (exec main (fresh_process locked_disk))) = None.
Proof.
  split; [reflexivity|].
  exact (proj2 (proj2 (proj2
           (close_button_never_fails locked_disk 1000
              [InWindow 0 (KeyPress (KChar "a"))] 0 typed_a eq_refl)))).
Defined.

(** ** Handlers that close no window *)

Section ExceptClose.

Context (P : app -> Prop).

(** [P] speaks of the registry, the heap and the quit flag only; it
    survives a restyling and the registration of a new window. *)
Hypothesis P_only :
  forall s s', all_editors s' = all_editors s -> heap s' = heap s ->
               mainloop_quit s' = mainloop_quit s -> P s -> P s'.
Hypothesis P_upd : forall x f, styling f -> keeps P (self_upd x f).
Hypothesis P_new : forall parent is_root s, P s -> P (constructed parent is_root s).

Lemma except_close_save_settings (theme_name : json) :
  keeps P (save_settings theme_name).
Proof.
  unfold save_settings.
  repeat first [ apply keeps_gets | apply keeps_lift
               | apply keeps_bind; [|intros ?] ].
  intros s Hs. unfold json_dump. destruct (settings_denied (disk s)); [exact Hs|].
  by apply (P_only s).
Qed.

Lemma except_close_Editor_init (parent : list nat) (is_root : bool) :
  keeps P (Editor_init parent is_root).
Proof.
  intros s Hs. rewrite Editor_init_constructed.
  assert (keeps P
            (theme <- gets current_theme;;
             apply_theme (fresh (dom (heap s))) theme;;
             size <- gets current_font_size;;
             apply_font_size (fresh (dom (heap s))) size;;
             ret (fresh (dom (heap s))))) as Hrest.
  { apply keeps_bind; [apply keeps_gets|intros theme].
    apply keeps_bind;
      [apply (keeps_restyle _ _ theme JNull); intros f; apply P_upd|intros _].
    apply keeps_bind; [apply keeps_gets|intros size].
    apply keeps_bind;
      [apply (keeps_restyle _ _ JNull size); intros f; apply P_upd|intros _].
    apply keeps_ret. }
  by apply Hrest, P_new.
Qed.

Lemma except_close_handle (ev : event) :
  (forall x, ev <> CloseWindow x) -> keeps P (handle ev).
Proof.
  intros Hev. destruct ev as [selected|size|x|x]; cbn [handle].
  - unfold open_theme_settings.apply_theme.
    apply keeps_bind; [intros s Hs; by apply (P_only s)|intros _].
    apply keeps_bind; [apply keeps_gets|intros theme].
    apply keeps_bind; [apply except_close_save_settings|intros _].
    apply keeps_bind; [apply keeps_gets|intros eds].
    apply keeps_bind; [apply keeps_gets|intros theme'].
    apply keeps_for_each. intros y _.
    apply (keeps_restyle _ y theme' JNull). intros f. apply P_upd.
  - unfold open_font_size_settings.apply_font_size.
    apply keeps_bind; [intros s Hs; by apply (P_only s)|intros _].
    apply keeps_bind; [apply keeps_gets|intros theme].
    apply keeps_bind; [apply except_close_save_settings|intros _].
    apply keeps_bind; [apply keeps_gets|intros eds].
    apply keeps_bind; [apply keeps_gets|intros size'].
    apply keeps_for_each. intros y _.
    apply (keeps_restyle _ y JNull size'). intros f. apply P_upd.
  - apply keeps_on_screen. intros w.
    apply keeps_bind; [apply except_close_Editor_init|intros _]. apply keeps_ret.
  - by destruct (Hev x).
Qed.

End ExceptClose.

(** ** A window destroyed with its parent *)

Section Stranded.

Context (y : nat).

(** [y] is stranded and the main loop has not been told to quit. *)
Let stuck (s : app) : Prop := stranded y s /\ mainloop_quit s = false.

Lemma stuck_only (s s' : app) :
  all_editors s' = all_editors s -> heap s' = heap s ->
  mainloop_quit s' = mainloop_quit s -> stuck s -> stuck s'.
Proof.
  intros Hr Hh Hq [[Hin (e & He & Hw)] Hquit]. split; [split|].
  - by rewrite Hr.
  - exists e. by rewrite Hh.
  - by rewrite Hq.
Qed.

Lemma stuck_self_upd (x : nat) (f : Editor -> Editor) :
  styling f -> keeps stuck (self_upd x f).
Proof.
  intros Hf s [[Hin (e & He & Hw)] Hquit]. split; [split|]; [exact Hin| |exact Hquit].
  cbn. destruct (decide (x = y)) as [->|Hne].
  - exists (f e). rewrite lookup_alter_eq, He. split; [done|].
    by destruct (Hf e) as [_ ->].
  - exists e. by rewrite lookup_alter_ne.
Qed.

Lemma stuck_constructed (parent : list nat) (is_root : bool) (s : app) :
  stuck s -> stuck (constructed parent is_root s).
Proof.
  intros [[Hin (e & He & Hw)] Hquit]. split; [split|]; [| |exact Hquit].
  - cbn. apply elem_of_app. by left.
  - exists e. cbn. rewrite lookup_insert_ne; [done|].
    intros Heq. rewrite <- Heq, fresh_not_in_heap in He. discriminate.
Qed.

(** Closing a window that is on screen does not release [y]. *)
Lemma stuck_on_close (x : nat) (s : app) (ex : Editor) :
  stuck s -> heap s !! x = Some ex -> wm (window ex) = Shown ->
  stuck (snd (on_close x s)).
Proof.
  intros [[Hin (e & He & Hw)] Hquit] Hx Hshown.
  assert (y <> x) as Hne by (intros ->; congruence).
  destruct (list_remove x (all_editors s)) as [eds'|] eqn:Hrem.
  - pose proof (list_remove_other x y _ _ Hrem Hne Hin) as Hin'.
    rewrite (on_close_ok s x ex eds' Hx Hrem). cbn [snd]. cbn zeta.
    assert (is_nil eds' = false) as -> by (by destruct eds'; [apply elem_of_nil in Hin'|]).
    split; [split|]; [exact Hin'| |exact Hquit].
    exists (after_close x ex y e). cbn.
    rewrite (lookup_closed_heap _ _ _ _ Hx), He. split; [done|].
    by destruct (after_close_other x y ex e Hne) as [-> | ->].
  - rewrite on_close_unregistered; [by split; [split; [|exists e]|]|].
    intros Hx'. destruct (list_remove_elem x _ Hx'). congruence.
Qed.

Lemma stuck_perform (depth : nat) (act : activity) : keeps stuck (perform depth act).
Proof.
  destruct act as [self ev|ev]; cbn [perform].
  - intros s [[Hin (e & He & Hw)] Hquit].
    pose proof (interact_step self depth ev s) as Hstep. unfold exec in Hstep.
    destruct (heap s !! self) as [es|] eqn:Hs.
    + destruct (document_step_elim self s _ es Hs Hstep)
        as (e' & msgs & (_ & _ & Hwm & _) & Hh & _ & _ & _ & Hreg & _ & _ & _ & _ & _ & Hq).
      split; [split|]; [by rewrite Hreg| |by rewrite Hq].
      rewrite Hh. destruct (decide (self = y)) as [->|Hne].
      * exists e'. rewrite lookup_insert_eq. split; [done|]. congruence.
      * exists e. by rewrite lookup_insert_ne.
    + unfold document_step in Hstep. rewrite Hs in Hstep. rewrite Hstep.
      by split; [split; [|exists e]|].
  - destruct ev as [selected|size|x|x].
    1-3: apply (except_close_handle stuck stuck_only stuck_self_upd stuck_constructed);
         by intros ?.
    cbn [handle]. apply keeps_on_screen_shown. intros s e Hs Hx Hw.
    by apply (stuck_on_close x s e).
Qed.

End Stranded.

(** X9. A stranded window, one whose editor is registered although
    its window was destroyed, stays stranded for good, and with it the
    process: whatever the user does afterwards in any window, the
    registry never becomes empty and the main loop is never told to
    quit. *)
Theorem stranded_window_blocks_quit
    (s : app) (y : nat) (depth : nat) (acts : list activity) :
  stranded y s ->
  mainloop_quit s = false ->
  stranded y (run_all depth acts s) /\
  all_editors (run_all depth acts s) <> [] /\
  mainloop_quit (run_all depth acts s) = false.
Proof.
  intros Hy Hq.
  assert (stranded y (run_all depth acts s) /\
          mainloop_quit (run_all depth acts s) = false) as [Hs' Hq'].
  { assert (stranded y s /\ mainloop_quit s = false) as Hs by done.
    clear Hy Hq. revert s Hs.
    induction acts as [|act acts IH]; intros s Hs; [exact Hs|].
    cbn. apply IH. by apply stuck_perform. }
  split_and!; [exact Hs'| |exact Hq'].
  destruct Hs' as [Hin _]. intros Hnil. rewrite Hnil in Hin.
  by apply elem_of_nil in Hin.
Qed.

Lemma stranded_window_blocks_quit_witness :
  stranded 2 (run_all 1000 [Windows (CloseWindow 0); Windows (CloseWindow 2)]
                (exec (on_close 1) three_windows)) /\
  mainloop_quit (run_all 1000 [Windows (CloseWindow 0); Windows (CloseWindow 2)]
                   (exec (on_close 1) three_windows)) = false.
Proof.
  destruct (stranded_window_blocks_quit (exec (on_close 1) three_windows) 2 1000
              [Windows (CloseWindow 0); Windows (CloseWindow 2)])
    as (H1 & _ & H3).
  - split; [exact (list_elem_of_further 2 0 [2] (list_elem_of_here 2 []))|].
    exists (set_wm Destroyed (child_window [1; 2])). by split.
  - reflexivity.
  - split; assumption.
Defined.

Lemma under_app (p q : list nat) : under p (p ++ q) = true.
Proof. induction p as [|n p IH]; [done|]. cbn. by rewrite Nat.eqb_refl. Qed.

(** X8. Closing a window that is not the root window strands every
    window that was opened from it.  After "Open New Window" in such a
    window the new window is on screen and registered; when the first
    window is then closed, the new one is destroyed with it but its
    editor stays in the registry. *)
Theorem closing_parent_strands_child (a : app) (x : nat) (e : Editor) :
  heap a !! x = Some e ->
  is_root e = false ->
  wm (window e) = Shown ->
  x ∈ all_editors a ->
  let child := fresh (dom (heap a)) in
  let a1 := exec (handle (OpenNewWindow x)) a in
  let a2 := exec (handle (CloseWindow x)) a1 in
  (child ∈ all_editors a1 /\
   exists ec, heap a1 !! child = Some ec /\ wm (window ec) = Shown /\
              pathname (window ec) = (pathname (window e) ++ [child])%list) /\
  raised (handle (CloseWindow x)) a1 = None /\
  stranded child a2.
Proof.
  intros Hx Hroot Hshown Hin child a1 a2.
  assert (x <> child) as Hne.
  { intros ->. subst child. by rewrite fresh_not_in_heap in Hx. }
  set (P := fun s : app =>
         child ∈ all_editors s /\ x ∈ all_editors s /\ heap s !! x = Some e /\
         exists ec, heap s !! child = Some ec /\ wm (window ec) = Shown /\
                    pathname (window ec) = (pathname (window e) ++ [child])%list).
  assert (P a1) as (Hc1 & Hx1 & Hex1 & ec & Hec & Hwc & Hpc).
  { subst a1. unfold exec. cbn [handle].
    rewrite (on_screen_shown a x e _ Hx Hshown). unfold bind at 1.
    rewrite Editor_init_constructed. fold child.
    assert (keeps P
              (theme <- gets current_theme;;
               apply_theme child theme;;
               size <- gets current_font_size;;
               apply_font_size child size;;
               ret child)) as Hrest.
    { assert (forall f, styling f -> keeps P (self_upd child f)) as Hupd.
      { intros f Hf s (? & ? & Hxs & ec & Hec & Hwc & Hpc).
        split_and!; [done|done|by cbn; rewrite lookup_alter_ne| ].
        exists (f ec). cbn. rewrite lookup_alter_eq, Hec.
        destruct (Hf ec) as [_ ->]. by split_and!. }
      apply keeps_bind; [apply keeps_gets|intros theme].
      apply keeps_bind; [by apply (keeps_restyle _ _ theme JNull)|intros _].
      apply keeps_bind; [apply keeps_gets|intros size].
      apply keeps_bind; [by apply (keeps_restyle _ _ JNull size)|intros _].
      apply keeps_ret. }
    specialize (Hrest (constructed (pathname (window e)) false a)).
    match goal with
    | |- P (snd (let (_, _) := ?m in _)) => destruct m as [[err|self] s1]
    end; cbn [snd] in *; apply Hrest;
      (split_and!;
       [ cbn; apply elem_of_app; right; apply list_elem_of_here
       | cbn; apply elem_of_app; by left
       | cbn; by rewrite lookup_insert_ne
       | eexists; split; [apply heap_constructed|by split] ]). }
  assert (child ∈ all_editors a1 /\
          exists ec, heap a1 !! child = Some ec /\ wm (window ec) = Shown /\
                     pathname (window ec) = (pathname (window e) ++ [child])%list) as H1.
  { split; [exact Hc1|]. by exists ec. }
  destruct (list_remove_elem x (all_editors a1) Hx1) as [eds' Hrem].
  assert (child ∈ eds') as Hc2.
  { apply (list_remove_other x child _ _ Hrem); [by intros ->|exact Hc1]. }
  assert (handle (CloseWindow x) a1
          = (inr tt, set_heap (closed_heap x e (heap a1)) (set_all_editors eds' a1)))
    as Hclose.
  { cbn [handle]. rewrite (on_screen_shown a1 x e _ Hex1 Hshown).
    rewrite (on_close_ok a1 x e eds' Hex1 Hrem). cbn zeta.
    by destruct eds'; [apply elem_of_nil in Hc2|]. }
  subst a2. unfold exec, raised. rewrite Hclose. cbn [fst snd].
  split; [exact H1|]. split; [done|]. split; [exact Hc2|].
  exists (set_wm Destroyed ec). cbn.
  rewrite (lookup_closed_heap _ _ _ _ Hex1), Hec. cbn. split; [|done].
  f_equal. unfold after_close, gone. by rewrite Hroot, Hpc, under_app.
Qed.

Lemma closing_parent_strands_child_witness :
  raised (handle (CloseWindow 1)) (exec (handle (OpenNewWindow 1)) three_windows)
  = None /\
  stranded 3 (exec (handle (CloseWindow 1))
                (exec (handle (OpenNewWindow 1)) three_windows)).
Proof.
  destruct (closing_parent_strands_child three_windows 1 (child_window [1])
              eq_refl eq_refl eq_refl) as (_ & H2 & H3).
  - exact (list_elem_of_further 1 0 [1; 2] (list_elem_of_here 1 [2])).
  - split; [exact H2|exact H3].
Defined.

(** ** The title *)

Lemma last_segment_whole (sep : ascii) (s : string) :
  occurs sep s = false -> last_segment sep s = s.
Proof.
  unfold occurs. destruct s as [|c s]; [done|].
  cbn [list_ascii_of_string existsb last_segment]. intros H.
  apply orb_false_iff in H as [Hc Hs]. unfold occurs. rewrite Hs.
  by rewrite Ascii.eqb_sym, Hc.
Qed.

Lemma last_segment_after (sep : ascii) (dir name : string) :
  occurs sep name = false ->
  last_segment sep (dir +:+ String sep name) = name.
Proof.
  intros Hn. induction dir as [|c dir IH].
  - change (EmptyString +:+ String sep name) with (String sep name).
    cbn [last_segment]. by rewrite Hn, Ascii.eqb_refl.
  - change (String c dir +:+ String sep name)
      with (String c (dir +:+ String sep name)).
    cbn [last_segment]. rewrite occurs_app.
    replace (occurs sep (String sep name)) with true; [by rewrite orb_true_r|].
    unfold occurs. cbn [list_ascii_of_string existsb]. by rewrite Ascii.eqb_refl.
Qed.

Lemma last_segment_app (sep : ascii) (s t : string) :
  occurs sep t = false ->
  last_segment sep (s +:+ t) = last_segment sep s +:+ t.
Proof.
  intros Ht. induction s as [|c s IH].
  - by apply last_segment_whole.
  - change (String c s +:+ t) with (String c (s +:+ t)).
    cbn [last_segment]. rewrite occurs_app, Ht, orb_false_r.
    destruct (occurs sep s); [exact IH|]. by destruct (Ascii.eqb c sep).
Qed.

Lemma truthy_app (s : string) (c : ascii) (t : string) :
  truthy (s +:+ String c t) = true.
Proof. by destruct s. Qed.

(** X10. The title names the document by what follows the last
    slash or backslash of its path, whichever separator the path uses,
    with [" *"] appended exactly when the document is modified; a path
    that ends in a separator gives an empty name. *)
Theorem title_shows_last_component (dir name : string) (sep : ascii) (m : bool) :
  sep = "/"%char \/ sep = "\"%char ->
  occurs "/" name = false ->
  occurs "\" name = false ->
  title_of (MkDocId (Some (dir +:+ String sep name)) m)
  = if m then ("LandText - " +:+ name) +:+ " *" else "LandText - " +:+ name.
Proof.
  intros Hsep Hslash Hback. unfold title_of. cbn [path modified].
  rewrite truthy_app.
  assert (last_segment "\" (last_segment "/" (dir +:+ String sep name)) = name)
    as ->.
  { destruct Hsep as [-> | ->].
    - rewrite last_segment_after by done. by apply last_segment_whole.
    - rewrite last_segment_app.
      + by apply last_segment_after.
      + unfold occurs in *. cbn [list_ascii_of_string existsb]. by rewrite Hslash. }
  by destruct m.
Qed.

Lemma title_shows_last_component_witness :
  title_of (MkDocId (Some "C:\docs\a.txt") true) = "LandText - a.txt *" /\
  title_of (MkDocId (Some "/home/u/notes/") false) = "LandText - ".
Proof.
  split.
  - exact (title_shows_last_component "C:\docs" "a.txt" "\" true
             (or_intror eq_refl) eq_refl eq_refl).
  - exact (title_shows_last_component "/home/u/notes" "" "/" false
             (or_introl eq_refl) eq_refl eq_refl).
Defined.

(** ** The unsaved-changes dialog, once more *)

(** X11. The "Save" button of the unsaved-changes dialog does save:
    when the document has a path that can be written, the handler writes
    the buffer to it and clears the modified flag before it ends in
    [RecursionError] without having run the requested action.  The
    buffer is then unmodified, so "New" chosen a second time clears it
    without asking. *)
Theorem save_button_then_new
    (depth : nat) (a : app) (self : nat) (e : Editor) (p : string) (w : world) :
  heap a !! self = Some e ->
  modified (current_file e) = true ->
  path (current_file e) = Some p ->
  truthy p = true ->
  fs_write (disk a) p (text_get_all (text_area e)) = inr w ->
  let a1 := exec (new_file self) a in
  let a2 := exec (press (S depth) self SaveButton "") a1 in
  let a3 := exec (new_file self) a2 in
  raised (press (S depth) self SaveButton "") a1 = Some RecursionError /\
  disk a2 = w /\
  (exists e2, heap a2 !! self = Some e2 /\
              current_file e2 = MkDocId (Some p) false /\
              text_area e2 = text_area e) /\
  raised (new_file self) a2 = None /\
  (exists e3, heap a3 !! self = Some e3 /\
              current_file e3 = MkDocId None false /\
              cells (text_area e3) = []).
Proof.
  intros Hs Hm Hp Ht Hw a1 a2 a3.
  assert (a1 = put self (asking e) a) as Ha1.
  { subst a1. unfold exec. by rewrite (new_file_dirty a self e Hs Hm). }
  clearbody a1. subst a1.
  set (e1 := resaved (dialog_closed (asking e))).
  destruct (on_discard_never_returns depth self ""
              (put self e1 (set_disk w a)) e1 (heap_put _ _ _))
    as (e2 & Hcall & Ht2 & Hc2 & _).
  assert (press (S depth) self SaveButton "" (put self (asking e) a)
          = (inl RecursionError, put self e2 (set_disk w a))) as Hpress.
  { unfold press, bind. rewrite (self_get_ok _ self (asking e)) by apply heap_put.
    cbn [asking set_unsaved_dialog unsaved_dialog dialog_open save_command
         dont_save_command on_discard_cell call].
    unfold bind. rewrite (dialog_destroy_ok _ self (asking e)) by apply heap_put.
    rewrite put_put.
    erewrite save_file_ok; [|apply heap_put|exact Hp|exact Ht|exact Hw].
    assert (put self (resaved (dialog_closed (asking e)))
                (set_disk w (put self (dialog_closed (asking e)) a))
            = put self e1 (set_disk w a)) as ->.
    { unfold put. cbn. by rewrite insert_insert_eq. }
    rewrite Hcall. by rewrite put_put. }
  assert (a2 = put self e2 (set_disk w a)) as Ha2.
  { subst a2. unfold exec. by rewrite Hpress. }
  clearbody a2. subst a2.
  assert (modified (current_file e2) = false) as Hm2 by (by rewrite Hc2).
  assert (a3 = put self (cleared e2) (put self e2 (set_disk w a))) as Ha3.
  { subst a3. unfold exec.
    by rewrite (new_file_clean _ self e2 (heap_put _ _ _) Hm2). }
  clearbody a3. subst a3.
  unfold raised. rewrite Hpress.
  rewrite (new_file_clean _ self e2 (heap_put _ _ _) Hm2). cbn [fst].
  split_and!; try done.
  - exists e2. split; [apply heap_put|]. split; [|by rewrite Ht2].
    rewrite Hc2. cbn. by rewrite Hp.
  - exists (cleared e2). split; [apply heap_put|done].
Qed.

Lemma save_button_then_new_witness :
  raised (press 1000 0 SaveButton "")
         (exec (new_file 0) (one_window editing_a_txt locked_disk))
  = Some RecursionError /\
  raised (new_file 0)
         (exec (press 1000 0 SaveButton "")
            (exec (new_file 0) (one_window editing_a_txt locked_disk)))
  = None.
Proof.
  destruct (save_button_then_new 999 (one_window editing_a_txt locked_disk) 0
              editing_a_txt "/tmp/a.txt" _ eq_refl eq_refl eq_refl eq_refl eq_refl)
    as (H1 & _ & _ & H4 & _).
  split; assumption.
Defined.

(** ** Find, once more *)

Lemma dict_set_idem (k : string) (v : json) (d : dict) :
  dict_set k v (dict_set k v d) = dict_set k v d.
Proof.
  induction d as [|[k' v'] d IH]; cbn.
  - by rewrite String.eqb_refl.
  - destruct (String.eqb k k') eqn:Hk; cbn.
    + by rewrite String.eqb_refl.
    + by rewrite Hk, IH.
Qed.

(** The loop reads and writes the cells only: the rest of the widget
    passes through it. *)
Lemma find_loop_cells (search_term : string) (fuel : nat) :
  forall (idx : nat) (fm : option nat) (t : Text),
    find_loop fuel search_term idx fm t =
    match find_loop fuel search_term idx fm (MkText (cells t) 0 [] [] None false) with
    | Some (fm', ranges, t') =>
        Some (fm', ranges,
              MkText (cells t') (insert_mark t) (text_options t)
                     (found_options t) (seen t) (focused t))
    | None => None
    end.
Proof.
  induction fuel as [|fuel IH]; intros idx fm t; [done|].
  cbn [find_loop].
  change (text_search search_term idx (MkText (cells t) 0 [] [] None false))
    with (text_search search_term idx t).
  destruct (text_search search_term idx t) as [i|]; [|by destruct t].
  rewrite IH.
  change (tag_add i (i + String.length search_term) (MkText (cells t) 0 [] [] None false))
    with (MkText (cells (tag_add i (i + String.length search_term) t)) 0 [] [] None false).
  by destruct (find_loop fuel _ _ _ _) as [[[fm1 r1] t1]|].
Qed.

Lemma find_loop_chars (search_term : string) (fuel : nat) :
  forall (idx : nat) (fm fm' : option nat) (t t' : Text) (ranges : list (nat * nat)),
    find_loop fuel search_term idx fm t = Some (fm', ranges, t') ->
    chars t' = chars t.
Proof.
  induction fuel as [|fuel IH]; intros idx fm fm' t t' ranges; [discriminate|].
  cbn [find_loop]. destruct (text_search search_term idx t) as [i|].
  - destruct (find_loop fuel _ _ _ _) as [[[fm1 r1] t1]|] eqn:Hrec; [|discriminate].
    intros [= <- <- <-]. apply IH in Hrec. by rewrite Hrec, chars_tag_add.
  - by intros [= <- <- <-].
Qed.

(** [first_match] is where the first range begins. *)
Lemma find_loop_first (search_term : string) (fuel : nat) :
  forall (idx : nat) (fm fm' : option nat) (t t' : Text) (ranges : list (nat * nat)),
    find_loop fuel search_term idx fm t = Some (fm', ranges, t') ->
    fm' = match fm with Some _ => fm | None => fst <$> head ranges end.
Proof.
  induction fuel as [|fuel IH]; intros idx fm fm' t t' ranges; [discriminate|].
  cbn [find_loop]. destruct (text_search search_term idx t) as [i|].
  - destruct (find_loop fuel _ _ _ _) as [[[fm1 r1] t1]|] eqn:Hrec; [|discriminate].
    intros [= <- <- <-]. apply IH in Hrec. rewrite Hrec. by destruct fm.
  - intros [= <- <- <-]. by destruct fm.
Qed.

(** What [do_find] makes of a widget whose characters are [cs], for a
    term that is not empty: the loop ends, and all but the tags, the
    tag's background, the view and the focus is kept. *)
Lemma find_all_shape (search_term : string) (t : Text) (cs : list ascii) :
  truthy search_term = true -> chars t = cs ->
  exists fm ranges t1,
    find_loop (S (length cs)) search_term 0 None
              (MkText (map (fun c => (c, false)) cs) 0 [] [] None false)
    = Some (fm, ranges, t1) /\
    fm = fst <$> head ranges /\
    chars t1 = cs /\
    find_all search_term t
    = Some (ranges,
            MkText (cells t1) (insert_mark t) (text_options t)
                   (dict_set "background" (JStr "yellow") (found_options t))
                   (match fm with Some i => Some i | None => seen t end)
                   (match fm with Some _ => true | None => focused t end)).
Proof.
  intros Ht <-.
  assert (search_term <> EmptyString) as Hne by (by destruct search_term).
  set (t0 := MkText (map (fun c => (c, false)) (chars t)) 0 [] [] None false).
  destruct (find_loop_spec search_term (S (length (chars t))) Hne 0 None t0)
    as (fm & ranges & t1 & Hrun & _).
  { unfold t0, chars. cbn [cells]. rewrite !length_map. lia. }
  exists fm, ranges, t1. split_and!.
  - exact Hrun.
  - by apply find_loop_first in Hrun.
  - apply find_loop_chars in Hrun. rewrite Hrun. unfold t0, chars. cbn [cells].
    rewrite map_map. cbn [fst]. apply map_id.
  - unfold find_all. rewrite Ht, find_loop_cells.
    assert (MkText (cells (tag_remove_all t)) 0 [] [] None false = t0) as ->.
    { unfold t0, tag_remove_all, chars. cbn [cells]. by rewrite map_map. }
    assert (length (cells (tag_remove_all t)) = length (chars t)) as ->.
    { unfold tag_remove_all, chars. cbn [cells]. by rewrite !length_map. }
    rewrite Hrun. cbv zeta. by destruct fm.
Qed.

Lemma tag_remove_all_idem (t : Text) :
  tag_remove_all (tag_remove_all t) = tag_remove_all t.
Proof. unfold tag_remove_all. cbn. by rewrite map_map. Qed.

(** X16. "Find All" always returns.  It leaves the characters, the
    cursor and the options of the text area, the document's path and
    modified flag, the title and everything outside the editor as they
    were.  Besides the highlights it changes three things only: the
    background of the highlight tag becomes yellow when the term is not
    empty, and when something was found the view is asked to show the
    first match and the text area takes the keys.  Searching for the same
    term again changes nothing at all. *)
Theorem find_leaves_document_alone
    (a : app) (self : nat) (e : Editor) (search_term : string) :
  heap a !! self = Some e ->
  exists ranges t',
    do_find self search_term a = (inr ranges, put self (set_text_area t' e) a) /\
    chars t' = chars (text_area e) /\
    insert_mark t' = insert_mark (text_area e) /\
    text_options t' = text_options (text_area e) /\
    found_options t'
    = (if truthy search_term
       then config [ ("background", JStr "yellow") ] (found_options (text_area e))
       else found_options (text_area e)) /\
    (seen t', focused t')
    = match head ranges with
      | Some r => (Some r.1, true)
      | None => (seen (text_area e), focused (text_area e))
      end /\
    do_find self search_term (put self (set_text_area t' e) a)
    = (inr ranges, put self (set_text_area t' e) a).
Proof.
  intros Hs.
  assert (forall t t' ranges, find_all search_term t = Some (ranges, t') ->
            find_all search_term t' = Some (ranges, t') ->
            do_find self search_term a
            = (inr ranges, put self (set_text_area t' e) a) ->
            do_find self search_term (put self (set_text_area t' e) a)
            = (inr ranges, put self (set_text_area t' e) a)) as Hagain.
  { intros t t' ranges _ Hfind' _. unfold do_find, bind.
    rewrite (self_get_ok _ self (set_text_area t' e)) by apply heap_put.
    cbn [text_area set_text_area]. rewrite Hfind'.
    rewrite (self_upd_ok _ self (set_text_area t' e)) by apply heap_put.
    by rewrite put_put. }
  assert (forall t' ranges, find_all search_term (text_area e) = Some (ranges, t') ->
            do_find self search_term a
            = (inr ranges, put self (set_text_area t' e) a)) as Hfirst.
  { intros t' ranges Hfind. unfold do_find, bind.
    rewrite (self_get_ok a self e _ Hs), Hfind.
    by rewrite (self_upd_ok a self e _ Hs). }
  destruct (truthy search_term) eqn:Ht.
  - destruct (find_all_shape search_term (text_area e) _ Ht eq_refl)
      as (fm & ranges & t1 & Hrun & Hfm & Hch & Hfind).
    eexists ranges, _. split; [by apply Hfirst|].
    split_and!; try done.
    + cbn [fst snd seen focused]. rewrite Hfm. by destruct (head ranges).
    + eapply Hagain; [exact Hfind| |by apply Hfirst].
      destruct (find_all_shape search_term
                  (MkText (cells t1) (insert_mark (text_area e))
                     (text_options (text_area e))
                     (dict_set "background" (JStr "yellow")
                               (found_options (text_area e)))
                     (match fm with Some i => Some i | None => seen (text_area e) end)
                     (match fm with Some _ => true | None => focused (text_area e) end))
                  (chars (text_area e)) Ht Hch)
        as (fm2 & ranges2 & t2 & Hrun2 & _ & _ & Hfind2).
      rewrite Hrun in Hrun2. injection Hrun2 as <- <- <-.
      rewrite Hfind2. cbn [insert_mark text_options found_options seen focused].
      rewrite dict_set_idem. by destruct fm.
  - assert (find_all search_term (text_area e)
            = Some ([], tag_remove_all (text_area e))) as Hfind.
    { unfold find_all. by rewrite Ht. }
    exists [], (tag_remove_all (text_area e)). split; [by apply Hfirst|].
    split_and!; try done.
    + apply chars_tag_remove_all.
    + eapply Hagain; [exact Hfind| |by apply Hfirst].
      unfold find_all. by rewrite Ht, tag_remove_all_idem.
Qed.

Lemma find_leaves_document_alone_witness :
  exists ranges t',
    do_find 0 "Y" (one_window typing_xy locked_disk)
    = (inr ranges, put 0 (set_text_area t' typing_xy)
                       (one_window typing_xy locked_disk)) /\
    chars t' = chars (text_area typing_xy) /\
    found_options t' = [ ("background", JStr "yellow") ].
Proof.
  destruct (find_leaves_document_alone (one_window typing_xy locked_disk) 0
              typing_xy "Y" eq_refl) as (ranges & t' & H1 & H2 & _ & _ & H5 & _).
  exists ranges, t'. split_and!; assumption.
Defined.

(** ** What the handlers of the windows leave of the globals *)

Ltac keeps_leaf :=
  let s := fresh "s" in let Hs := fresh "Hs" in
  intros s Hs;
  first [ exact Hs
        | unfold json_dump; destruct (settings_denied (disk s)); exact Hs ].

Ltac keeps_walk :=
  repeat first
    [ apply keeps_ret | apply keeps_raise | apply keeps_gets | apply keeps_lift
    | apply keeps_self_get | apply keeps_widget
    | apply keeps_on_screen; intros ?
    | apply keeps_for_each; intros ? _
    | apply keeps_bind; [|intros ?]
    | progress cbv zeta
    | match goal with
      | |- keeps _ (if ?b then _ else _) => destruct b
      | |- keeps _ (match ?x with Some _ => _ | None => _ end) => destruct x
      | |- keeps _ (match ?x with [] => _ | _ :: _ => _ end) => destruct x
      end
    | keeps_leaf ].

Ltac keeps_handlers :=
  unfold open_theme_settings.apply_theme, open_font_size_settings.apply_font_size,
    Editor_init, on_close, apply_theme, apply_font_size, save_settings, quit;
  keeps_walk.

Lemma handle_THEMES (T : dict) (ev : event) :
  keeps (fun s => THEMES s = T) (handle ev).
Proof. destruct ev; cbn [handle]; keeps_handlers. Qed.

Lemma handle_current_theme (c : json) (ev : event) :
  (forall selected, ev <> ApplyTheme selected) ->
  keeps (fun s => current_theme s = c) (handle ev).
Proof.
  intros Hev. destruct ev as [selected| | |]; [by destruct (Hev selected)|..];
    cbn [handle]; keeps_handlers.
Qed.

Lemma handle_current_font_size (c : json) (ev : event) :
  (forall size, ev <> ApplyFontSize size) ->
  keeps (fun s => current_font_size s = c) (handle ev).
Proof.
  intros Hev. destruct ev as [|size| |]; [|by destruct (Hev size)|..];
    cbn [handle]; keeps_handlers.
Qed.

Lemma handle_ApplyTheme_sets (selected : string) (a : app) :
  current_theme (exec (handle (ApplyTheme selected)) a) = JStr selected.
Proof.
  assert (keeps (fun s => current_theme s = JStr selected)
            (theme <- gets current_theme;;
             save_settings theme;;
             eds <- gets all_editors;;
             theme <- gets current_theme;;
             for_each eds (fun editor => apply_theme editor theme))) as Hk.
  { keeps_handlers. }
  exact (Hk (set_current_theme (JStr selected) a) eq_refl).
Qed.

Lemma handle_heap_dom (x : nat) (ev : event) :
  keeps (fun s => is_Some (heap s !! x)) (handle ev).
Proof.
  assert (forall y f, keeps (fun s => is_Some (heap s !! x)) (self_upd y f)) as Hupd.
  { intros y f s Hs. cbn. by apply lookup_alter_is_Some. }
  destruct ev; cbn [handle];
    unfold open_theme_settings.apply_theme, open_font_size_settings.apply_font_size,
      Editor_init, on_close, apply_theme, apply_font_size, save_settings, quit, destroy;
    repeat first
      [ apply Hupd
      | apply keeps_ret | apply keeps_raise | apply keeps_gets | apply keeps_lift
      | apply keeps_self_get | apply keeps_widget
      | apply keeps_on_screen; intros ?
      | apply keeps_for_each; intros ? _
      | apply keeps_bind; [|intros ?]
      | progress cbv zeta
      | match goal with
        | |- keeps _ (if ?b then _ else _) => destruct b
        | |- keeps _ (match ?x with Some _ => _ | None => _ end) => destruct x
        | |- keeps _ (match ?x with [] => _ | _ :: _ => _ end) => destruct x
        end
      | keeps_leaf
      | (intros s Hs; cbn; apply lookup_insert_is_Some'; by right)
      | (intros s Hs; cbn; rewrite lookup_fmap; by apply fmap_is_Some) ].
Qed.

(** ** A destroyed window stays destroyed *)

Section Gone.

Context (x : nat).

Let gone_x (s : app) : Prop :=
  exists e, heap s !! x = Some e /\ wm (window e) = Destroyed.

Lemma gone_only (s s' : app) :
  all_editors s' = all_editors s -> heap s' = heap s ->
  mainloop_quit s' = mainloop_quit s -> gone_x s -> gone_x s'.
Proof. intros _ Hh _ (e & He & Hw). exists e. by rewrite Hh. Qed.

Lemma gone_self_upd (y : nat) (f : Editor -> Editor) :
  styling f -> keeps gone_x (self_upd y f).
Proof.
  intros Hf s (e & He & Hw). unfold gone_x. cbn.
  destruct (decide (y = x)) as [->|Hne].
  - exists (f e). rewrite lookup_alter_eq, He. split; [done|].
    by destruct (Hf e) as [_ ->].
  - exists e. by rewrite lookup_alter_ne.
Qed.

Lemma gone_constructed (parent : list nat) (is_root : bool) (s : app) :
  gone_x s -> gone_x (constructed parent is_root s).
Proof.
  intros (e & He & Hw). exists e. cbn. rewrite lookup_insert_ne; [done|].
  intros Heq. rewrite <- Heq, fresh_not_in_heap in He. discriminate.
Qed.

Lemma gone_on_close (y : nat) (s : app) (ey : Editor) :
  gone_x s -> heap s !! y = Some ey -> wm (window ey) = Shown ->
  gone_x (snd (on_close y s)).
Proof.
  intros (e & He & Hw) Hy Hshown.
  assert (x <> y) as Hne by (intros ->; congruence).
  destruct (list_remove y (all_editors s)) as [eds'|] eqn:Hrem.
  - rewrite (on_close_ok s y ey eds' Hy Hrem). cbn [snd]. cbn zeta.
    assert (gone_x (set_heap (closed_heap y ey (heap s)) (set_all_editors eds' s)))
      as Hgoal.
    { exists (after_close y ey x e). cbn.
      rewrite (lookup_closed_heap _ _ _ _ Hy), He. split; [done|].
      by destruct (after_close_other y x ey e Hne) as [-> | ->]. }
    by destruct (is_nil eds').
  - rewrite on_close_unregistered; [by exists e|].
    intros Hy'. destruct (list_remove_elem y _ Hy'). congruence.
Qed.

Lemma gone_perform (depth : nat) (act : activity) :
  keeps gone_x (perform depth act).
Proof.
  destruct act as [self ev|ev]; cbn [perform].
  - intros s (e & He & Hw).
    pose proof (interact_step self depth ev s) as Hstep. unfold exec in Hstep.
    destruct (heap s !! self) as [es|] eqn:Hs.
    + destruct (document_step_elim self s _ es Hs Hstep)
        as (e' & msgs & (_ & _ & Hwm & _) & Hh & _).
      unfold gone_x. rewrite Hh. destruct (decide (self = x)) as [->|Hne].
      * exists e'. rewrite lookup_insert_eq. split; [done|]. congruence.
      * exists e. by rewrite lookup_insert_ne.
    + unfold document_step in Hstep. rewrite Hs in Hstep. rewrite Hstep.
      by exists e.
  - destruct ev as [selected|size|y|y].
    1-3: apply (except_close_handle gone_x gone_only gone_self_upd gone_constructed);
         by intros ?.
    cbn [handle]. apply keeps_on_screen_shown. intros s e Hs Hy Hw.
    by apply (gone_on_close y s e).
Qed.

End Gone.

Lemma perform_heap_dom (x : nat) (depth : nat) (act : activity) :
  keeps (fun s => is_Some (heap s !! x)) (perform depth act).
Proof.
  destruct act as [self ev|ev]; cbn [perform]; [|apply handle_heap_dom].
  intros s Hx.
  pose proof (interact_step self depth ev s) as Hstep. unfold exec in Hstep.
  destruct (heap s !! self) as [es|] eqn:Hs.
  - destruct (document_step_elim self s _ es Hs Hstep) as (e' & msgs & _ & Hh & _).
    rewrite Hh. apply lookup_insert_is_Some'. by right.
  - unfold document_step in Hstep. rewrite Hs in Hstep. by rewrite Hstep.
Qed.

Lemma ages_perform (depth : nat) (act : activity) : ages (perform depth act).
Proof.
  intros a x Hx. split; [by apply perform_heap_dom|].
  destruct Hx as [e He]. unfold window_exists at 2. rewrite He.
  destruct (wm (window e)) eqn:Hw; try done.
  destruct (gone_perform x depth act a) as (e' & He' & Hw'); [by exists e|].
  unfold window_exists. by rewrite He', Hw'.
Qed.

Lemma ages_same_heap {A} (m : M app A) :
  (forall a, heap (snd (m a)) = heap a) -> ages m.
Proof.
  intros Hm a x Hx. unfold window_exists. by rewrite Hm.
Qed.

Lemma save_settings_heap (theme_name : json) (a : app) :
  heap (snd (save_settings theme_name a)) = heap a.
Proof.
  assert (keeps (fun s => heap s = heap a) (save_settings theme_name)) as Hk.
  { unfold save_settings. keeps_walk. }
  by apply Hk.
Qed.

(** ** Handlers at the desk *)

Section DeskKeeps.

Context (I : desk -> Prop).

Lemma dk_ret {A} (x : A) : desk_keeps I (ret x).
Proof. by intros d Hd. Qed.

Lemma dk_raise {A} (err : exn) : desk_keeps I (raise (A := A) err).
Proof. by intros d Hd. Qed.

Lemma dk_gets {A} (f : desk -> A) : desk_keeps I (gets f).
Proof. by intros d Hd. Qed.

Lemma dk_lift {A} (r : exn + A) : desk_keeps I (lift r).
Proof. intros d Hd. by destruct r. Qed.

Lemma dk_theme_get (i : nat) : desk_keeps I (theme_get i).
Proof. intros d Hd. unfold theme_get. by destruct (theme_dialogs d !! i). Qed.

Lemma dk_bind {A B} (m : M desk A) (k : A -> M desk B) :
  desk_keeps I m -> (forall x, desk_keeps I (k x)) -> desk_keeps I (bind m k).
Proof.
  intros Hm Hk d Hd. unfold bind. specialize (Hm d Hd).
  destruct (m d) as [[err|x] d']; [exact Hm|]. by apply Hk.
Qed.

Lemma dk_for_each {A} (xs : list A) (body : A -> M desk unit) :
  (forall x, desk_keeps I (body x)) -> desk_keeps I (for_each xs body).
Proof.
  intros Hbody. induction xs as [|x xs IH]; [apply dk_ret|].
  cbn [for_each]. apply dk_bind; [apply Hbody|intros _; apply IH].
Qed.

Lemma dk_run (depth : nat) (evs : list desk_event) :
  (forall ev, desk_keeps I (desk_handle depth ev)) ->
  forall d, I d -> I (desk_run depth evs d).
Proof.
  intros Hev. induction evs as [|ev evs IH]; intros d Hd; [exact Hd|].
  cbn. apply IH. by apply Hev.
Qed.

End DeskKeeps.

Lemma in_process_snd {A} (m : M app A) (d : desk) :
  snd (in_process m d) = set_process (snd (m (process d))) d.
Proof. unfold in_process. by destruct (m (process d)). Qed.

(** ** One settings dialog of a kind *)

Section OneDialog.

Lemma one_dialog_in_process {A} (m : M app A) :
  ages m -> desk_keeps one_dialog (in_process m).
Proof.
  intros Hm d (Ht & Hf & Htr & Hfr). rewrite in_process_snd.
  split_and!.
  - intros i t Hi. by apply Hm, (Ht i).
  - intros i t Hi. by apply Hm, (Hf i).
  - intros i Hi. apply Htr. revert Hi. unfold theme_winfo_exists.
    cbn [theme_dialogs set_process process].
    destruct (theme_dialogs d !! i) as [t|] eqn:Hd; [|done].
    intros [Hn Hw]%andb_true_iff. apply andb_true_iff. split; [exact Hn|].
    by apply (Hm (process d) (theme_master t) (Ht i t Hd)).
  - intros i Hi. apply Hfr. revert Hi. unfold font_winfo_exists.
    cbn [font_dialogs set_process process].
    destruct (font_dialogs d !! i) as [t|] eqn:Hd; [|done].
    intros [Hn Hw]%andb_true_iff. apply andb_true_iff. split; [exact Hn|].
    by apply (Hm (process d) (font_master t) (Hf i t Hd)).
Qed.

Lemma one_dialog_theme_upd (i : nat) (f : ThemeDialog -> ThemeDialog) :
  (forall t, theme_master (f t) = theme_master t /\
             (theme_destroyed t = true -> theme_destroyed (f t) = true)) ->
  desk_keeps one_dialog (theme_upd i f).
Proof.
  intros Hf d (Ht & Hfo & Htr & Hfr). cbn. split_and!; cbn.
  - intros j t Hj. destruct (decide (j = i)) as [->|Hne].
    + rewrite lookup_alter_eq in Hj.
      destruct (theme_dialogs d !! i) as [t0|] eqn:Hd; [|done].
      injection Hj as <-. destruct (Hf t0) as [-> _]. by apply (Ht i).
    + rewrite lookup_alter_ne in Hj by done. by apply (Ht j).
  - exact Hfo.
  - intros j Hj. apply Htr. revert Hj. unfold theme_winfo_exists. cbn.
    destruct (decide (j = i)) as [->|Hne].
    + rewrite lookup_alter_eq.
      destruct (theme_dialogs d !! i) as [t0|] eqn:Hd; [|done]. cbn.
      destruct (Hf t0) as [-> Hdes].
      destruct (theme_destroyed t0); [by rewrite Hdes|].
      intros [_ Hw]%andb_true_iff. exact Hw.
    + by rewrite lookup_alter_ne.
  - exact Hfr.
Qed.

Lemma one_dialog_font_upd (i : nat) (f : FontDialog -> FontDialog) :
  (forall t, font_master (f t) = font_master t /\
             (font_destroyed t = true -> font_destroyed (f t) = true)) ->
  desk_keeps one_dialog (font_upd i f).
Proof.
  intros Hf d (Ht & Hfo & Htr & Hfr). cbn. split_and!; cbn.
  - exact Ht.
  - intros j t Hj. destruct (decide (j = i)) as [->|Hne].
    + rewrite lookup_alter_eq in Hj.
      destruct (font_dialogs d !! i) as [t0|] eqn:Hd; [|done].
      injection Hj as <-. destruct (Hf t0) as [-> _]. by apply (Hfo i).
    + rewrite lookup_alter_ne in Hj by done. by apply (Hfo j).
  - exact Htr.
  - intros j Hj. apply Hfr. revert Hj. unfold font_winfo_exists. cbn.
    destruct (decide (j = i)) as [->|Hne].
    + rewrite lookup_alter_eq.
      destruct (font_dialogs d !! i) as [t0|] eqn:Hd; [|done]. cbn.
      destruct (Hf t0) as [-> Hdes].
      destruct (font_destroyed t0); [by rewrite Hdes|].
      intros [_ Hw]%andb_true_iff. exact Hw.
    + by rewrite lookup_alter_ne.
Qed.

Lemma one_dialog_showinfo (caption body : string) :
  desk_keeps one_dialog (showinfo caption body).
Proof. by intros d Hd. Qed.

End OneDialog.

Ltac dk_walk leaf :=
  repeat first
    [ apply dk_ret | apply dk_raise | apply dk_gets | apply dk_lift
    | apply dk_theme_get
    | apply dk_for_each; intros ?
    | apply dk_bind; [|intros ?]
    | progress cbv zeta
    | leaf
    | match goal with
      | |- desk_keeps _ (if ?b then _ else _) => destruct b
      | |- desk_keeps _ (match ?x with _ => _ end) => destruct x
      end ].

Ltac one_dialog_leaf :=
  first
    [ apply one_dialog_theme_upd; intros ?; split; [reflexivity|cbn; by auto]
    | apply one_dialog_font_upd; intros ?; split; [reflexivity|cbn; by auto]
    | apply one_dialog_showinfo
    | apply one_dialog_in_process;
      first [ apply ages_same_heap; intros ?; first [reflexivity|apply save_settings_heap]
            | match goal with
              | |- ages (open_theme_settings.apply_theme ?s) =>
                  exact (ages_perform 0 (Windows (ApplyTheme s)))
              | |- ages (open_font_size_settings.apply_font_size ?n) =>
                  exact (ages_perform 0 (Windows (ApplyFontSize n)))
              end ] ].

Lemma one_dialog_open_theme (self : nat) (d : desk) :
  is_Some (heap (process d) !! self) -> one_dialog d ->
  one_dialog (snd (open_theme_settings self d)).
Proof.
  intros Hself Hd. unfold open_theme_settings.
  unfold bind at 1, gets at 1. unfold bind at 1, gets at 1.
  destruct (match theme_dialog_ref d with
            | Some i => theme_winfo_exists i d
            | None => false
            end) eqn:Halive; [exact Hd|].
  unfold bind at 1, gets at 1. unfold bind at 1, gets at 1.
  unfold bind at 1, modify at 1. unfold bind at 1, modify at 1.
  set (i := fresh (dom (theme_dialogs d))).
  match goal with
  | |- one_dialog (snd (?m ?d2)) => assert (desk_keeps one_dialog m) as Hrest
  end.
  { unfold pick_color. dk_walk one_dialog_leaf. }
  apply Hrest. destruct Hd as (Ht & Hf & Htr & Hfr). split_and!; cbn.
  - intros j t Hj. apply lookup_insert_Some in Hj as [[_ <-]|[_ Hj]]; [done|].
    by apply (Ht j).
  - exact Hf.
  - intros j Hj. destruct (decide (j = i)) as [->|Hne]; [done|].
    assert (theme_winfo_exists j d = true) as Hex.
    { revert Hj. unfold theme_winfo_exists. cbn. by rewrite lookup_insert_ne. }
    pose proof (Htr j Hex) as Href. rewrite Href in Halive. congruence.
  - exact Hfr.
Qed.

Lemma one_dialog_open_font (self : nat) (d : desk) :
  is_Some (heap (process d) !! self) -> one_dialog d ->
  one_dialog (snd (open_font_size_settings self d)).
Proof.
  intros Hself Hd. unfold open_font_size_settings.
  unfold bind at 1, gets at 1. unfold bind at 1, gets at 1.
  destruct (match font_dialog_ref d with
            | Some i => font_winfo_exists i d
            | None => false
            end) eqn:Halive; [exact Hd|].
  unfold bind, gets, modify. cbn [snd].
  set (i := fresh (dom (font_dialogs d))).
  destruct Hd as (Ht & Hf & Htr & Hfr). split_and!; cbn.
  - exact Ht.
  - intros j t Hj. apply lookup_insert_Some in Hj as [[_ <-]|[_ Hj]]; [done|].
    by apply (Hf j).
  - exact Htr.
  - intros j Hj. destruct (decide (j = i)) as [->|Hne]; [done|].
    assert (font_winfo_exists j d = true) as Hex.
    { revert Hj. unfold font_winfo_exists. cbn. by rewrite lookup_insert_ne. }
    pose proof (Hfr j Hex) as Href. rewrite Href in Halive. congruence.
Qed.

Lemma one_dialog_from_menu (self : nat) (handler : M desk unit) :
  (forall d, is_Some (heap (process d) !! self) -> one_dialog d ->
             one_dialog (snd (handler d))) ->
  desk_keeps one_dialog (from_menu self handler).
Proof.
  intros Hh d Hd. unfold from_menu, bind, gets.
  destruct (heap (process d) !! self) as [e|] eqn:He; [|exact Hd].
  destruct (wm (window e)); try exact Hd. apply Hh; [by rewrite He|exact Hd].
Qed.

Lemma one_dialog_handle (depth : nat) (ev : desk_event) :
  desk_keeps one_dialog (desk_handle depth ev).
Proof.
  destruct ev as [self e|self|self|self|self|i value|i row answer|i|i|i|i size|i];
    cbn [desk_handle].
  - apply one_dialog_in_process. exact (ages_perform depth (InWindow self e)).
  - apply one_dialog_in_process.
    exact (ages_perform depth (Windows (OpenNewWindow self))).
  - apply one_dialog_in_process.
    exact (ages_perform depth (Windows (CloseWindow self))).
  - apply one_dialog_from_menu, one_dialog_open_theme.
  - apply one_dialog_from_menu, one_dialog_open_font.
  - unfold in_theme_dialog. dk_walk one_dialog_leaf.
  - unfold in_theme_dialog, pick. dk_walk one_dialog_leaf.
  - unfold in_theme_dialog, save_custom_colors. dk_walk one_dialog_leaf.
  - unfold in_theme_dialog, theme_dialog_apply. dk_walk one_dialog_leaf.
  - unfold in_theme_dialog. dk_walk one_dialog_leaf.
  - unfold in_font_dialog, font_dialog_apply. dk_walk one_dialog_leaf.
  - unfold in_font_dialog. dk_walk one_dialog_leaf.
Qed.

(** X18. Once the editor has started there is, whatever the user
    does, at most one theme dialog and at most one font-size dialog:
    two dialogs of a kind that exist are the same one.  While one
    exists, the entry of the Settings menu that opens it changes
    nothing, in whichever window it is chosen. *)
Theorem one_settings_dialog_at_a_time
    (w : world) (depth : nat) (evs : list desk_event) (i j self : nat) :
  raised main (fresh_process w) = None ->
  (theme_winfo_exists i (desk_run depth evs (desk_start w)) = true ->
   theme_winfo_exists j (desk_run depth evs (desk_start w)) = true -> i = j) /\
  (font_winfo_exists i (desk_run depth evs (desk_start w)) = true ->
   font_winfo_exists j (desk_run depth evs (desk_start w)) = true -> i = j) /\
  (theme_winfo_exists i (desk_run depth evs (desk_start w)) = true ->
   exec (desk_handle depth (SettingsTheme self)) (desk_run depth evs (desk_start w))
   = desk_run depth evs (desk_start w)) /\
  (font_winfo_exists i (desk_run depth evs (desk_start w)) = true ->
   exec (desk_handle depth (SettingsFontSize self)) (desk_run depth evs (desk_start w))
   = desk_run depth evs (desk_start w)).
Proof.
  intros _.
  assert (one_dialog (desk_run depth evs (desk_start w))) as (_ & _ & Htr & Hfr).
  { apply dk_run; [intros ev; apply one_dialog_handle|].
    by split_and!. }
  generalize dependent (desk_run depth evs (desk_start w)). intros d Htr Hfr.
  split_and!.
  - intros Hi Hj. apply Htr in Hi, Hj. congruence.
  - intros Hi Hj. apply Hfr in Hi, Hj. congruence.
  - intros Hi. unfold exec. cbn [desk_handle]. unfold from_menu, bind, gets.
    destruct (heap (process d) !! self) as [e|]; [|done].
    destruct (wm (window e)); try done.
    unfold open_theme_settings, bind, gets. by rewrite (Htr i Hi), Hi.
  - intros Hi. unfold exec. cbn [desk_handle]. unfold from_menu, bind, gets.
    destruct (heap (process d) !! self) as [e|]; [|done].
    destruct (wm (window e)); try done.
    unfold open_font_size_settings, bind, gets. by rewrite (Hfr i Hi), Hi.
Qed.

Lemma one_settings_dialog_at_a_time_witness :
  theme_winfo_exists 0 (desk_run 10 [SettingsTheme 0] (desk_start locked_disk)) = true /\
  exec (desk_handle 10 (SettingsTheme 0))
       (desk_run 10 [SettingsTheme 0] (desk_start locked_disk))
  = desk_run 10 [SettingsTheme 0] (desk_start locked_disk).
Proof.
  split; [reflexivity|].
  apply (one_settings_dialog_at_a_time locked_disk 10 [SettingsTheme 0] 0 0 0 eq_refl).
  reflexivity.
Defined.

(** ** The themes, whatever the user does *)

Lemma load_settings_themes (a : app) (k : string) :
  k <> "Custom" ->
  dict_get k (THEMES (snd (load_settings a))) = dict_get k (THEMES a).
Proof.
  intros Hk. load_settings_cases a Hs; try done.
  - by destruct (substring_of "custom_theme" s).
  - by destruct (existsb (is_str "custom_theme") items).
  - destruct (dict_get "custom_theme" d); cbn; [|done].
    by apply dict_get_set_ne.
Qed.

Lemma main_themes (w : world) (k : string) :
  k <> "Custom" ->
  dict_get k (THEMES (exec main (fresh_process w))) = dict_get k THEMES_literal.
Proof.
  intros Hk. unfold exec, main.
  pose proof (load_settings_themes (fresh_process w) k Hk) as Hload.
  destruct (load_settings_returns (fresh_process w)) as (theme & a1 & Hrun & _).
  unfold bind at 1. rewrite Hrun in *. cbn [snd] in Hload.
  unfold bind at 1, modify at 1.
  assert (keeps (fun s => THEMES s = THEMES a1) (Editor_init [] true)) as Hinit.
  { keeps_handlers. }
  by rewrite (Hinit (set_current_theme theme a1) eq_refl).
Qed.

Lemma perform_THEMES (depth : nat) (act : activity) (a : app) :
  THEMES (snd (perform depth act a)) = THEMES a.
Proof.
  destruct act as [self ev|ev]; cbn [perform]; [|by apply handle_THEMES].
  pose proof (interact_step self depth ev a) as Hstep. unfold exec in Hstep.
  destruct (heap a !! self) as [e|] eqn:Hs.
  - by destruct (document_step_elim self a _ e Hs Hstep) as (? & ? & _ & _ & -> & _).
  - unfold document_step in Hstep. rewrite Hs in Hstep. by rewrite Hstep.
Qed.

Lemma perform_current_theme (depth : nat) (act : activity) (a : app) :
  (forall selected, act <> Windows (ApplyTheme selected)) ->
  current_theme (snd (perform depth act a)) = current_theme a.
Proof.
  intros Hact. destruct act as [self ev|ev]; cbn [perform].
  - pose proof (interact_step self depth ev a) as Hstep. unfold exec in Hstep.
    destruct (heap a !! self) as [e|] eqn:Hs.
    + by destruct (document_step_elim self a _ e Hs Hstep)
        as (? & ? & _ & _ & _ & _ & -> & _).
    + unfold document_step in Hstep. rewrite Hs in Hstep. by rewrite Hstep.
  - apply handle_current_theme; [|done]. intros selected ->. by apply (Hact selected).
Qed.

Lemma save_settings_THEMES (theme : json) (a : app) :
  THEMES (snd (save_settings theme a)) = THEMES a /\
  current_theme (snd (save_settings theme a)) = current_theme a.
Proof.
  assert (keeps (fun s => THEMES s = THEMES a /\ current_theme s = current_theme a)
            (save_settings theme)) as Hk.
  { unfold save_settings. keeps_walk. }
  by apply Hk.
Qed.

(** Handlers that work on the dialogs alone. *)
Ltac dialog_leaf :=
  let d := fresh "d" in let Hd := fresh "Hd" in
  intros d Hd; exact Hd.

Lemma open_theme_settings_process (self : nat) (a : app) :
  desk_keeps (fun d => process d = a) (open_theme_settings self).
Proof. unfold open_theme_settings, pick_color. dk_walk dialog_leaf. Qed.

Lemma open_font_size_settings_process (self : nat) (a : app) :
  desk_keeps (fun d => process d = a) (open_font_size_settings self).
Proof. unfold open_font_size_settings. dk_walk dialog_leaf. Qed.

Lemma from_menu_process (self : nat) (handler : M desk unit) (a : app) :
  desk_keeps (fun d => process d = a) handler ->
  desk_keeps (fun d => process d = a) (from_menu self handler).
Proof.
  intros Hh d Hd. unfold from_menu, bind, gets.
  destruct (heap (process d) !! self) as [e|]; [|exact Hd].
  destruct (wm (window e)); try exact Hd. by apply Hh.
Qed.

(** What [pick] makes of the process: nothing, or the chosen colour
    in place of the one the row had. *)
Lemma pick_process (i : nat) (row : color_row) (answer : option string) (d : desk) :
  process (snd (pick i row answer d)) = process d \/
  exists c color,
    dict_get "Custom" (THEMES (process d)) = Some (JObj c) /\
    is_Some (dict_get (color_key row) c) /\
    process (snd (pick i row answer d))
    = set_THEMES (dict_set "Custom" (JObj (dict_set (color_key row) (JStr color) c))
                           (THEMES (process d))) (process d).
Proof.
  unfold pick, bind, gets, lift, py_getitem, ret, raise, in_process, modify,
    theme_get, theme_upd.
  destruct (dict_get "Custom" (THEMES (process d))) as [custom|] eqn:Hcustom;
    [|by left].
  destruct custom as [| | | | |c]; try (by left).
  destruct (dict_get (color_key row) c) as [old|] eqn:Hold; [|by left].
  destruct answer as [color|]; [|by left].
  destruct (truthy color); [|by left].
  cbn. rewrite Hcustom.
  right. exists c, color. split; [done|]. split; [done|].
  cbn [theme_dialogs set_process].
  destruct (theme_dialogs d !! i) as [t|]; [|done].
  by destruct (dict_get (color_key row) (preview_labels t)).
Qed.

Lemma in_theme_dialog_cases (i : nat) (built : ThemeDialog -> bool)
    (handler : M desk unit) (d : desk) :
  snd (in_theme_dialog i built handler d) = d \/
  exists t, theme_dialogs d !! i = Some t /\ built t = true /\
            theme_winfo_exists i d = true /\
            snd (in_theme_dialog i built handler d) = snd (handler d).
Proof.
  unfold in_theme_dialog, bind, gets, theme_get.
  destruct (theme_winfo_exists i d) eqn:Hex; [|by left].
  destruct (theme_dialogs d !! i) as [t|] eqn:Ht; [|by left].
  destruct (built t) eqn:Hb; [|by left].
  right. by exists t.
Qed.

Lemma in_font_dialog_cases (i : nat) (handler : M desk unit) (d : desk) :
  snd (in_font_dialog i handler d) = d \/
  (font_winfo_exists i d = true /\
   snd (in_font_dialog i handler d) = snd (handler d)).
Proof.
  unfold in_font_dialog, bind, gets.
  destruct (font_winfo_exists i d) eqn:Hex; [by right|by left].
Qed.

(** What one event at the desk makes of the process: nothing; what a
    handler of the editors other than the theme broadcast makes of it;
    the theme broadcast, for the value of a dialog that has its buttons;
    a colour chosen for a row in place of the one it had; or the
    settings saved. *)
Lemma desk_handle_process (depth : nat) (ev : desk_event) (d : desk) :
  process (exec (desk_handle depth ev) d) = process d \/
  (exists act, (forall selected, act <> Windows (ApplyTheme selected)) /\
               process (exec (desk_handle depth ev) d)
               = snd (perform depth act (process d))) \/
  (exists i t, theme_dialogs d !! i = Some t /\ theme_buttons t = true /\
               process (exec (desk_handle depth ev) d)
               = snd (handle (ApplyTheme (StringVar_get (theme_var t))) (process d))) \/
  (exists row c color,
     dict_get "Custom" (THEMES (process d)) = Some (JObj c) /\
     is_Some (dict_get (color_key row) c) /\
     process (exec (desk_handle depth ev) d)
     = set_THEMES (dict_set "Custom" (JObj (dict_set (color_key row) (JStr color) c))
                            (THEMES (process d))) (process d)) \/
  (exists theme, process (exec (desk_handle depth ev) d)
                 = snd (save_settings theme (process d))).
Proof.
  unfold exec.
  destruct ev as [self e|self|self|self|self|i value|i row answer|i|i|i|i size|i];
    cbn [desk_handle].
  - right; left. exists (InWindow self e). split; [done|]. by rewrite in_process_snd.
  - right; left. exists (Windows (OpenNewWindow self)). split; [done|].
    by rewrite in_process_snd.
  - right; left. exists (Windows (CloseWindow self)). split; [done|].
    by rewrite in_process_snd.
  - left. by apply from_menu_process; [apply open_theme_settings_process|].
  - left. by apply from_menu_process; [apply open_font_size_settings_process|].
  - left. destruct (in_theme_dialog_cases i
                      (fun _ => existsb (String.eqb value) radio_values)
                      (theme_upd i (set_theme_var (JStr value))) d)
      as [->|(t & _ & _ & _ & ->)]; done.
  - destruct (in_theme_dialog_cases i (has_choose_button row) (pick i row answer) d)
      as [->|(t & _ & _ & _ & ->)]; [by left|].
    destruct (pick_process i row answer d) as [->|Hpick]; [by left|].
    right; right; right; left. by exists row.
  - destruct (in_theme_dialog_cases i theme_buttons save_custom_colors d)
      as [->|(t & _ & _ & _ & ->)]; [by left|].
    right; right; right; right. exists (current_theme (process d)).
    unfold save_custom_colors, bind, gets.
    pose proof (in_process_snd (save_settings (current_theme (process d))) d) as Hs.
    destruct (in_process _ d) as [[err|[]] d1]; cbn [snd] in *; by subst d1.
  - destruct (in_theme_dialog_cases i theme_buttons (theme_dialog_apply i) d)
      as [->|(t & Ht & Hb & _ & ->)]; [by left|].
    right; right; left. exists i, t. split; [done|]. split; [done|].
    unfold theme_dialog_apply, bind, theme_get. rewrite Ht.
    pose proof (in_process_snd
                  (open_theme_settings.apply_theme (StringVar_get (theme_var t))) d)
      as Hs.
    destruct (in_process _ d) as [[err|[]] d1]; cbn [snd] in *; by subst d1.
  - left. destruct (in_theme_dialog_cases i (fun _ => true)
                      (theme_upd i theme_destroy) d)
      as [->|(t & _ & _ & _ & ->)]; done.
  - destruct (in_font_dialog_cases i (font_dialog_apply i size) d) as [->|[_ ->]];
      [by left|].
    right; left. exists (Windows (ApplyFontSize size)). split; [done|].
    unfold font_dialog_apply, bind.
    pose proof (in_process_snd (open_font_size_settings.apply_font_size size) d) as Hs.
    destruct (in_process _ d) as [[err|[]] d1]; cbn [snd] in *; by subst d1.
  - left. destruct (in_font_dialog_cases i (font_upd i font_destroy) d)
      as [->|[_ ->]]; done.
Qed.

Lemma custom_colour_THEMES (k : string) (a a' : app) :
  THEMES a' = THEMES a -> custom_colour k a' = custom_colour k a.
Proof. unfold custom_colour. by intros ->. Qed.

Lemma custom_colour_picked (k : string) (row : color_row) (c : dict) (v : json)
    (a : app) :
  dict_get "Custom" (THEMES a) = Some (JObj c) ->
  k <> color_key row ->
  custom_colour k
    (set_THEMES (dict_set "Custom" (JObj (dict_set (color_key row) v c)) (THEMES a)) a)
  = custom_colour k a.
Proof.
  intros Hc Hk. unfold custom_colour. cbn [THEMES set_THEMES].
  rewrite dict_get_set_eq, Hc. by apply dict_get_set_ne.
Qed.

(** One event leaves every theme but the custom one, and of the
    custom theme every colour that has no row. *)
Lemma desk_handle_themes (depth : nat) (ev : desk_event) (d : desk) (k : string) :
  (k <> "Custom" ->
   dict_get k (THEMES (process (exec (desk_handle depth ev) d)))
   = dict_get k (THEMES (process d))) /\
  ((forall row, k <> color_key row) ->
   custom_colour k (process (exec (desk_handle depth ev) d))
   = custom_colour k (process d)).
Proof.
  destruct (desk_handle_process depth ev d)
    as [->|[(act & _ & ->)|[(i & t & _ & _ & ->)|[(row & c & color & Hc & _ & ->)
       |(theme & ->)]]]].
  - done.
  - split; intros _; [|apply custom_colour_THEMES]; by rewrite perform_THEMES.
  - assert (THEMES (snd (handle (ApplyTheme (StringVar_get (theme_var t)))
                            (process d))) = THEMES (process d)) as HT
      by (by apply handle_THEMES).
    split; intros _; [|apply custom_colour_THEMES]; by rewrite HT.
  - split.
    + intros Hk. cbn [THEMES set_THEMES]. by apply dict_get_set_ne.
    + intros Hk. by apply custom_colour_picked.
  - split; intros _; [|apply custom_colour_THEMES];
      by destruct (save_settings_THEMES theme (process d)) as [-> _].
Qed.

(** X17. Once the editor has started, nothing the user does changes
    the built-in themes: [THEMES["Light"]] and [THEMES["Dark"]] stay what
    the program text gives them.  Of the custom theme, the colour of the
    cursor ([insertbackground]) has no row in the theme dialog and stays
    what it was when the editor started. *)
Theorem built_in_themes_never_change
    (w : world) (depth : nat) (evs : list desk_event) :
  raised main (fresh_process w) = None ->
  dict_get "Light" (THEMES (process (desk_run depth evs (desk_start w))))
  = dict_get "Light" THEMES_literal /\
  dict_get "Dark" (THEMES (process (desk_run depth evs (desk_start w))))
  = dict_get "Dark" THEMES_literal /\
  custom_colour "insertbackground" (process (desk_run depth evs (desk_start w)))
  = custom_colour "insertbackground" (process (desk_start w)).
Proof.
  intros _.
  apply (dk_run (fun d =>
           dict_get "Light" (THEMES (process d)) = dict_get "Light" THEMES_literal /\
           dict_get "Dark" (THEMES (process d)) = dict_get "Dark" THEMES_literal /\
           custom_colour "insertbackground" (process d)
           = custom_colour "insertbackground" (process (desk_start w)))).
  - intros ev d (Hl & Hd & Hc).
    destruct (desk_handle_themes depth ev d "Light") as [Hl' _].
    destruct (desk_handle_themes depth ev d "Dark") as [Hd' _].
    destruct (desk_handle_themes depth ev d "insertbackground") as [_ Hc'].
    unfold exec in *. rewrite Hl' by done. rewrite Hd' by done.
    rewrite Hc' by (by intros []). done.
  - split_and!; [by apply main_themes|by apply main_themes|done].
Qed.

Lemma built_in_themes_never_change_witness :
  dict_get "Light"
    (THEMES (process (desk_run 10 [SettingsTheme 0;
                                   ChooseColor 0 Background (Some "#ff0000");
                                   ApplyThemeButton 0]
                               (desk_start locked_disk))))
  = dict_get "Light" THEMES_literal /\
  custom_colour "bg"
    (process (desk_run 10 [SettingsTheme 0;
                           ChooseColor 0 Background (Some "#ff0000");
                           ApplyThemeButton 0]
                       (desk_start locked_disk)))
  = Some (JStr "#ff0000").
Proof.
  split; [|reflexivity].
  apply (built_in_themes_never_change locked_disk 10
           [SettingsTheme 0; ChooseColor 0 Background (Some "#ff0000");
            ApplyThemeButton 0] eq_refl).
Defined.
